(** * The Socket.IO admin instrumentation layer (libs/socketio/async_admin.py)

    A shallow embedding of [InstrumentedAsyncServer]: the hooks that wrap the
    event dispatch, the room membership changes, the broadcast and the
    request/response paths of a Socket.IO server, the aggregation buffer
    they feed, the admin handshake, and the background task that publishes
    [server_stats].  The commands an admin may issue ([admin_emit] and the
    like), the websocket wrappers, the ping hook and [_check_for_upgrade]
    are left out: no property below depends on them.

    Conventions of the embedding.
    - The wrapped server ([self.sio], its manager and its Engine.IO server) is
      an external collaborator: its state is an abstract type [W] and the
      operations the layer calls on it are the fields of the class [Server].
    - A coroutine or method of the layer is a function in the monad
      [M A = state W -> res A * state W]: Python state mutation is state
      passing, a raised exception is [Raise e] and keeps the mutations made
      before it.
    - [self.sio.emit(..., namespace=self.admin_namespace)], the publication
      primitive, appends the message to the [outbox] of the state, in call
      order.
    - Concurrency is cooperative: a background task runs from one [sleep] to
      the next without interleaving, and the scheduler is explicit ([tick]
      lets one time unit pass, [run_task] resumes a task whose sleep is
      over).  Time is discrete: [clock] is the reading of [time.time()]. *)

From stdpp Require Import base gmap strings list fin_maps sorting.
From Stdlib Require Import ZArith Ascii.

(** ** Python values, exceptions, results *)

(** The values carried as event arguments. *)
#[local] Unset Elimination Schemes.
Inductive pyval : Type :=
| PNone
| PBool (b : bool)
| PInt (n : Z)
| PStr (s : string)
| PTuple (l : list pyval)
| PList (l : list pyval).
#[local] Set Elimination Schemes.

(** The credentials an admin client supplies in its handshake. *)
Inductive cred : Type :=
| CredNone
| CredStr (s : string)
| CredDict (d : gmap string string).

#[global] Instance cred_eq_dec : EqDecision cred.
Proof. solve_decision. Defined.

Inductive exn : Type :=
| ValueError (msg : string)
| ConnectionRefusedError (msg : string)
| KeyError (key : string)
| IndexError (msg : string)
| AttributeError (msg : string)
| OtherError (msg : string).

Inductive res (A : Type) : Type :=
| Ok (a : A)
| Raise (e : exn).
Arguments Ok {A} a.
Arguments Raise {A} e.

(** ** The aggregation buffer *)

Module EventBuffer.

(** Modelled from the spec: the class [EventBuffer] of libs/socketio/admin.py
    is imported by async_admin.py but its source is missing.  A buffer is a
    mapping from counter names to accumulated values (spec 3); a new one
    holds no counter. *)
Definition empty : gmap string Z := ∅.

(** Modelled from the spec: [EventBuffer.push], whose source is missing.
    Spec 4.5: [push(counterName, amount=1)] adds amount to the named
    counter, creating it at zero if absent. *)
Definition push (name : string) (amount : Z) (b : gmap string Z)
  : gmap string Z :=
  <[name := (default 0 (b !! name) + amount)%Z]> b.

(** Modelled from the spec: [EventBuffer.get_and_clear], whose source is
    missing.  Spec 4.5: [getAndClear()] returns a mapping of all counters
    with their accumulated values and resets all of them to zero.  The
    result is the pair (mapping returned, buffer left behind). *)
Definition get_and_clear (b : gmap string Z) : gmap string Z * gmap string Z :=
  (b, (λ _, 0%Z) <$> b).

(** Sum over all counters of a mapping. *)
Definition total (m : gmap string Z) : Z :=
  map_fold (λ _ v acc, (v + acc)%Z) 0%Z m.

(** A client of the buffer: pushes interleaved with get-and-clear. *)
Inductive op : Type :=
| Push (name : string) (amount : Z)
| GetAndClear.

(** Runs the operations in order; the first component collects, oldest
    first, the mappings returned by the get-and-clear operations. *)
Fixpoint run (ops : list op) (b : gmap string Z)
  : list (gmap string Z) * gmap string Z :=
  match ops with
  | [] => ([], b)
  | Push name amount :: ops' => run ops' (push name amount b)
  | GetAndClear :: ops' =>
      let '(r, b') := get_and_clear b in
      let '(rs, b'') := run ops' b' in
      (r :: rs, b'')
  end.

Definition sum_read (reads : list (gmap string Z)) : Z :=
  foldr (λ r acc, (total r + acc)%Z) 0%Z reads.

Fixpoint sum_pushed (ops : list op) : Z :=
  match ops with
  | [] => 0
  | Push _ amount :: ops' => amount + sum_pushed ops'
  | GetAndClear :: ops' => sum_pushed ops'
  end.

End EventBuffer.

(** ** Messages published on the admin namespace *)

(** [skip_sid] of a broadcast: absent, one identifier, or a list. *)
Inductive skip : Type :=
| SkipNone
| SkipOne (sid : string)
| SkipList (sids : list string).

(** The value of one entry of the [query] dictionary of a handshake:
    [v[0] if len(v) == 1 else v]. *)
Inductive query_value : Type :=
| QOne (v : string)
| QMany (vs : list string).

Record handshake : Type := {
  hs_address : string;
  hs_headers : gmap string string;
  hs_query : gmap string query_value;
  hs_secure : bool;
  hs_url : string;
  hs_issued : Z;
  hs_time : string;
}.

(** The dictionary built by [serialize_socket] (its ['data'] entry is the
    constant empty dictionary). *)
Record socket_snapshot : Type := {
  ss_id : string;
  ss_clientId : string;
  ss_transport : string;
  ss_nsp : string;
  ss_handshake : handshake;
  ss_rooms : list string;
}.

Record namespace_count : Type := {
  nc_name : string;
  nc_socketsCount : nat;
}.

Record stats : Type := {
  st_serverId : string;
  st_hostname : string;
  st_pid : Z;
  st_uptime : Z;
  st_clientsCount : nat;
  st_pollingClientsCount : nat;
  st_aggregatedEvents : gmap string Z;
  st_namespaces : list namespace_count;
}.

(** The data argument of each admin message. *)
Inductive payload : Type :=
| PConfig (supportedFeatures : list string)
| PAllSockets (all_sockets : list socket_snapshot)
| PSocketConnected (serialized_socket : socket_snapshot) (iso : string)
| PSocketDisconnected (namespace sid : string) (reason : pyval) (iso : string)
| PEvent (namespace sid : string) (event_data : list pyval) (iso : string)
| PRoom (namespace : string) (room : string) (sid : string) (iso : string)
| PStats (st : stats).

(** One call [sio.emit(event, data, to=to, namespace=admin_namespace)]. *)
Record message : Type := {
  msg_event : string;
  msg_data : payload;
  msg_to : option string;
  msg_namespace : string;
}.

(** ** The wrapped server *)

(** A WSGI/ASGI environment: keys in insertion order, each key once. *)
Definition environ : Type := list (string * string).

Record eio_socket : Type := {
  upgraded : bool;
}.

(** The dictionary returned by the Engine.IO [_ok] response builder. *)
Record http_response : Type := {
  status : string;
  response : list Byte.byte;
}.

(** What the layer calls on the objects it instruments, over the state [W]
    of the wrapped server.  An operation that the layer saves and replaces
    (the double-underscore attributes of the source) is the original one; it
    may raise.  The last fields are the process constants and the library
    functions of the module. *)
Class Server (W : Type) : Type := {
  (* self.sio.__trigger_event(event, namespace, sid, *rest) *)
  sio_trigger_event : string → string → string → list pyval → W → res pyval * W;
  (* self.sio.manager.__basic_enter_room(sid, namespace, room, eio_sid) *)
  manager_basic_enter_room :
    string → string → option string → option string → W → res pyval * W;
  (* self.sio.manager.__basic_leave_room(sid, namespace, room) *)
  manager_basic_leave_room : string → string → option string → W → res pyval * W;
  (* self.sio.manager.__emit(event, data, namespace, room, skip_sid, callback) *)
  manager_emit :
    string → pyval → string → option string → skip → pyval → W → res pyval * W;
  (* self.sio._handle_eio_connect(eio_sid, environ) *)
  sio_handle_eio_connect : string → environ → W → res pyval * W;
  (* self.sio._handle_eio_disconnect(eio_sid, reason) *)
  sio_handle_eio_disconnect : string → pyval → W → res pyval * W;
  (* self.sio.eio.__ok(packets, headers, jsonp_index) *)
  eio_ok : pyval → pyval → pyval → W → res http_response * W;
  (* socket.__handle_post_request(environ), socket identified by its sid *)
  socket_handle_post_request : string → environ → W → res pyval * W;
  (* self.sio.manager.get_participants(namespace, room): (sid, eio_sid) *)
  manager_get_participants : string → option string → W → list (string * string);
  manager_get_namespaces : W → list string;
  (* self.sio.manager.eio_sid_from_sid(sid, namespace) *)
  manager_eio_sid_from_sid : string → option string → W → res string;
  (* self.sio.manager.get_rooms(sid, namespace) *)
  manager_get_rooms : string → string → W → list string;
  (* len(self.sio.manager.rooms.get(nsp, {None: []}).get(None, [])) *)
  manager_namespace_size : string → W → nat;
  (* self.sio.manager.host_id, when the manager has the attribute *)
  manager_host_id : W → option string;
  (* self.sio.eio._get_socket(eio_sid) *)
  eio_get_socket : string → W → res eio_socket;
  (* self.sio.eio.sockets *)
  eio_sockets : W → gmap string eio_socket;
  (* self.sio.environ *)
  sio_environ : W → gmap string environ;
  (* self.sio.handlers.keys() *)
  sio_handlers : W → list string;
  HOSTNAME : string;
  PID : Z;
  (* datetime.fromtimestamp(t, timezone.utc).isoformat() *)
  isoformat : Z → string;
  (* urllib.parse.parse_qs *)
  parse_qs : string → gmap string (list string);
}.

(** ** The state of the instrumentation layer *)

(** [auth] as given to the constructor. *)
Inductive auth_config : Type :=
| AuthNone                                (* None, the default *)
| AuthFalse                               (* False *)
| AuthDict (d : gmap string string)       (* fixed credentials *)
| AuthList (l : list cred)                (* allow-list *)
| AuthCallable (f : cred → bool).         (* function or coroutine function *)

(** The keyword arguments of the constructor. *)
Record config : Type := {
  auth : auth_config;
  admin_namespace : string;
  read_only : bool;
  server_id_arg : option string;
  mode : string;
  server_stats_interval : nat;
}.

(** A background task started with [sio.start_background_task]. *)
Inductive task : Type :=
| ConfigSleeping (sid : string)           (* config(sid), in its sleep(0.1) *)
| ConfigDone (sid : string) (outcome : res unit)
| StatsCreated                            (* _emit_server_stats, not yet run *)
| StatsSleeping (remaining : nat) (start_time : Z) (namespaces : list string)
| StatsDone (outcome : res unit).

Record state (W : Type) : Type := {
  sio : W;
  cfg : config;
  server_id : string;
  registered : list string;      (* admin handlers set with sio.on *)
  timestamps : gmap string Z;    (* sio.manager._timestamps *)
  admin_queue : list (string * payload);
  event_buffer : gmap string Z;
  stop_stats_event : option bool;  (* None, or the current event and its flag *)
  stats_task : option nat;         (* index in [tasks] of the recorded task *)
  tasks : list task;
  outbox : list message;
  clock : Z;
}.
Arguments sio {W}.
Arguments cfg {W}.
Arguments server_id {W}.
Arguments registered {W}.
Arguments timestamps {W}.
Arguments admin_queue {W}.
Arguments event_buffer {W}.
Arguments stop_stats_event {W}.
Arguments stats_task {W}.
Arguments tasks {W}.
Arguments outbox {W}.
Arguments clock {W}.

(** ** Python helpers *)

(** [str.lower()] on the ASCII letters (header names are ASCII). *)
Definition lower_ascii (c : ascii) : ascii :=
  let n := nat_of_ascii c in
  if (65 <=? n)%nat && (n <=? 90)%nat then ascii_of_nat (n + 32) else c.

Fixpoint lower (s : string) : string :=
  match s with
  | EmptyString => EmptyString
  | String c s' => String (lower_ascii c) (lower s')
  end.

(** [s[n:]] *)
Fixpoint drop_chars (n : nat) (s : string) : string :=
  match n, s with
  | O, _ => s
  | S n', String _ s' => drop_chars n' s'
  | S _, EmptyString => EmptyString
  end.

(** [s.startswith(p)] *)
Fixpoint startswith (p s : string) : bool :=
  match p, s with
  | EmptyString, _ => true
  | String a p', String b s' => bool_decide (a = b) && startswith p' s'
  | String _ _, EmptyString => false
  end.

(** [environ.get(key)], [None] when the key is absent *)
Fixpoint env_lookup (env : environ) (key : string) : option string :=
  match env with
  | [] => None
  | (k, v) :: env' => if decide (k = key) then Some v else env_lookup env' key
  end.

(** [environ.get(key, dflt)] *)
Definition env_get (env : environ) (key dflt : string) : string :=
  default dflt (env_lookup env key).

Definition digit_value (c : ascii) : option Z :=
  let n := nat_of_ascii c in
  if (48 <=? n)%nat && (n <=? 57)%nat then Some (Z.of_nat (n - 48)) else None.

Fixpoint parse_digits (acc : Z) (s : string) : option Z :=
  match s with
  | EmptyString => Some acc
  | String c s' =>
      match digit_value c with
      | Some d => parse_digits (10 * acc + d) s'
      | None => None
      end
  end.

(** [int(s)] for a string: an optional sign and at least one decimal digit.
    The other spellings Python accepts (surrounding blanks, underscores
    between digits) are outside the model and read as malformed. *)
Definition py_int (s : string) : option Z :=
  match s with
  | EmptyString => None
  | String "-" (String c s') => Z.opp <$> parse_digits 0 (String c s')
  | String "+" (String c s') => parse_digits 0 (String c s')
  | _ => parse_digits 0 s
  end.

(** Truth value of a room identifier ([None] or a string). *)
Definition room_truthy (room : option string) : option string :=
  match room with
  | Some r => if decide (r = EmptyString) then None else Some r
  | None => None
  end.

(** Truth value of the configured authenticator. *)
Definition auth_truthy (a : auth_config) : bool :=
  match a with
  | AuthNone => false
  | AuthFalse => false
  | AuthDict d => bool_decide (d ≠ ∅)
  | AuthList l => bool_decide (l ≠ [])
  | AuthCallable _ => true
  end.

(** [skip_sid] after [if not isinstance(skip_sid, list): skip_sid = [skip_sid]]. *)
Definition normalize_skip (skip_sid : skip) : list (option string) :=
  match skip_sid with
  | SkipNone => [None]
  | SkipOne sid => [Some sid]
  | SkipList sids => Some <$> sids
  end.

(** [[event] + list(data) if isinstance(data, tuple) else [event, data]] *)
Definition event_data_of (event : string) (data : pyval) : list pyval :=
  match data with
  | PTuple l => PStr event :: l
  | _ => [PStr event; data]
  end.

(** [namespaces.sort()] *)
Definition string_le (a b : string) : Prop := String.leb a b = true.

#[global] Instance string_le_dec a b : Decision (string_le a b).
Proof. unfold string_le. apply _. Defined.

Definition sort_strings (l : list string) : list string :=
  merge_sort string_le l.

(** ** The monad of the layer *)

Section Layer.
Context {W : Type} `{!Server W}.

Definition M (A : Type) : Type := state W → res A * state W.

Definition ret {A} (a : A) : M A := λ s, (Ok a, s).

Definition raise {A} (e : exn) : M A := λ s, (Raise e, s).

Definition bind {A B} (c : M A) (k : A → M B) : M B :=
  λ s, match c s with
       | (Ok a, s') => k a s'
       | (Raise e, s') => (Raise e, s')
       end.

#[local] Notation "'let!' x ':=' c 'in' k" := (bind c (λ x, k))
  (at level 10, x name, c at level 200, k at level 200, only parsing).
#[local] Notation "'do!' c 'in' k" := (bind c (λ _, k))
  (at level 10, c at level 200, k at level 200, only parsing).

(** Field updates. *)
Definition set_sio (w : W) (s : state W) : state W :=
  {| sio := w; cfg := cfg s; server_id := server_id s;
     registered := registered s; timestamps := timestamps s;
     admin_queue := admin_queue s; event_buffer := event_buffer s;
     stop_stats_event := stop_stats_event s; stats_task := stats_task s;
     tasks := tasks s; outbox := outbox s; clock := clock s |}.

Definition set_timestamps (t : gmap string Z) (s : state W) : state W :=
  {| sio := sio s; cfg := cfg s; server_id := server_id s;
     registered := registered s; timestamps := t;
     admin_queue := admin_queue s; event_buffer := event_buffer s;
     stop_stats_event := stop_stats_event s; stats_task := stats_task s;
     tasks := tasks s; outbox := outbox s; clock := clock s |}.

Definition set_admin_queue (q : list (string * payload)) (s : state W)
  : state W :=
  {| sio := sio s; cfg := cfg s; server_id := server_id s;
     registered := registered s; timestamps := timestamps s;
     admin_queue := q; event_buffer := event_buffer s;
     stop_stats_event := stop_stats_event s; stats_task := stats_task s;
     tasks := tasks s; outbox := outbox s; clock := clock s |}.

Definition set_event_buffer (b : gmap string Z) (s : state W) : state W :=
  {| sio := sio s; cfg := cfg s; server_id := server_id s;
     registered := registered s; timestamps := timestamps s;
     admin_queue := admin_queue s; event_buffer := b;
     stop_stats_event := stop_stats_event s; stats_task := stats_task s;
     tasks := tasks s; outbox := outbox s; clock := clock s |}.

Definition set_stop_stats_event (e : option bool) (s : state W) : state W :=
  {| sio := sio s; cfg := cfg s; server_id := server_id s;
     registered := registered s; timestamps := timestamps s;
     admin_queue := admin_queue s; event_buffer := event_buffer s;
     stop_stats_event := e; stats_task := stats_task s;
     tasks := tasks s; outbox := outbox s; clock := clock s |}.

Definition set_stats_task (t : option nat) (s : state W) : state W :=
  {| sio := sio s; cfg := cfg s; server_id := server_id s;
     registered := registered s; timestamps := timestamps s;
     admin_queue := admin_queue s; event_buffer := event_buffer s;
     stop_stats_event := stop_stats_event s; stats_task := t;
     tasks := tasks s; outbox := outbox s; clock := clock s |}.

Definition set_tasks (ts : list task) (s : state W) : state W :=
  {| sio := sio s; cfg := cfg s; server_id := server_id s;
     registered := registered s; timestamps := timestamps s;
     admin_queue := admin_queue s; event_buffer := event_buffer s;
     stop_stats_event := stop_stats_event s; stats_task := stats_task s;
     tasks := ts; outbox := outbox s; clock := clock s |}.

Definition set_outbox (o : list message) (s : state W) : state W :=
  {| sio := sio s; cfg := cfg s; server_id := server_id s;
     registered := registered s; timestamps := timestamps s;
     admin_queue := admin_queue s; event_buffer := event_buffer s;
     stop_stats_event := stop_stats_event s; stats_task := stats_task s;
     tasks := tasks s; outbox := o; clock := clock s |}.

Definition set_clock (c : Z) (s : state W) : state W :=
  {| sio := sio s; cfg := cfg s; server_id := server_id s;
     registered := registered s; timestamps := timestamps s;
     admin_queue := admin_queue s; event_buffer := event_buffer s;
     stop_stats_event := stop_stats_event s; stats_task := stats_task s;
     tasks := tasks s; outbox := outbox s; clock := c |}.

(** Primitives. *)

(* time.time() *)
Definition time_time : M Z := λ s, (Ok (clock s), s).

(* datetime.now(timezone.utc).isoformat() *)
Definition now_iso : M string := λ s, (Ok (isoformat (clock s)), s).

(* a call of an operation of the wrapped server *)
Definition call {A} (f : W → res A * W) : M A :=
  λ s, let '(r, w) := f (sio s) in (r, set_sio w s).

(* a read of the wrapped server *)
Definition query {A} (f : W → A) : M A := λ s, (Ok (f (sio s)), s).

(* a read of the wrapped server that may raise *)
Definition try_query {A} (f : W → res A) : M A := λ s, (f (sio s), s).

(* await self.sio.emit(event, data, to=to, namespace=self.admin_namespace) *)
Definition sio_emit (event : string) (data : payload) (to : option string)
  : M unit :=
  λ s, (Ok (),
        set_outbox (outbox s ++ [{| msg_event := event; msg_data := data;
                                    msg_to := to;
                                    msg_namespace := admin_namespace (cfg s) |}])
                   s).

(* self.event_buffer.push(name, amount) *)
Definition push (name : string) (amount : Z) : M unit :=
  λ s, (Ok (), set_event_buffer (EventBuffer.push name amount (event_buffer s)) s).

(* self.admin_queue.append(entry) *)
Definition queue_append (entry : string * payload) : M unit :=
  λ s, (Ok (), set_admin_queue (admin_queue s ++ [entry]) s).

(* self.sio.start_background_task(...): the handle is the task's index *)
Definition start_background_task (t : task) : M nat :=
  λ s, (Ok (length (tasks s)), set_tasks (tasks s ++ [t]) s).

Fixpoint for_each {A} (l : list A) (body : A → M unit) : M unit :=
  match l with
  | [] => ret ()
  | x :: l' => do! body x in for_each l' body
  end.

(** ** Construction *)

(** The admin handlers [instrument] registers with [sio.on]. *)
Definition instrument_handlers (c : config) : list string :=
  "connect" ::
  (if decide (mode c = "development") then
     if read_only c then [] else ["emit"; "join"; "leave"; "_disconnect"]
   else []).

(** [server_id or (manager.host_id if hasattr(...) else HOSTNAME)] *)
Definition choose_server_id (c : config) (w : W) : string :=
  match server_id_arg c with
  | Some sid =>
      if decide (sid = EmptyString) then default HOSTNAME (manager_host_id w)
      else sid
  | None => default HOSTNAME (manager_host_id w)
  end.

(** [InstrumentedAsyncServer.__init__], with the part of [instrument]
    that creates state ([_timestamps = {}]); the replacement of the
    server's methods by the wrappers below is the wiring of the model. *)
Definition init (c : config) (w : W) : res (state W) :=
  match auth c with
  | AuthNone => Raise (ValueError "auth must be specified")
  | _ =>
      Ok {| sio := w; cfg := c; server_id := choose_server_id c w;
            registered := instrument_handlers c;
            timestamps := ∅;
            admin_queue := [];
            event_buffer := EventBuffer.empty;
            stop_stats_event := None; stats_task := None;
            tasks := []; outbox := []; clock := 0 |}
  end.

(** ** The socket snapshot *)

(** [{k[5:].lower(): v for k, v in environ.items() if k.startswith('HTTP_')}]:
    a later item overwrites an earlier one with the same key. *)
Definition handshake_headers (env : environ) : gmap string string :=
  foldl (λ acc kv, if startswith "HTTP_" kv.1
                   then <[lower (drop_chars 5 kv.1) := kv.2]> acc else acc)
        ∅ env.

(** [{k: v[0] if len(v) == 1 else v for k, v in parse_qs(...).items()}] *)
Definition handshake_query (qs : string) : gmap string query_value :=
  (λ v, match v with [x] => QOne x | _ => QMany v end) <$> parse_qs qs.

Definition serialize_socket (sid namespace : string) (eio_sid : option string)
  : M socket_snapshot :=
  let! eio_sid := match eio_sid with
                  | Some e => ret e
                  | None => try_query (manager_eio_sid_from_sid sid None)
                  end in
  let! socket := try_query (eio_get_socket eio_sid) in
  let! env := query (λ w, default [] (sio_environ w !! eio_sid)) in
  let! tm := (λ s, (Ok (default 0%Z (timestamps s !! sid)), s)) in
  let! rooms := query (manager_get_rooms sid namespace) in
  ret {| ss_id := sid;
         ss_clientId := eio_sid;
         ss_transport := if upgraded socket then "websocket" else "polling";
         ss_nsp := namespace;
         ss_handshake :=
           {| hs_address := env_get env "REMOTE_ADDR" EmptyString;
              hs_headers := handshake_headers env;
              hs_query :=
                handshake_query (env_get env "QUERY_STRING" EmptyString);
              hs_secure :=
                bool_decide
                  (env_get env "wsgi.url_scheme" EmptyString = "https");
              hs_url := env_get env "PATH_INFO" EmptyString;
              hs_issued := tm * 1000;
              hs_time :=
                if decide (tm = 0%Z) then EmptyString else isoformat tm |};
         ss_rooms := rooms |}.

(** ** The admin channel gatekeeper *)

Fixpoint map_m {A B} (f : A → M B) (l : list A) : M (list B) :=
  match l with
  | [] => ret []
  | x :: l' => let! y := f x in let! ys := map_m f l' in ret (y :: ys)
  end.

Definition supported_features (c : config) : list string :=
  ["AGGREGATED_EVENTS"]
  ++ (if read_only c then []
      else ["EMIT"; "JOIN"; "LEAVE"; "DISCONNECT"; "MJOIN"; "MLEAVE";
            "MDISCONNECT"])
  ++ (if decide (mode c = "development") then ["ALL_EVENTS"] else []).

(** The body of the nested coroutine [config(sid)] after its
    [sleep(0.1)].  The inner loop rebinds [sid]: the [all_sockets] message
    goes to the last participant visited, or to the admin when there is
    none. *)
Definition config_body (sid : string) : M unit :=
  let! c := (λ s, (Ok (cfg s), s)) in
  do! sio_emit "config" (PConfig (supported_features c)) (Some sid) in
  if decide (mode c = "development") then
    let! visited :=
      query (λ w, flat_map
                    (λ nsp, (λ p, (nsp, p)) <$> manager_get_participants nsp None w)
                    (manager_get_namespaces w)) in
    let! all_sockets :=
      map_m (λ v : string * (string * string),
               serialize_socket v.2.1 v.1 (Some v.2.2)) visited in
    sio_emit "all_sockets" (PAllSockets all_sockets)
             (Some (default sid (last ((λ v, v.2.1) <$> visited))))
  else ret ().

(** The authentication step of [admin_connect]: the value of
    [authenticated] when [self.auth] is true. *)
Definition authenticate (a : auth_config) (client_auth : cred) : res bool :=
  match a with
  | AuthDict d => Ok (bool_decide (client_auth = CredDict d))
  | AuthList l => Ok (bool_decide (client_auth ∈ l))
  | AuthCallable f => Ok (f client_auth)
  | AuthNone | AuthFalse => Raise (OtherError "auth is not callable")
  end.

Definition admin_connect (sid : string) (env : environ) (client_auth : cred)
  : M unit :=
  let! a := (λ s, (Ok (auth (cfg s)), s)) in
  do! (if auth_truthy a then
         let! authenticated := (λ s, (authenticate a client_auth, s)) in
         if negb authenticated
         then raise (ConnectionRefusedError "authentication failed")
         else ret ()
       else ret ()) in
  do! start_background_task (ConfigSleeping sid) in
  do! (λ s, (Ok (), set_stop_stats_event (Some false) s)) in
  let! t := start_background_task StatsCreated in
  λ s, (Ok (), set_stats_task (Some t) s).

(** ** The lifecycle interceptor *)

(** [list[i]], raising [IndexError] out of range. *)
Definition index {A} (l : list A) (i : nat) : M A :=
  match l !! i with
  | Some x => ret x
  | None => raise (IndexError "tuple index out of range")
  end.

(** [del self.sio.manager._timestamps[sid]] *)
Definition del_timestamp (sid : string) : M unit :=
  λ s, match timestamps s !! sid with
       | Some _ => (Ok (), set_timestamps (delete sid (timestamps s)) s)
       | None => (Raise (KeyError sid), s)
       end.

(** [_trigger_event(event, namespace, *args)] with [args = (sid, *rest)]:
    the dispatcher passes the connection identity first. *)
Definition _trigger_event (event namespace sid : string) (rest : list pyval)
  : M pyval :=
  let! t := time_time in
  do! (if decide (event = "connect") then
         let! eio_sid :=
           try_query (manager_eio_sid_from_sid sid (Some namespace)) in
         do! (λ s, (Ok (), set_timestamps (<[sid := t]> (timestamps s)) s)) in
         let! serialized_socket :=
           serialize_socket sid namespace (Some eio_sid) in
         sio_emit "socket_connected"
                  (PSocketConnected serialized_socket (isoformat t)) None
       else if decide (event = "disconnect") then
         do! del_timestamp sid in
         let! reason := index rest 0 in
         sio_emit "socket_disconnected"
                  (PSocketDisconnected namespace sid reason (isoformat t)) None
       else
         sio_emit "event_received"
                  (PEvent namespace sid (PStr event :: rest) (isoformat t))
                  None) in
  call (sio_trigger_event event namespace sid rest).

(** ** The control-action interceptor *)

Definition _basic_enter_room (sid namespace : string) (room : option string)
  (eio_sid : option string) : M pyval :=
  let! r := call (manager_basic_enter_room sid namespace room eio_sid) in
  do! match room_truthy room with
      | Some rm =>
          let! iso := now_iso in
          queue_append ("room_joined", PRoom namespace rm sid iso)
      | None => ret ()
      end in
  ret r.

Definition _basic_leave_room (sid namespace : string) (room : option string)
  : M pyval :=
  do! match room_truthy room with
      | Some rm =>
          let! iso := now_iso in
          queue_append ("room_left", PRoom namespace rm sid iso)
      | None => ret ()
      end in
  call (manager_basic_leave_room sid namespace room).

Definition _emit (event : string) (data : pyval) (namespace : string)
  (room : option string) (skip_sid : skip) (callback : pyval) : M pyval :=
  let! r := call (manager_emit event data namespace room skip_sid callback) in
  let! admin := (λ s, (Ok (admin_namespace (cfg s)), s)) in
  do! (if decide (namespace ≠ admin) then
         let event_data := event_data_of event data in
         let skip_sid := normalize_skip skip_sid in
         let! participants := query (manager_get_participants namespace room) in
         for_each participants
           (λ p, if decide (Some p.1 ∉ skip_sid) then
                   let! iso := now_iso in
                   sio_emit "event_sent"
                            (PEvent namespace p.1 event_data iso) None
                 else ret ())
       else ret ()) in
  ret r.

(** ** The transport traffic interceptor *)

(** Starts the stats task when no stop event exists yet. *)
Definition _handle_eio_connect (eio_sid : string) (env : environ) : M pyval :=
  let! ev := (λ s, (Ok (stop_stats_event s), s)) in
  do! match ev with
      | None =>
          do! (λ s, (Ok (), set_stop_stats_event (Some false) s)) in
          let! t := start_background_task StatsCreated in
          λ s, (Ok (), set_stats_task (Some t) s)
      | Some _ => ret ()
      end in
  do! push "rawConnection" 1 in
  call (sio_handle_eio_connect eio_sid env).

Definition _handle_eio_disconnect (eio_sid : string) (reason : pyval)
  : M pyval :=
  do! push "rawDisconnection" 1 in
  call (sio_handle_eio_disconnect eio_sid reason).

Definition _eio_http_response (packets headers jsonp_index : pyval)
  : M http_response :=
  let! r := call (eio_ok packets headers jsonp_index) in
  do! push "packetsOut" 1 in
  do! push "bytesOut" (Z.of_nat (length (response r))) in
  ret r.

(** [int(environ.get('CONTENT_LENGTH', 0))] *)
Definition content_length (env : environ) : M Z :=
  match env_lookup env "CONTENT_LENGTH" with
  | None => ret 0%Z
  | Some v =>
      match py_int v with
      | Some n => ret n
      | None => raise (ValueError "invalid literal for int() with base 10")
      end
  end.

Definition _eio_handle_post_request (socket : string) (env : environ)
  : M pyval :=
  let! r := call (socket_handle_post_request socket env) in
  do! push "packetsIn" 1 in
  let! n := content_length env in
  do! push "bytesIn" n in
  ret r.

(** ** The stats publisher *)

(** The dictionary published as [server_stats]; building it reads and
    clears the aggregation buffer. *)
Definition server_stats (start_time : Z) (namespaces : list string) : M stats :=
  λ s,
    let '(aggregated, cleared) := EventBuffer.get_and_clear (event_buffer s) in
    (Ok {| st_serverId := server_id s;
           st_hostname := HOSTNAME;
           st_pid := PID;
           st_uptime := clock s - start_time;
           st_clientsCount := size (eio_sockets (sio s));
           st_pollingClientsCount :=
             size (filter (λ kv, upgraded kv.2 = false) (eio_sockets (sio s)));
           st_aggregatedEvents := aggregated;
           st_namespaces :=
             (λ nsp, {| nc_name := nsp;
                        nc_socketsCount := manager_namespace_size nsp (sio s) |})
             <$> namespaces |},
     set_event_buffer cleared s).

(** [while self.admin_queue: event, args = self.admin_queue.pop(0); emit]:
    each round reads the queue again; its length bounds the rounds. *)
Fixpoint drain (rounds : nat) : M unit :=
  match rounds with
  | O => ret ()
  | S rounds' =>
      λ s, match admin_queue s with
           | [] => (Ok (), s)
           | (event, args) :: q =>
               (do! sio_emit event args None in drain rounds')
                 (set_admin_queue q s)
           end
  end.

Definition drain_queue : M unit := λ s, drain (length (admin_queue s)) s.

(** The body of the loop of [_emit_server_stats] after its sleep. *)
Definition stats_iteration (start_time : Z) (namespaces : list string)
  : M unit :=
  let! st := server_stats start_time namespaces in
  do! sio_emit "server_stats" (PStats st) None in
  drain_queue.

(** The test [while not self.stop_stats_event.is_set()] and what the task
    does next: it ends, or starts [sio.sleep(self.server_stats_interval)]. *)
Definition loop_head (start_time : Z) (namespaces : list string)
  (s : state W) : task :=
  match stop_stats_event s with
  | None => StatsDone (Raise (AttributeError "is_set"))
  | Some true => StatsDone (Ok ())
  | Some false =>
      StatsSleeping (server_stats_interval (cfg s)) start_time namespaces
  end.

(** ** The scheduler *)

Definition set_task (i : nat) (t : task) (s : state W) : state W :=
  set_tasks (<[i := t]> (tasks s)) s.

(** Runs task [i] from its current suspension point to the next one.  A
    task that is still sleeping, or over, is left alone. *)
Definition run_task (i : nat) (s : state W) : state W :=
  match tasks s !! i with
  | Some (ConfigSleeping sid) =>
      let '(r, s') := config_body sid s in
      set_task i (ConfigDone sid r) s'
  | Some StatsCreated =>
      let start_time := clock s in
      let namespaces := sort_strings (sio_handlers (sio s)) in
      set_task i (loop_head start_time namespaces s) s
  | Some (StatsSleeping O start_time namespaces) =>
      match stats_iteration start_time namespaces s with
      | (Ok _, s') => set_task i (loop_head start_time namespaces s') s'
      | (Raise e, s') => set_task i (StatsDone (Raise e)) s'
      end
  | _ => s
  end.

Definition age (t : task) : task :=
  match t with
  | StatsSleeping (S k) start_time namespaces =>
      StatsSleeping k start_time namespaces
  | _ => t
  end.

(** One time unit passes. *)
Definition tick (s : state W) : state W :=
  set_clock (clock s + 1) (set_tasks (age <$> tasks s) s).

(** [await asyncio.gather(task)] in the schedule where nothing else runs
    while the caller waits: lets time pass and runs the task until it is
    over; [None] when the fuel runs out first.  What the rest of the
    server does during the wait is a trace of actions after
    [shutdown_signal], below. *)
Fixpoint join (fuel : nat) (i : nat) (s : state W)
  : option (res unit * state W) :=
  match fuel with
  | O => None
  | S fuel' =>
      match tasks s !! i with
      | None => Some (Raise (OtherError "no such task"), s)
      | Some (StatsDone r) => Some (r, s)
      | Some (ConfigDone _ r) => Some (r, s)
      | Some (StatsSleeping (S _) _ _) => join fuel' i (tick s)
      | Some _ => join fuel' i (run_task i s)
      end
  end.

Definition shutdown (fuel : nat) (s : state W) : option (res unit * state W) :=
  match stats_task s with
  | Some i =>
      match stop_stats_event s with
      | Some _ => join fuel i (set_stop_stats_event (Some true) s)
      | None => Some (Raise (AttributeError "set"), s)
      end
  | None => Some (Ok (), s)
  end.

(** [shutdown] up to its [await]: [if self.stats_task:
    self.stop_stats_event.set()].  The result is the task the caller then
    waits for, if any. *)
Definition shutdown_signal : M (option nat) :=
  λ s, match stats_task s with
       | Some i =>
           match stop_stats_event s with
           | Some _ => (Ok (Some i), set_stop_stats_event (Some true) s)
           | None => (Raise (AttributeError "set"), s)
           end
       | None => (Ok None, s)
       end.

(** [await asyncio.gather(task)] returns once the task is over, with its
    outcome; [None] while the caller is still waiting. *)
Definition gathered (i : nat) (s : state W) : option (res unit) :=
  match tasks s !! i with
  | Some (StatsDone r) => Some r
  | Some (ConfigDone _ r) => Some r
  | _ => None
  end.

(** ** The instrumented server as a transition system *)

(** A run of the instrumented server is a sequence of actions: calls of
    the hooks the layer installed, time passing, and the scheduler
    running a background task.  A server operation that calls back into
    the layer (the dispatch of a connect on the admin namespace runs the
    registered [admin_connect]; a handler that broadcasts runs [_emit])
    appears in the sequence as the actions it runs. *)
Inductive action : Type :=
| AdminConnect (sid : string) (env : environ) (client_auth : cred)
| EioConnect (eio_sid : string) (env : environ)
| EioDisconnect (eio_sid : string) (reason : pyval)
| TriggerEvent (event namespace sid : string) (rest : list pyval)
| EnterRoom (sid namespace : string) (room eio_sid : option string)
| LeaveRoom (sid namespace : string) (room : option string)
| Emit (event : string) (data : pyval) (namespace : string)
       (room : option string) (skip_sid : skip) (callback : pyval)
| HttpResponse (packets headers jsonp_index : pyval)
| PostRequest (socket : string) (env : environ)
| Tick
| RunTask (i : nat).

(** [instrument] replaces the dispatch, the room membership operations
    and the broadcast by their wrappers in development mode only; in any
    other mode the server keeps calling the original. *)
Definition instrumented {A} (wrapper original : M A) : M A :=
  λ s, if decide (mode (cfg s) = "development") then wrapper s else original s.

(** The state after an action; its result goes to the caller. *)
Definition exec (a : action) (s : state W) : state W :=
  match a with
  | AdminConnect sid env client_auth => (admin_connect sid env client_auth s).2
  | EioConnect eio_sid env => (_handle_eio_connect eio_sid env s).2
  | EioDisconnect eio_sid reason => (_handle_eio_disconnect eio_sid reason s).2
  | TriggerEvent event namespace sid rest =>
      (instrumented (_trigger_event event namespace sid rest)
                    (call (sio_trigger_event event namespace sid rest)) s).2
  | EnterRoom sid namespace room eio_sid =>
      (instrumented (_basic_enter_room sid namespace room eio_sid)
                    (call (manager_basic_enter_room sid namespace room eio_sid))
                    s).2
  | LeaveRoom sid namespace room =>
      (instrumented (_basic_leave_room sid namespace room)
                    (call (manager_basic_leave_room sid namespace room)) s).2
  | Emit event data namespace room skip_sid callback =>
      (instrumented (_emit event data namespace room skip_sid callback)
                    (call (manager_emit event data namespace room skip_sid
                                        callback)) s).2
  | HttpResponse packets headers jsonp_index =>
      (_eio_http_response packets headers jsonp_index s).2
  | PostRequest socket env => (_eio_handle_post_request socket env s).2
  | Tick => tick s
  | RunTask i => run_task i s
  end.

Definition exec_all (l : list action) (s : state W) : state W :=
  foldl (λ s a, exec a s) s l.

(** ** Observations *)

(** A stats task that has been started and is not over. *)
Definition stats_running (t : task) : bool :=
  match t with
  | StatsCreated | StatsSleeping _ _ _ => true
  | _ => false
  end.

Definition running_stats_tasks (s : state W) : nat :=
  length (filter (λ t, stats_running t = true) (tasks s)).

(** The number of messages of a given name in a list of messages. *)
Definition count_event (event : string) (l : list message) : nat :=
  length (filter (λ m, msg_event m = event) l).

(** The value of a counter of the aggregation buffer (zero when absent). *)
Definition counter (name : string) (s : state W) : Z :=
  default 0%Z (event_buffer s !! name).

(** The admin message a queue entry becomes when it is drained. *)
Definition queued_message (s : state W) (entry : string * payload) : message :=
  {| msg_event := entry.1; msg_data := entry.2; msg_to := None;
     msg_namespace := admin_namespace (cfg s) |}.

(** The [event_sent] notification for one recipient. *)
Definition event_sent_message (s : state W) (event : string) (data : pyval)
  (namespace sid : string) : message :=
  {| msg_event := "event_sent";
     msg_data := PEvent namespace sid (event_data_of event data)
                        (isoformat (clock s));
     msg_to := None;
     msg_namespace := admin_namespace (cfg s) |}.

(** The room-leave wrapper as the specification words it (section 4.3,
    "after delegating to the underlying membership mutation ... appends"):
    the mirror image of [_basic_enter_room].  It is compared with
    [_basic_leave_room], which is the source. *)
Definition leave_room_delegate_first (sid namespace : string)
  (room : option string) : M pyval :=
  let! r := call (manager_basic_leave_room sid namespace room) in
  do! match room_truthy room with
      | Some rm =>
          let! iso := now_iso in
          queue_append ("room_left", PRoom namespace rm sid iso)
      | None => ret ()
      end in
  ret r.

(** The entry a membership change queues, none for an empty room. *)
Definition room_entries (event : string) (sid namespace : string)
  (room : option string) (s : state W) : list (string * payload) :=
  match room_truthy room with
  | Some rm => [(event, PRoom namespace rm sid (isoformat (clock s)))]
  | None => []
  end.

(** [n] time units pass. *)
Definition ticks (n : nat) (s : state W) : state W := Nat.iter n tick s.

(** One period of stats task [i] left alone: its sleep elapses, then it runs. *)
Definition period (i : nat) (s : state W) : state W :=
  run_task i (ticks (server_stats_interval (cfg s)) s).

(** The [server_stats] message carrying [st]. *)
Definition stats_message (s : state W) (st : stats) : message :=
  {| msg_event := "server_stats"; msg_data := PStats st; msg_to := None;
     msg_namespace := admin_namespace (cfg s) |}.

(** ** Footprints

    What an operation may change besides the wrapped server, the
    timestamps and the counters: it appends messages satisfying [P] to the
    outbox and room entries to the queue, and leaves the configuration, the
    tasks, the stop event and the clock alone. *)

Definition room_entry (entry : string * payload) : Prop :=
  entry.1 = "room_joined" ∨ entry.1 = "room_left".

Definition footprint (P : message → Prop) (s s' : state W) : Prop :=
  cfg s' = cfg s
  ∧ tasks s' = tasks s
  ∧ stop_stats_event s' = stop_stats_event s
  ∧ stats_task s' = stats_task s
  ∧ clock s' = clock s
  ∧ (∃ l, outbox s' = outbox s ++ l ∧ Forall P l)
  ∧ (∃ q, admin_queue s' = admin_queue s ++ q ∧ Forall room_entry q).

Definition effect (P : message → Prop) {A} (c : M A) : Prop :=
  ∀ s, footprint P s (c s).2.

(** The names of the notifications the interceptors publish at once. *)
Definition notification (m : message) : Prop :=
  msg_event m = "socket_connected" ∨ msg_event m = "socket_disconnected"
  ∨ msg_event m = "event_received" ∨ msg_event m = "event_sent".

(** The messages of the config task of connection [sid]. *)
Definition config_message (sid : string) (m : message) : Prop :=
  (msg_event m = "config" ∧ msg_to m = Some sid) ∨ msg_event m = "all_sockets".

(** A task that is over. *)
Definition task_over (t : task) : Prop :=
  match t with
  | StatsDone _ | ConfigDone _ _ => True
  | _ => False
  end.

(** ** Who may receive a config message *)

(** Connection [sid] made an attempt with exactly the credentials [d]. *)
Definition accepted_by (d : gmap string string) (trace : list action)
  (sid : string) : Prop :=
  ∃ env, AdminConnect sid env (CredDict d) ∈ trace.

(** After [trace]: every config message already published, and every
    config task still pending, belongs to such a connection. *)
Definition config_invariant (d : gmap string string) (trace : list action)
  (s : state W) : Prop :=
  auth (cfg s) = AuthDict d
  ∧ Forall (λ m, msg_event m = "config" →
                 ∃ sid, msg_to m = Some sid ∧ accepted_by d trace sid)
           (outbox s)
  ∧ Forall (λ t, ∀ sid, t = ConfigSleeping sid → accepted_by d trace sid)
           (tasks s)
  ∧ Forall room_entry (admin_queue s).

(** ** Stopping the publisher *)

(** An action other than an admin connection. *)
Definition not_admin_connect (a : action) : Prop :=
  match a with
  | AdminConnect _ _ _ => False
  | _ => True
  end.

(** Task [i] is the only stats task under way. *)
Definition lone_stats_task (i : nat) (s : state W) : Prop :=
  ∀ j t, tasks s !! j = Some t → stats_running t = true → j = i.

(** The stop signal was set at time [since], when stats task [i] had [k]
    time units of its sleep left and [published] server_stats messages
    had been published: the signal is still set, and either the task is
    still in that sleep and has published nothing since, or it has ended
    normally, not before the sleep was over, and exactly one more
    server_stats message has been published. *)
Definition stopping (i k : nat) (start_time : Z) (namespaces : list string)
  (published : nat) (since : Z) (s : state W) : Prop :=
  stop_stats_event s = Some true
  ∧ stats_task s = Some i
  ∧ Forall room_entry (admin_queue s)
  ∧ lone_stats_task i s
  ∧ ((∃ k', tasks s !! i = Some (StatsSleeping k' start_time namespaces)
            ∧ (since + Z.of_nat k ≤ clock s + Z.of_nat k')%Z
            ∧ count_event "server_stats" (outbox s) = published)
     ∨ (tasks s !! i = Some (StatsDone (Ok ()))
        ∧ (since + Z.of_nat k ≤ clock s)%Z
        ∧ count_event "server_stats" (outbox s) = S published)).
End Layer.

(** Strings made of visible ASCII characters other than the underscore.
    On these, [py_int] fails exactly when Python's [int] raises: blanks,
    underscores and digits outside ASCII are what [py_int] leaves out. *)
Fixpoint plain_text (s : string) : bool :=
  match s with
  | EmptyString => true
  | String c s' =>
      let n := nat_of_ascii c in
      (33 <=? n)%nat && (n <=? 126)%nat && negb (n =? 95)%nat && plain_text s'
  end.

(** Every connection of every namespace, as the config task visits them:
    (namespace, (sid, eio_sid)). *)
Definition all_participants {W : Type} `{!Server W} (w : W)
  : list (string * (string * string)) :=
  flat_map (λ nsp, (λ p, (nsp, p)) <$> manager_get_participants nsp None w)
           (manager_get_namespaces w).

(** The [config] message for connection [sid]. *)
Definition config_message_for {W : Type} (s : state W) (sid : string)
  : message :=
  {| msg_event := "config";
     msg_data := PConfig (supported_features (cfg s));
     msg_to := Some sid;
     msg_namespace := admin_namespace (cfg s) |}.

(** ** The persistent-socket path and the ping hook *)

(** A websocket message, text or binary.  A string stands for its sequence
    of characters, so [ws_len] is [len(data)] in both cases. *)
Inductive ws_data : Type :=
| WsText (s : string)
| WsBytes (b : list Byte.byte).

Definition ws_len (d : ws_data) : nat :=
  match d with
  | WsText s => String.length s
  | WsBytes b => length b
  end.

(** [len(ret or '')] *)
Definition ws_len_or_empty (ret : option ws_data) : nat :=
  match ret with
  | Some d => ws_len d
  | None => 0
  end.

(** What the persistent-socket wrappers and the ping hook call on the
    objects they instrument: the saved [ws.send] and [ws.wait] of the
    websocket, the saved [_send_ping] of a transport socket, and the
    manager's reverse identity lookup. *)
Class Transport (W : Type) : Type := {
  (* ws.__send(data) *)
  ws_send : ws_data → W → res pyval * W;
  (* ws.__wait() *)
  ws_wait : W → res (option ws_data) * W;
  (* socket.__send_ping(), socket identified by its sid *)
  socket_send_ping : string → W → res pyval * W;
  (* self.sio.manager.sid_from_eio_sid(eio_sid, namespace) *)
  manager_sid_from_eio_sid : string → string → W → option string;
}.

(** The original [AsyncSocket._websocket_handler(ws)] as the layer sees it:
    code that sends on [ws], waits on [ws], works on the server in between
    and returns or raises.  A failed send or wait is handed to the
    handler, which decides how to go on. *)
Inductive ws_handler (W : Type) : Type :=
| WsReturn (r : res pyval)
| WsSend (data : ws_data) (k : res pyval → ws_handler W)
| WsWait (k : res (option ws_data) → ws_handler W)
| WsLocal (f : W → W) (k : W → ws_handler W).
Arguments WsReturn {W} r.
Arguments WsSend {W} data k.
Arguments WsWait {W} k.
Arguments WsLocal {W} f k.

(** Packets and bytes a run of the handler moves. *)
Record traffic : Type := {
  tr_packets_out : Z;
  tr_bytes_out : Z;
  tr_packets_in : Z;
  tr_bytes_in : Z;
}.

Definition no_traffic : traffic :=
  {| tr_packets_out := 0; tr_bytes_out := 0;
     tr_packets_in := 0; tr_bytes_in := 0 |}.

Definition add_sent (n : nat) (t : traffic) : traffic :=
  {| tr_packets_out := tr_packets_out t + 1;
     tr_bytes_out := tr_bytes_out t + Z.of_nat n;
     tr_packets_in := tr_packets_in t; tr_bytes_in := tr_bytes_in t |}.

Definition add_received (n : nat) (t : traffic) : traffic :=
  {| tr_packets_out := tr_packets_out t; tr_bytes_out := tr_bytes_out t;
     tr_packets_in := tr_packets_in t + 1;
     tr_bytes_in := tr_bytes_in t + Z.of_nat n |}.

(** What a run adds to the counter [name] of the aggregation buffer. *)
Definition traffic_counter (name : string) (t : traffic) : Z :=
  if decide (name = "packetsOut") then tr_packets_out t
  else if decide (name = "bytesOut") then tr_bytes_out t
  else if decide (name = "packetsIn") then tr_packets_in t
  else if decide (name = "bytesIn") then tr_bytes_in t
  else 0.

(** What the ping hook publishes for one connection: a [socket_connected]
    message for identity [target.2] in namespace [target.1], on transport
    socket [eio_sid], stamped [iso]. *)
Definition ping_message (eio_sid iso : string) (m : message)
  (target : string * string) : Prop :=
  msg_event m = "socket_connected"
  ∧ msg_to m = None
  ∧ ∃ snap,
      msg_data m = PSocketConnected snap iso
      ∧ ss_id snap = target.2
      ∧ ss_nsp snap = target.1
      ∧ ss_clientId snap = eio_sid.

Section Persistent.
Context {W : Type} `{!Server W} `{!Transport W}.

(** The handler on the websocket as it is, without the layer: its result
    and the server it leaves. *)
Fixpoint run_handler (h : ws_handler W) (w : W) : res pyval * W :=
  match h with
  | WsReturn r => (r, w)
  | WsSend data k => let '(r, w') := ws_send data w in run_handler (k r) w'
  | WsWait k => let '(r, w') := ws_wait w in run_handler (k r) w'
  | WsLocal f k => run_handler (k w) (f w)
  end.

(** What that run sends and receives: every send the handler makes, and
    every wait that returns. *)
Fixpoint handler_traffic (h : ws_handler W) (w : W) : traffic :=
  match h with
  | WsReturn _ => no_traffic
  | WsSend data k =>
      let '(r, w') := ws_send data w in
      add_sent (ws_len data) (handler_traffic (k r) w')
  | WsWait k =>
      let '(r, w') := ws_wait w in
      match r with
      | Ok ret => add_received (ws_len_or_empty ret) (handler_traffic (k r) w')
      | Raise _ => handler_traffic (k r) w'
      end
  | WsLocal f k => handler_traffic (k w) (f w)
  end.

(** The nested coroutine [_send(ws, data)] that replaces [ws.send]. *)
Definition _send (data : ws_data) : M pyval :=
  bind (push "packetsOut" 1) (λ _,
  bind (push "bytesOut" (Z.of_nat (ws_len data))) (λ _,
  call (ws_send data))).

(** The nested coroutine [_wait(ws)] that replaces [ws.wait]. *)
Definition _wait : M (option ws_data) :=
  bind (call ws_wait) (λ r,
  bind (push "packetsIn" 1) (λ _,
  bind (push "bytesIn" (Z.of_nat (ws_len_or_empty r))) (λ _,
  ret r))).

(** [_eio_websocket_handler(socket, self, ws)]: the original handler run
    on the websocket whose [send] and [wait] are the two wrappers. *)
Fixpoint _eio_websocket_handler (h : ws_handler W) (s : state W)
  : res pyval * state W :=
  match h with
  | WsReturn r => (r, s)
  | WsSend data k =>
      let '(r, s') := _send data s in _eio_websocket_handler (k r) s'
  | WsWait k =>
      let '(r, s') := _wait s in _eio_websocket_handler (k r) s'
  | WsLocal f k => _eio_websocket_handler (k (sio s)) (set_sio (f (sio s)) s)
  end.

(** Truth value of what [sid_from_eio_sid] returns. *)
Definition sid_truthy (sid : option string) : option string :=
  match sid with
  | Some x => if decide (x = EmptyString) then None else Some x
  | None => None
  end.

(** [_eio_send_ping(socket, self)], for the transport socket [eio_sid]. *)
Definition _eio_send_ping (eio_sid : string) : M pyval :=
  bind time_time (λ t,
  bind (query manager_get_namespaces) (λ nss,
  bind (for_each nss
          (λ namespace,
             bind (query (manager_sid_from_eio_sid eio_sid namespace)) (λ sid,
             match sid_truthy sid with
             | Some sid =>
                 bind (serialize_socket sid namespace (Some eio_sid))
                   (λ serialized_socket,
                      sio_emit "socket_connected"
                        (PSocketConnected serialized_socket (isoformat t)) None)
             | None => ret ()
             end))) (λ _,
  call (socket_send_ping eio_sid)))).

(** The namespaces in which transport socket [eio_sid] has a connection,
    with the identity it has there, in the manager's order. *)
Definition ping_targets (eio_sid : string) (w : W) : list (string * string) :=
  omap (λ namespace,
          (λ sid, (namespace, sid))
            <$> sid_truthy (manager_sid_from_eio_sid eio_sid namespace w))
       (manager_get_namespaces w).
End Persistent.

(** The recorded stats task can be stopped: the stop event exists and the
    task is a stats task that is under way or has ended normally. *)
Definition stoppable {W : Type} (s : state W) : Prop :=
  match stats_task s with
  | None => True
  | Some i =>
      stop_stats_event s ≠ None
      ∧ ∃ t, tasks s !! i = Some t
             ∧ (stats_running t = true ∨ t = StatsDone (Ok ()))
  end.

(** ** A small concrete server

    Used to run the layer on explicit inputs.  Its original operations log
    the events they dispatch and fail on demand. *)

Record toy : Type := {
  toy_participants : list (string * string);
  toy_sockets : gmap string eio_socket;
  toy_body : list Byte.byte;        (* what the response builder returns *)
  toy_failing : bool;               (* the original operations raise *)
  toy_dispatched : list string;     (* events seen by the original dispatch *)
}.

Definition toy_call (w : toy) : res pyval * toy :=
  if toy_failing w then (Raise (OtherError "underlying operation failed"), w)
  else (Ok PNone, w).

#[global] Instance toy_server : Server toy := {|
  sio_trigger_event event namespace sid rest w :=
    let w' := {| toy_participants := toy_participants w;
                 toy_sockets := toy_sockets w;
                 toy_body := toy_body w;
                 toy_failing := toy_failing w;
                 toy_dispatched := toy_dispatched w ++ [event] |} in
    if toy_failing w then (Raise (OtherError "handler failed"), w')
    else (Ok (PStr event), w');
  manager_basic_enter_room _ _ _ _ w := toy_call w;
  manager_basic_leave_room _ _ _ w := toy_call w;
  manager_emit _ _ _ _ _ _ w := toy_call w;
  sio_handle_eio_connect _ _ w := toy_call w;
  sio_handle_eio_disconnect _ _ w := toy_call w;
  eio_ok _ _ _ w :=
    if toy_failing w then (Raise (OtherError "underlying operation failed"), w)
    else (Ok {| status := "200 OK"; response := toy_body w |}, w);
  socket_handle_post_request _ _ w := toy_call w;
  manager_get_participants _ _ w := toy_participants w;
  manager_get_namespaces _ := ["/"];
  manager_eio_sid_from_sid sid _ w :=
    match list_find (λ p, p.1 = sid) (toy_participants w) with
    | Some (_, p) => Ok p.2
    | None => Raise (KeyError sid)
    end;
  manager_get_rooms _ _ _ := [];
  manager_namespace_size _ w := length (toy_participants w);
  manager_host_id _ := None;
  eio_get_socket eio_sid w :=
    match toy_sockets w !! eio_sid with
    | Some sk => Ok sk
    | None => Raise (KeyError "Session not found")
    end;
  eio_sockets w := toy_sockets w;
  sio_environ _ := ∅;
  sio_handlers _ := ["/"];
  HOSTNAME := "host";
  PID := 1;
  isoformat t := "T";
  parse_qs _ := ∅;
|}.

(** One client [c1] on transport socket [e1]. *)
Definition toy_world (failing : bool) : toy :=
  {| toy_participants := [("c1", "e1")];
     toy_sockets := {[ "e1" := {| upgraded := false |} ]};
     toy_body := repeat Byte.x00 100;
     toy_failing := failing;
     toy_dispatched := [] |}.

Definition toy_config (a : auth_config) : config :=
  {| auth := a; admin_namespace := "/admin"; read_only := false;
     server_id_arg := None; mode := "development";
     server_stats_interval := 2 |}.

(** The state [init] builds on the small server. *)
Definition toy_state (a : auth_config) (failing : bool) : state toy :=
  {| sio := toy_world failing; cfg := toy_config a; server_id := "host";
     registered := instrument_handlers (toy_config a);
     timestamps := ∅; admin_queue := []; event_buffer := EventBuffer.empty;
     stop_stats_event := None; stats_task := None;
     tasks := []; outbox := []; clock := 0 |}.

Definition admin_credentials : gmap string string :=
  {[ "username" := "admin"; "password" := "secret" ]}.

(** States of the small server reached by short runs. *)

(** A transport connection, then the stats task runs and goes to sleep. *)
Definition toy_sleeping : state toy :=
  exec_all [EioConnect "e1" []; RunTask 0] (toy_state AuthFalse false).

(** The same, then a room is joined and left and the sleep elapses. *)
Definition toy_queued : state toy :=
  exec_all [EnterRoom "c1" "/chat" (Some "general") (Some "e1");
            LeaveRoom "c1" "/chat" (Some "general"); Tick; Tick]
           toy_sleeping.

(** The stop signal set while the task sleeps, and the task run to its end. *)
Definition toy_stopped : state toy :=
  exec_all [Tick; Tick; RunTask 0] (set_stop_stats_event (Some true) toy_sleeping).

(** Client [c1] connected and disconnected once. *)
Definition toy_disconnected : state toy :=
  exec_all [TriggerEvent "connect" "/" "c1" [];
            TriggerEvent "disconnect" "/" "c1" [PStr "transport close"]]
           (toy_state AuthFalse false).

(** One rejected and one accepted admin attempt, and the config task run. *)
Definition toy_admin_trace : list action :=
  [AdminConnect "a1" [] (CredStr "guess");
   AdminConnect "a2" [] (CredDict admin_credentials);
   RunTask 0].

(** The config message the accepted attempt of [toy_admin_trace] gets. *)
Definition toy_config_message : message :=
  {| msg_event := "config";
     msg_data :=
       PConfig (supported_features (toy_config (AuthDict admin_credentials)));
     msg_to := Some "a2";
     msg_namespace := "/admin" |}.

#[global] Instance toy_transport : Transport toy := {|
  ws_send _ w := toy_call w;
  ws_wait w :=
    if toy_failing w then (Raise (OtherError "connection closed"), w)
    else (Ok (Some (WsText "2probe")), w);
  socket_send_ping _ w := toy_call w;
  manager_sid_from_eio_sid eio_sid _ w :=
    (λ p, p.2.1) <$> list_find (λ p, p.2 = eio_sid) (toy_participants w);
|}.

(** A handler that waits for a message, answers it and waits again. *)
Definition toy_handler : ws_handler toy :=
  WsWait (λ _, WsSend (WsText "3probe") (λ _, WsWait (λ _, WsReturn (Ok PNone)))).

(** Three time units pass and client [c1] connects. *)
Definition toy_connected : state toy :=
  exec_all [Tick; Tick; Tick; TriggerEvent "connect" "/" "c1" []]
           (toy_state AuthFalse false).

(** Client [c1] is still a participant but its transport socket is gone. *)
Definition toy_orphan : state toy :=
  set_sio {| toy_participants := [("c1", "e1")];
             toy_sockets := ∅;
             toy_body := [];
             toy_failing := false;
             toy_dispatched := [] |}
          (toy_state AuthFalse false).

(** The layer in production mode. *)
Definition toy_production_config : config :=
  {| auth := AuthFalse; admin_namespace := "/admin"; read_only := false;
     server_id_arg := None; mode := "production";
     server_stats_interval := 2 |}.

Definition toy_production : state toy :=
  {| sio := toy_world false; cfg := toy_production_config;
     server_id := "host";
     registered := instrument_handlers toy_production_config;
     timestamps := ∅; admin_queue := []; event_buffer := EventBuffer.empty;
     stop_stats_event := None; stats_task := None;
     tasks := []; outbox := []; clock := 0 |}.

(** A transport connection has started the stats task, which has not run. *)
Definition toy_created : state toy :=
  exec_all [EioConnect "e1" []] (toy_state AuthFalse false).

(** An authenticator that accepts one token. *)
Definition token_only (c : cred) : bool := bool_decide (c = CredStr "token").

(** What the server does while the caller of shutdown waits: an event, a
    second transport connection, time passing and the stats task being
    run when its sleep is over and once more. *)
Definition toy_busy : list action :=
  [TriggerEvent "chat" "/" "c1" []; Tick; EioConnect "e2" []; Tick;
   RunTask 0; Tick; RunTask 0].

(** * Properties *)

(** ** The aggregation buffer *)

Section BufferFacts.
Import EventBuffer.

Lemma total_empty : total ∅ = 0%Z.
Proof. unfold total. by rewrite map_fold_empty. Qed.

Lemma total_insert_fresh (k : string) (v : Z) (m : gmap string Z) :
  m !! k = None → total (<[k := v]> m) = (v + total m)%Z.
Proof.
  intros Hk. unfold total.
  rewrite map_fold_insert_L; [done | intros; lia | done].
Qed.

Lemma total_insert (k : string) (v : Z) (m : gmap string Z) :
  total (<[k := v]> m) = (total m - default 0 (m !! k) + v)%Z.
Proof.
  destruct (m !! k) as [old|] eqn:Hk; simpl.
  - rewrite <- (insert_delete_eq m k v).
    rewrite total_insert_fresh by apply lookup_delete_eq.
    rewrite <- (insert_delete_id m k old Hk) at 2.
    rewrite total_insert_fresh by apply lookup_delete_eq. lia.
  - rewrite total_insert_fresh by done. lia.
Qed.

Lemma total_push (k : string) (a : Z) (b : gmap string Z) :
  total (push k a b) = (total b + a)%Z.
Proof. unfold push. rewrite total_insert. lia. Qed.

Lemma cleared_lookup (b : gmap string Z) (k : string) (v : Z) :
  (get_and_clear b).2 !! k = Some v → v = 0%Z.
Proof.
  unfold get_and_clear; simpl. rewrite lookup_fmap.
  destruct (b !! k); simpl; congruence.
Qed.

Lemma total_zero (m : gmap string Z) :
  map_Forall (λ _ v, v = 0%Z) m → total m = 0%Z.
Proof.
  induction m as [|k v m Hk _ IH] using map_first_key_ind.
  - intros _. apply total_empty.
  - intros Hall. rewrite total_insert_fresh by done.
    apply map_Forall_insert in Hall as [-> Hm]; [|done].
    rewrite IH by done. lia.
Qed.

Lemma total_cleared (b : gmap string Z) : total (get_and_clear b).2 = 0%Z.
Proof.
  apply total_zero. intros k v Hkv. by apply cleared_lookup in Hkv.
Qed.

(** Whatever was in the buffer or is pushed ends up read or is still in
    the buffer. *)
Lemma run_conserves (ops : list op) (b : gmap string Z) :
  (sum_read (run ops b).1 + total (run ops b).2 = total b + sum_pushed ops)%Z.
Proof.
  revert b. induction ops as [|[name amount|] ops IH]; intros b; simpl.
  - lia.
  - rewrite IH, total_push. lia.
  - specialize (IH ((λ _, 0%Z) <$> b)).
    destruct (run ops ((λ _, 0%Z) <$> b)) as [rs b''] eqn:Hrun; simpl in *.
    pose proof (total_cleared b) as Hz. simpl in Hz. lia.
Qed.

Lemma run_app (ops1 ops2 : list op) (b : gmap string Z) :
  run (ops1 ++ ops2) b =
    ((run ops1 b).1 ++ (run ops2 (run ops1 b).2).1,
     (run ops2 (run ops1 b).2).2).
Proof.
  revert b. induction ops1 as [|[name amount|] ops1 IH]; intros b; simpl.
  - by destruct (run ops2 b).
  - apply IH.
  - rewrite IH. by destruct (run ops1 _).
Qed.

Lemma sum_read_app (r1 r2 : list (gmap string Z)) :
  sum_read (r1 ++ r2) = (sum_read r1 + sum_read r2)%Z.
Proof. induction r1 as [|r r1 IH]; simpl; [done | rewrite IH; lia]. Qed.

(** C8. Aggregation buffer, for every sequence of pushes interleaved with
    get-and-clear run on a fresh buffer: the values returned by the
    get-and-clear operations and the values still held add up to the
    amounts pushed (no push lost, none read twice); once the sequence is
    closed by a get-and-clear the sum of all values read equals the sum
    of all amounts pushed; and a get-and-clear that immediately follows
    another one returns a mapping with the same counters, all zero. *)
Theorem EventBuffer_conservation :
  (∀ ops : list op,
     (sum_read (run ops empty).1 + total (run ops empty).2
      = sum_pushed ops)%Z)
  ∧ (∀ ops : list op,
       sum_read (run (ops ++ [GetAndClear]) empty).1 = sum_pushed ops)
  ∧ (∀ b : gmap string Z,
       let second := (get_and_clear (get_and_clear b).2).1 in
       map_Forall (λ _ v, v = 0%Z) second
       ∧ total second = 0%Z
       ∧ dom second = dom b).
Proof.
  split; [|split].
  - intros ops. rewrite run_conserves. unfold empty. rewrite total_empty. lia.
  - intros ops. rewrite run_app. cbn [fst snd run get_and_clear].
    rewrite sum_read_app. cbn [sum_read foldr].
    pose proof (run_conserves ops empty) as H.
    unfold empty in H at 3. rewrite total_empty in H. lia.
  - intros b. cbn. split; [|split].
    + intros k v Hkv. apply (cleared_lookup b k v). exact Hkv.
    + apply (total_cleared b).
    + apply dom_fmap_L.
Qed.
End BufferFacts.

(** ** The layer *)

Section LayerFacts.
Context {W : Type} `{!Server W}.

Ltac munfold :=
  unfold bind, ret, raise, call, query, try_query, push, queue_append,
    sio_emit, now_iso, time_time, start_background_task in *.

Lemma counter_push_same (name : string) (amount : Z) (s : state W) :
  counter name (set_event_buffer (EventBuffer.push name amount (event_buffer s)) s)
  = (counter name s + amount)%Z.
Proof.
  unfold counter, EventBuffer.push; simpl. by rewrite lookup_insert_eq.
Qed.

Lemma counter_push_other (name other : string) (amount : Z) (s : state W) :
  other ≠ name →
  counter name (set_event_buffer (EventBuffer.push other amount (event_buffer s)) s)
  = counter name s.
Proof.
  intros Hne. unfold counter, EventBuffer.push; simpl.
  by rewrite lookup_insert_ne.
Qed.

Lemma counter_set_sio (name : string) (w : W) (s : state W) :
  counter name (set_sio w s) = counter name s.
Proof. done. Qed.

(** C9. Transport traffic interceptor: a response produced by the
    underlying builder is followed by exactly one push of packets-out (by
    one) and one push of bytes-out by the length of the response body, so
    packets-out grows by one and bytes-out by that length; an inbound
    request handled by the underlying socket is followed by one push of
    packets-in and one push of bytes-in by the declared content length,
    zero when the environment has no content length.  No other counter
    moves and the underlying result is returned. *)
Theorem transport_counters :
  (∀ (packets headers jsonp_index : pyval) (s : state W)
     (r : http_response) (w' : W),
     eio_ok packets headers jsonp_index (sio s) = (Ok r, w') →
     let out := _eio_http_response packets headers jsonp_index s in
     out.1 = Ok r
     ∧ sio out.2 = w'
     ∧ event_buffer out.2
       = EventBuffer.push "bytesOut" (Z.of_nat (length (response r)))
           (EventBuffer.push "packetsOut" 1 (event_buffer s))
     ∧ counter "packetsOut" out.2 = (counter "packetsOut" s + 1)%Z
     ∧ counter "bytesOut" out.2
       = (counter "bytesOut" s + Z.of_nat (length (response r)))%Z
     ∧ (∀ name, name ≠ "packetsOut" → name ≠ "bytesOut" →
                counter name out.2 = counter name s))
  ∧ (∀ (socket : string) (env : environ) (s : state W) (r : pyval) (w' : W)
       (n : Z),
       socket_handle_post_request socket env (sio s) = (Ok r, w') →
       (env_lookup env "CONTENT_LENGTH" = None ∧ n = 0%Z)
       ∨ (∃ v, env_lookup env "CONTENT_LENGTH" = Some v ∧ py_int v = Some n) →
       let out := _eio_handle_post_request socket env s in
       out.1 = Ok r
       ∧ sio out.2 = w'
       ∧ event_buffer out.2
         = EventBuffer.push "bytesIn" n
             (EventBuffer.push "packetsIn" 1 (event_buffer s))
       ∧ counter "packetsIn" out.2 = (counter "packetsIn" s + 1)%Z
       ∧ counter "bytesIn" out.2 = (counter "bytesIn" s + n)%Z
       ∧ (∀ name, name ≠ "packetsIn" → name ≠ "bytesIn" →
                  counter name out.2 = counter name s)).
Proof.
  split.
  - intros packets headers jsonp_index s r w' Hok out. subst out.
    unfold _eio_http_response. munfold. rewrite Hok. cbn [fst snd].
    repeat split.
    + rewrite counter_push_other by done. by rewrite counter_push_same.
    + by rewrite counter_push_same, counter_push_other.
    + intros name H1 H2. by rewrite !counter_push_other.
  - intros socket env s r w' n Hok Hlen out. subst out.
    unfold _eio_handle_post_request, content_length. munfold.
    rewrite Hok. cbn [fst snd].
    assert (match env_lookup env "CONTENT_LENGTH" with
            | Some v => py_int v
            | None => Some 0%Z
            end = Some n) as Hn.
    { destruct Hlen as [[-> ->]|(v & -> & Hv)]; done. }
    destruct (env_lookup env "CONTENT_LENGTH") as [v|];
      [rewrite Hn|injection Hn as <-]; cbn [fst snd]; repeat split.
    + rewrite counter_push_other by done. by rewrite counter_push_same.
    + by rewrite counter_push_same, counter_push_other.
    + intros name H1 H2. by rewrite !counter_push_other.
    + rewrite counter_push_other by done. by rewrite counter_push_same.
    + by rewrite counter_push_same, counter_push_other.
    + intros name H1 H2. by rewrite !counter_push_other.
Qed.

(** *** Emit *)

Lemma set_outbox_id (s : state W) : set_outbox (outbox s) s = s.
Proof. by destruct s. Qed.

Lemma for_each_event_sent (ps : list (string * string))
  (sk : list (option string)) (event : string) (data : pyval)
  (namespace : string) (s : state W) :
  for_each ps
    (λ p, if decide (Some p.1 ∉ sk) then
            bind now_iso (λ iso,
              sio_emit "event_sent"
                (PEvent namespace p.1 (event_data_of event data) iso) None)
          else ret ()) s
  = (Ok (),
     set_outbox
       (outbox s ++
          (event_sent_message s event data namespace
             <$> (filter (λ p, Some p.1 ∉ sk) ps).*1))
       s).
Proof.
  revert s. induction ps as [|p ps IH]; intros s.
  - cbn. by rewrite app_nil_r, set_outbox_id.
  - cbn [for_each]. unfold bind at 1.
    rewrite filter_cons. destruct (decide (Some p.1 ∉ sk)) as [Hin|Hin].
    + munfold. rewrite IH. cbn. by rewrite <- app_assoc.
    + munfold. by rewrite IH.
Qed.

(** C7. Namespace-wide emit: the interceptor delegates to the underlying
    broadcast; when that returns and the namespace is not the admin
    namespace it then publishes exactly one event_sent notification for
    each participant whose identifier is not in the exclusion list, in
    order, carrying (namespace, recipient, [event, ...arguments],
    timestamp), and returns the underlying result; on the admin namespace
    it publishes nothing; an exception of the underlying broadcast
    propagates with nothing published.  The arguments are the elements of
    the payload when it is a tuple and the payload itself, as the single
    argument, when it is anything else (a list included).  A single
    excluded identifier is normalized to a one-element list before the
    membership test. *)
Theorem emit_publishes_event_sent :
  (∀ (event : string) (data : pyval) (namespace : string)
     (room : option string) (skip_sid : skip) (callback : pyval)
     (s : state W),
     match manager_emit event data namespace room skip_sid callback (sio s) with
     | (Ok r, w') =>
         _emit event data namespace room skip_sid callback s
         = (Ok r,
            set_outbox
              (outbox s ++
                 if decide (namespace ≠ admin_namespace (cfg s)) then
                   (λ sid,
                      {| msg_event := "event_sent";
                         msg_data :=
                           PEvent namespace sid
                             (PStr event
                              :: match data with
                                 | PTuple args => args
                                 | _ => [data]
                                 end)
                             (isoformat (clock s));
                         msg_to := None;
                         msg_namespace := admin_namespace (cfg s) |})
                     <$> (filter (λ p, Some p.1 ∉ normalize_skip skip_sid)
                                 (manager_get_participants namespace room w')).*1
                 else [])
              (set_sio w' s))
     | (Raise e, w') =>
         _emit event data namespace room skip_sid callback s
         = (Raise e, set_sio w' s)
     end)
  ∧ (∀ sid : string, normalize_skip (SkipOne sid) = [Some sid])
  ∧ (∀ (skip_sid : skip) (sid : string),
       Some sid ∈ normalize_skip skip_sid
       ↔ match skip_sid with
         | SkipNone => False
         | SkipOne x => sid = x
         | SkipList l => sid ∈ l
         end)
  ∧ (∀ (event : string) (args : list pyval),
       event_data_of event (PTuple args) = PStr event :: args)
  ∧ (∀ (event : string) (data : pyval),
       (∀ args, data ≠ PTuple args) →
       event_data_of event data = [PStr event; data]).
Proof.
  assert (∀ (s : state W) (event : string) (data : pyval) (namespace : string),
            event_sent_message s event data namespace
            = λ sid,
                {| msg_event := "event_sent";
                   msg_data :=
                     PEvent namespace sid
                       (PStr event
                        :: match data with
                           | PTuple args => args
                           | _ => [data]
                           end)
                       (isoformat (clock s));
                   msg_to := None;
                   msg_namespace := admin_namespace (cfg s) |}) as Hmsg.
  { intros s event data namespace. unfold event_sent_message.
    by destruct data. }
  split; [|split; [|split; [|split]]].
  - intros event data namespace room skip_sid callback s.
    destruct (manager_emit event data namespace room skip_sid callback (sio s))
      as [[r|e] w'] eqn:Hemit.
    + unfold _emit. unfold bind at 1, call. rewrite Hemit.
      unfold bind at 1. cbn [fst snd].
      unfold bind at 1.
      destruct (decide (namespace ≠ admin_namespace (cfg (set_sio w' s))))
        as [Hns|Hns]; cbn [cfg set_sio] in Hns.
      * unfold bind at 1, query. cbn [fst snd sio set_sio].
        rewrite for_each_event_sent. unfold ret.
        destruct (decide (namespace ≠ admin_namespace (cfg s))); [|done].
        by rewrite Hmsg.
      * unfold ret.
        destruct (decide (namespace ≠ admin_namespace (cfg s))); [done|].
        rewrite app_nil_r. change (outbox s) with (outbox (set_sio w' s)).
        by rewrite set_outbox_id.
    + unfold _emit. unfold bind at 1, call. by rewrite Hemit.
  - done.
  - intros [|x|l] sid; cbn.
    + rewrite list_elem_of_singleton. split; [done|tauto].
    + rewrite list_elem_of_singleton. split; [congruence|by intros ->].
    + rewrite list_elem_of_fmap. split.
      * by intros (y & [= ->] & Hy).
      * intros Hin. by exists sid.
  - done.
  - intros event data Hnot. destruct data; try done. by destruct (Hnot l).
Qed.

(** *** The admin channel gatekeeper *)

Lemma admin_connect_accepts (sid : string) (env : environ) (client_auth : cred)
  (s : state W) :
  auth_truthy (auth (cfg s)) = false
  ∨ authenticate (auth (cfg s)) client_auth = Ok true →
  admin_connect sid env client_auth s
  = (Ok (),
     set_stats_task (Some (S (length (tasks s))))
       (set_tasks (tasks s ++ [ConfigSleeping sid; StatsCreated])
          (set_stop_stats_event (Some false) s))).
Proof.
  intros Hacc. unfold admin_connect. unfold bind at 1. cbn [fst snd].
  unfold bind at 1.
  assert ((if auth_truthy (auth (cfg s))
           then bind (λ s0, (authenticate (auth (cfg s)) client_auth, s0))
                  (λ authenticated : bool,
                     if negb authenticated
                     then raise (ConnectionRefusedError "authentication failed")
                     else ret ())
           else ret ()) s = (Ok (), s)) as ->.
  { destruct Hacc as [->|Hacc]; [done|].
    destruct (auth_truthy _); [|done]. unfold bind. by rewrite Hacc. }
  munfold. cbn. rewrite length_app. cbn.
  rewrite <- app_assoc. cbn. by rewrite Nat.add_1_r.
Qed.

Lemma admin_connect_rejects (sid : string) (env : environ) (client_auth : cred)
  (s : state W) :
  auth_truthy (auth (cfg s)) = true →
  authenticate (auth (cfg s)) client_auth = Ok false →
  admin_connect sid env client_auth s
  = (Raise (ConnectionRefusedError "authentication failed"), s).
Proof.
  intros Htrue Hrej. unfold admin_connect. unfold bind at 1. cbn [fst snd].
  unfold bind at 1. rewrite Htrue. unfold bind at 1. by rewrite Hrej.
Qed.

(** C10. Construction rejects only a missing authenticator ([None]); an
    authenticator that is not [None] but false (an empty credentials map,
    an empty allow-list, [False]) passes construction, and with it every
    admin connection attempt is accepted whatever credentials it
    supplies. *)
Theorem falsy_authenticator_disables_authentication :
  (∀ (c : config) (w : W),
     (∃ e, init c w = Raise e) ↔ auth c = AuthNone)
  ∧ (∀ (c : config) (w : W),
       auth c ≠ AuthNone → auth_truthy (auth c) = false →
       ∃ s0, init c w = Ok s0 ∧ cfg s0 = c)
  ∧ (∀ (s : state W) (sid : string) (env : environ) (client_auth : cred),
       auth_truthy (auth (cfg s)) = false →
       (admin_connect sid env client_auth s).1 = Ok ()).
Proof.
  split; [|split].
  - intros c w. unfold init. split.
    + intros [e He]. by destruct (auth c).
    + intros ->. by eexists.
  - intros c w Hnone Hfalsy. unfold init.
    destruct (auth c); try done; by eexists.
  - intros s sid env client_auth Hfalsy.
    rewrite admin_connect_accepts by (by left). done.
Qed.

(** *** Room membership and the discrete event queue *)

Lemma set_admin_queue_id (s : state W) : set_admin_queue (admin_queue s) s = s.
Proof. by destruct s. Qed.

Lemma queue_room_entry (event sid namespace : string) (room : option string)
  (s : state W) :
  match room_truthy room with
  | Some rm =>
      bind now_iso
        (λ iso, queue_append (event, PRoom namespace rm sid iso))
  | None => ret ()
  end s
  = (Ok (),
     set_admin_queue (admin_queue s ++ room_entries event sid namespace room s) s).
Proof.
  unfold room_entries. destruct (room_truthy room) as [rm|].
  - by munfold.
  - unfold ret. by rewrite app_nil_r, set_admin_queue_id.
Qed.

Lemma enter_room_delegates_then_queues (sid namespace : string)
  (room eio_sid : option string) (s : state W) :
  match manager_basic_enter_room sid namespace room eio_sid (sio s) with
  | (Ok r, w') =>
      _basic_enter_room sid namespace room eio_sid s
      = (Ok r,
         set_admin_queue
           (admin_queue s ++ room_entries "room_joined" sid namespace room s)
           (set_sio w' s))
  | (Raise e, w') =>
      _basic_enter_room sid namespace room eio_sid s = (Raise e, set_sio w' s)
  end.
Proof.
  destruct (manager_basic_enter_room sid namespace room eio_sid (sio s))
    as [[r|e] w'] eqn:Hcall; unfold _basic_enter_room;
    unfold bind at 1, call; rewrite Hcall; [|done].
  unfold bind at 1. by rewrite queue_room_entry.
Qed.

Lemma leave_room_queues_then_delegates (sid namespace : string)
  (room : option string) (s : state W) :
  _basic_leave_room sid namespace room s
  = ((manager_basic_leave_room sid namespace room (sio s)).1,
     set_admin_queue
       (admin_queue s ++ room_entries "room_left" sid namespace room s)
       (set_sio (manager_basic_leave_room sid namespace room (sio s)).2 s)).
Proof.
  unfold _basic_leave_room. unfold bind at 1. rewrite queue_room_entry.
  unfold call. cbn [sio set_admin_queue].
  by destruct (manager_basic_leave_room sid namespace room (sio s)).
Qed.

Lemma drain_flushes (n : nat) (s : state W) :
  n = length (admin_queue s) →
  drain n s
  = (Ok (),
     set_outbox (outbox s ++ (queued_message s <$> admin_queue s))
       (set_admin_queue [] s)).
Proof.
  revert s. induction n as [|n IH]; intros s Hn.
  - destruct s as [? ? ? ? ? q ? ? ? ? o ?]; cbn in *.
    destruct q; [|done]. cbn. by rewrite app_nil_r.
  - cbn [drain]. destruct (admin_queue s) as [|[event args] q] eqn:Hq;
      [done|].
    unfold bind at 1, sio_emit. rewrite IH by (cbn in *; lia).
    cbn. by rewrite <- app_assoc.
Qed.

(** One round of the publisher: the [server_stats] message, then the
    queue in order, and the queue is left empty. *)
Lemma stats_iteration_flushes (start_time : Z) (namespaces : list string)
  (s : state W) :
  ∃ st s',
    stats_iteration start_time namespaces s = (Ok (), s')
    ∧ outbox s'
      = outbox s
        ++ {| msg_event := "server_stats"; msg_data := PStats st;
              msg_to := None; msg_namespace := admin_namespace (cfg s) |}
           :: (queued_message s <$> admin_queue s)
    ∧ admin_queue s' = []
    ∧ tasks s' = tasks s
    ∧ stop_stats_event s' = stop_stats_event s
    ∧ cfg s' = cfg s
    ∧ clock s' = clock s
    ∧ stats_task s' = stats_task s.
Proof.
  unfold stats_iteration, server_stats. unfold bind at 1.
  cbn [EventBuffer.get_and_clear]. unfold bind at 1, sio_emit.
  unfold drain_queue. rewrite drain_flushes by done.
  do 2 eexists. split; [done|]. cbn. rewrite <- app_assoc. done.
Qed.

Lemma loop_head_same (start_time : Z) (namespaces : list string)
  (s s' : state W) :
  stop_stats_event s' = stop_stats_event s → cfg s' = cfg s →
  loop_head start_time namespaces s' = loop_head start_time namespaces s.
Proof. unfold loop_head. by intros -> ->. Qed.

(** What running a stats task whose sleep is over does. *)
Lemma run_task_wakes (i : nat) (start_time : Z) (namespaces : list string)
  (s : state W) :
  tasks s !! i = Some (StatsSleeping 0 start_time namespaces) →
  ∃ st,
    outbox (run_task i s)
    = outbox s
      ++ {| msg_event := "server_stats"; msg_data := PStats st;
            msg_to := None; msg_namespace := admin_namespace (cfg s) |}
         :: (queued_message s <$> admin_queue s)
    ∧ admin_queue (run_task i s) = []
    ∧ tasks (run_task i s) = <[i := loop_head start_time namespaces s]> (tasks s)
    ∧ stop_stats_event (run_task i s) = stop_stats_event s
    ∧ cfg (run_task i s) = cfg s
    ∧ clock (run_task i s) = clock s
    ∧ stats_task (run_task i s) = stats_task s.
Proof.
  intros Hi. unfold run_task. rewrite Hi.
  destruct (stats_iteration_flushes start_time namespaces s)
    as (st & s' & -> & Hout & Hq & Ht & Hstop & Hcfg & Hclock & Hst).
  exists st. unfold set_task. cbn.
  rewrite (loop_head_same _ _ s s') by done. by rewrite Ht.
Qed.

(** What the two room interceptors and the flush do on every input (the
    general facts behind C4).  Room join delegates to the underlying
    membership mutation first and then, if and only if the room
    identifier is non-empty, appends the room_joined entry (nothing is
    appended when the delegation raises).  Room leave appends the
    room_left entry first, if and only if the room identifier is
    non-empty, and then delegates, so the entry is queued whatever the
    delegation does.  Neither publishes anything.  When the publisher
    wakes up it publishes server_stats and, immediately after it, the
    queued entries in the order they were appended, and leaves the queue
    empty. *)
Lemma room_changes_are_queued_and_flushed_in_order :
  (∀ (sid namespace : string) (room eio_sid : option string) (s : state W),
     match manager_basic_enter_room sid namespace room eio_sid (sio s) with
     | (Ok r, w') =>
         _basic_enter_room sid namespace room eio_sid s
         = (Ok r,
            set_admin_queue
              (admin_queue s ++ room_entries "room_joined" sid namespace room s)
              (set_sio w' s))
     | (Raise e, w') =>
         _basic_enter_room sid namespace room eio_sid s
         = (Raise e, set_sio w' s)
     end)
  ∧ (∀ (sid namespace : string) (room : option string) (s : state W),
       _basic_leave_room sid namespace room s
       = ((manager_basic_leave_room sid namespace room (sio s)).1,
          set_admin_queue
            (admin_queue s ++ room_entries "room_left" sid namespace room s)
            (set_sio (manager_basic_leave_room sid namespace room (sio s)).2 s)))
  ∧ (∀ (event sid namespace : string) (room : option string) (s : state W),
       room_entries event sid namespace room s
       = match room with
         | Some rm =>
             if decide (rm = EmptyString) then []
             else [(event, PRoom namespace rm sid (isoformat (clock s)))]
         | None => []
         end)
  ∧ (∀ (sid namespace : string) (room eio_sid : option string) (s : state W),
       outbox (_basic_enter_room sid namespace room eio_sid s).2 = outbox s
       ∧ outbox (_basic_leave_room sid namespace room s).2 = outbox s)
  ∧ (∀ (i : nat) (start_time : Z) (namespaces : list string) (s : state W),
       tasks s !! i = Some (StatsSleeping 0 start_time namespaces) →
       ∃ st,
         outbox (run_task i s)
         = outbox s
           ++ {| msg_event := "server_stats"; msg_data := PStats st;
                 msg_to := None; msg_namespace := admin_namespace (cfg s) |}
              :: (queued_message s <$> admin_queue s)
         ∧ admin_queue (run_task i s) = []).
Proof.
  split; [|split; [|split; [|split]]].
  - apply enter_room_delegates_then_queues.
  - apply leave_room_queues_then_delegates.
  - intros event sid namespace [rm|] s; unfold room_entries; cbn; [|done].
    by destruct (decide (rm = EmptyString)).
  - intros sid namespace room eio_sid s. split.
    + pose proof (enter_room_delegates_then_queues sid namespace room eio_sid s)
        as H.
      destruct (manager_basic_enter_room sid namespace room eio_sid (sio s))
        as [[r|e] w']; by rewrite H.
    + by rewrite leave_room_queues_then_delegates.
  - intros i start_time namespaces s Hi.
    destruct (run_task_wakes i start_time namespaces s Hi)
      as (st & Hout & Hq & _).
    by exists st.
Qed.

(** *** The stats task: how many, and when it stops *)

Lemma running_stats_tasks_app (s : state W) (l : list task) :
  running_stats_tasks (set_tasks (tasks s ++ l) s)
  = running_stats_tasks s + length (filter (λ t, stats_running t = true) l).
Proof.
  unfold running_stats_tasks. cbn. by rewrite filter_app, length_app.
Qed.

(** An accepted admin connection always starts one more stats task. *)
Lemma admin_connect_starts_stats_task (sid : string) (env : environ)
  (client_auth : cred) (s : state W) :
  auth_truthy (auth (cfg s)) = false
  ∨ authenticate (auth (cfg s)) client_auth = Ok true →
  running_stats_tasks (admin_connect sid env client_auth s).2
  = S (running_stats_tasks s).
Proof.
  intros Hacc. rewrite admin_connect_accepts by done. cbn [snd].
  unfold running_stats_tasks. cbn. rewrite filter_app, length_app. cbn.
  repeat case_decide; try done. cbn. lia.
Qed.

(** A transport connection starts a stats task only when no stop event
    exists yet. *)
Lemma eio_connect_state (eio_sid : string) (env : environ) (s : state W) :
  _handle_eio_connect eio_sid env s
  = let s1 := match stop_stats_event s with
              | None =>
                  set_stats_task (Some (length (tasks s)))
                    (set_tasks (tasks s ++ [StatsCreated])
                       (set_stop_stats_event (Some false) s))
              | Some _ => s
              end in
    ((sio_handle_eio_connect eio_sid env (sio s)).1,
     set_sio (sio_handle_eio_connect eio_sid env (sio s)).2
       (set_event_buffer
          (EventBuffer.push "rawConnection" 1 (event_buffer s)) s1)).
Proof.
  unfold _handle_eio_connect. munfold. cbn.
  destruct (stop_stats_event s); cbn;
    by destruct (sio_handle_eio_connect eio_sid env (sio s)).
Qed.

Lemma eio_connect_starts_stats_task_once (eio_sid : string) (env : environ)
  (s : state W) :
  running_stats_tasks (_handle_eio_connect eio_sid env s).2
  = match stop_stats_event s with
    | None => S (running_stats_tasks s)
    | Some _ => running_stats_tasks s
    end
  ∧ stop_stats_event (_handle_eio_connect eio_sid env s).2
    = Some (default false (stop_stats_event s)).
Proof.
  rewrite eio_connect_state. cbn.
  destruct (stop_stats_event s) as [b|] eqn:Hev; cbn; [done|].
  unfold running_stats_tasks; cbn. rewrite filter_app, length_app; cbn.
  split; [|done]. case_decide; try done; cbn; lia.
Qed.

Lemma tick_sleeping (i k : nat) (start_time : Z) (namespaces : list string)
  (s : state W) :
  tasks s !! i = Some (StatsSleeping (S k) start_time namespaces) →
  tasks (tick s) !! i = Some (StatsSleeping k start_time namespaces).
Proof.
  intros Hi. unfold tick. cbn. by rewrite list_lookup_fmap, Hi.
Qed.

Lemma ticks_sleeping (k i : nat) (start_time : Z) (namespaces : list string)
  (s : state W) :
  tasks s !! i = Some (StatsSleeping k start_time namespaces) →
  tasks (ticks k s) !! i = Some (StatsSleeping 0 start_time namespaces)
  ∧ outbox (ticks k s) = outbox s
  ∧ admin_queue (ticks k s) = admin_queue s
  ∧ stop_stats_event (ticks k s) = stop_stats_event s
  ∧ cfg (ticks k s) = cfg s
  ∧ stats_task (ticks k s) = stats_task s
  ∧ clock (ticks k s) = (clock s + Z.of_nat k)%Z.
Proof.
  revert s. induction k as [|k IH]; intros s Hi.
  - cbn. repeat split; try done. lia.
  - unfold ticks. rewrite Nat.iter_succ_r. fold (ticks k (tick s)).
    destruct (IH (tick s) (tick_sleeping _ _ _ _ _ Hi))
      as (Ht & Ho & Hq & Hs & Hc & Hst & Hcl).
    rewrite Ht, Ho, Hq, Hs, Hc, Hst, Hcl. cbn. repeat split; try done. lia.
Qed.

(** A stats task going to sleep for the interval wakes up after exactly
    that many time units, publishes one [server_stats] message followed by
    the queue, and, the stop signal not being set, sleeps again. *)
Lemma period_publishes_once (i : nat) (start_time : Z)
  (namespaces : list string) (s : state W) :
  tasks s !! i
  = Some (StatsSleeping (server_stats_interval (cfg s)) start_time namespaces) →
  stop_stats_event s = Some false →
  ∃ st,
    outbox (period i s)
    = outbox s ++ stats_message s st :: (queued_message s <$> admin_queue s)
    ∧ admin_queue (period i s) = []
    ∧ tasks (period i s) !! i
      = Some (StatsSleeping (server_stats_interval (cfg s)) start_time namespaces)
    ∧ stop_stats_event (period i s) = Some false
    ∧ cfg (period i s) = cfg s
    ∧ clock (period i s)
      = (clock s + Z.of_nat (server_stats_interval (cfg s)))%Z.
Proof.
  intros Hi Hstop. unfold period.
  destruct (ticks_sleeping _ _ _ _ _ Hi) as (Ht & Ho & Hq & Hs & Hc & Hst & Hcl).
  destruct (run_task_wakes _ _ _ _ Ht)
    as (st & Hout & Hqueue & Htasks & Hstop' & Hcfg & Hclock & _).
  exists st. rewrite Hout, Hqueue, Htasks, Hstop', Hcfg, Hclock.
  rewrite Ho, Hq, Hs, Hc, Hcl, Hstop.
  repeat split; try done.
  - unfold stats_message, queued_message. by rewrite Hc.
  - rewrite list_lookup_insert_eq by (by eapply lookup_lt_Some).
    unfold loop_head. by rewrite Hs, Hstop, Hc.
Qed.

Lemma count_event_app (event : string) (l1 l2 : list message) :
  count_event event (l1 ++ l2) = count_event event l1 + count_event event l2.
Proof. unfold count_event. by rewrite filter_app, length_app. Qed.

Lemma room_entries_are_not_stats (s : state W) (q : list (string * payload)) :
  Forall room_entry q →
  count_event "server_stats" (queued_message s <$> q) = 0.
Proof.
  induction 1 as [|entry q Hentry _ IH]; [done|].
  unfold count_event in *. cbn [fmap list_fmap]. rewrite filter_cons.
  destruct (decide (msg_event (queued_message s entry) = "server_stats"))
    as [Heq|_]; [|exact IH].
  cbn in Heq. destruct Hentry as [H|H]; by rewrite H in Heq.
Qed.

(** Left alone for [n] periods, the publisher publishes [n] server_stats
    messages, one at the end of each interval. *)
Lemma periods_publish (n i : nat) (start_time : Z) (namespaces : list string)
  (s : state W) :
  tasks s !! i
  = Some (StatsSleeping (server_stats_interval (cfg s)) start_time namespaces) →
  stop_stats_event s = Some false →
  Forall room_entry (admin_queue s) →
  count_event "server_stats" (outbox (Nat.iter n (period i) s))
  = count_event "server_stats" (outbox s) + n
  ∧ clock (Nat.iter n (period i) s)
    = (clock s + Z.of_nat n * Z.of_nat (server_stats_interval (cfg s)))%Z
  ∧ tasks (Nat.iter n (period i) s) !! i
    = Some (StatsSleeping (server_stats_interval (cfg s)) start_time namespaces)
  ∧ stop_stats_event (Nat.iter n (period i) s) = Some false.
Proof.
  revert s. induction n as [|n IH]; intros s Hi Hstop Hq.
  - cbn. repeat split; try done; lia.
  - rewrite Nat.iter_succ_r.
    destruct (period_publishes_once i start_time namespaces s Hi Hstop)
      as (st & Hout & Hqueue & Htask & Hstop' & Hcfg & Hclock).
    rewrite <- Hcfg in Htask.
    destruct (IH (period i s) Htask Hstop') as (Hcount & Hclk & Ht & Hs).
    { rewrite Hqueue. apply Forall_nil_2. }
    rewrite Hcount, Hclk, Ht, Hs, Hcfg, Hout, Hclock.
    rewrite count_event_app. cbn [count_event].
    change (stats_message s st :: (queued_message s <$> admin_queue s))
      with ([stats_message s st] ++ (queued_message s <$> admin_queue s)).
    rewrite count_event_app, room_entries_are_not_stats by done.
    change (count_event "server_stats" [stats_message s st]) with 1.
    repeat split; try done; lia.
Qed.

(** Awaiting a sleeping stats task after the stop signal is set: the
    sleep runs to its end, the task publishes once more and ends. *)
Lemma join_sleeping (k fuel i : nat) (start_time : Z)
  (namespaces : list string) (s : state W) :
  tasks s !! i = Some (StatsSleeping k start_time namespaces) →
  stop_stats_event s = Some true →
  k + 2 ≤ fuel →
  ∃ st s',
    join fuel i s = Some (Ok (), s')
    ∧ outbox s'
      = outbox s ++ stats_message s st :: (queued_message s <$> admin_queue s)
    ∧ tasks s' !! i = Some (StatsDone (Ok ()))
    ∧ clock s' = (clock s + Z.of_nat k)%Z.
Proof.
  revert fuel s. induction k as [|k IH]; intros fuel s Hi Hstop Hfuel.
  - destruct fuel as [|[|fuel]]; [lia|lia|].
    destruct (run_task_wakes _ _ _ _ Hi)
      as (st & Hout & Hqueue & Htasks & Hstop' & Hcfg & Hclock & _).
    assert (tasks (run_task i s) !! i = Some (StatsDone (Ok ()))) as Hdone.
    { rewrite Htasks, list_lookup_insert_eq by (by eapply lookup_lt_Some).
      unfold loop_head. by rewrite Hstop. }
    exists st, (run_task i s).
    cbn [join]. rewrite Hi. cbn [join]. rewrite Hdone.
    repeat split; try done. rewrite Hclock. lia.
  - destruct fuel as [|fuel]; [lia|].
    cbn [join]. rewrite Hi.
    destruct (IH fuel (tick s) (tick_sleeping _ _ _ _ _ Hi) Hstop ltac:(lia))
      as (st & s' & Hjoin & Hout & Hdone & Hclock).
    exists st, s'. rewrite Hjoin. repeat split; try done.
    rewrite Hclock. cbn. lia.
Qed.

(** *** Footprints of the operations *)

Section Footprint.
Variable P : message → Prop.

#[local] Abbreviation eff c := (@effect W P _ c) (only parsing).

Lemma footprint_refl (s : state W) : footprint P s s.
Proof.
  repeat split; try done; exists []; by rewrite app_nil_r.
Qed.

Lemma footprint_trans (s1 s2 s3 : state W) :
  footprint P s1 s2 → footprint P s2 s3 → footprint P s1 s3.
Proof.
  intros (Hc & Ht & He & Hs & Hk & (l & Hl & HP) & (q & Hq & HQ))
         (Hc' & Ht' & He' & Hs' & Hk' & (l' & Hl' & HP') & (q' & Hq' & HQ')).
  repeat split; try congruence.
  - exists (l ++ l'). rewrite Hl', Hl, <- app_assoc. split; [done|].
    by apply Forall_app.
  - exists (q ++ q'). rewrite Hq', Hq, <- app_assoc. split; [done|].
    by apply Forall_app.
Qed.

Lemma effect_ret {A} (a : A) : eff (ret a).
Proof. intros s. apply footprint_refl. Qed.

Lemma effect_raise {A} (e : exn) : eff (raise (A := A) e).
Proof. intros s. apply footprint_refl. Qed.

Lemma effect_bind {A B} (c : M A) (k : A → M B) :
  effect P c → (∀ a, eff (k a)) → eff (bind c k).
Proof.
  intros Hc Hk s. unfold bind. specialize (Hc s).
  destruct (c s) as [[a|e] s1]; cbn in *; [|done].
  eapply footprint_trans; [done|apply Hk].
Qed.

Lemma effect_read {A} (f : state W → res A) : eff (λ s, (f s, s)).
Proof. intros s. apply footprint_refl. Qed.

Lemma effect_call {A} (f : W → res A * W) : eff (call f).
Proof.
  intros s. unfold call. destruct (f (sio s)) as [r w]. cbn.
  repeat split; try done; exists []; by rewrite app_nil_r.
Qed.

Lemma effect_query {A} (f : W → A) : eff (query f).
Proof. intros s. apply footprint_refl. Qed.

Lemma effect_try_query {A} (f : W → res A) : eff (try_query f).
Proof. intros s. apply footprint_refl. Qed.

Lemma effect_push (name : string) (amount : Z) : eff (push name amount).
Proof.
  intros s. repeat split; try done; exists []; by rewrite app_nil_r.
Qed.

Lemma effect_set_timestamps {A} (r : state W → res A)
  (t : state W → gmap string Z) :
  eff (λ s, (r s, set_timestamps (t s) s)).
Proof.
  intros s. repeat split; try done; exists []; by rewrite app_nil_r.
Qed.

Lemma effect_del_timestamp (sid : string) : eff (del_timestamp sid).
Proof.
  intros s. unfold del_timestamp. destruct (timestamps s !! sid); cbn.
  - repeat split; try done; exists []; by rewrite app_nil_r.
  - apply footprint_refl.
Qed.

Lemma effect_index {A} (l : list A) (i : nat) :
  eff (index l i).
Proof.
  unfold index. destruct (l !! i); [apply effect_ret|apply effect_raise].
Qed.

Lemma effect_sio_emit (event : string) (data : payload) (to : option string) :
  (∀ ns, P {| msg_event := event; msg_data := data; msg_to := to;
              msg_namespace := ns |}) →
  eff (sio_emit event data to).
Proof.
  intros HP s. repeat split; try done.
  - eexists. split; [done|]. by apply Forall_singleton.
  - exists []. by rewrite app_nil_r.
Qed.

Lemma effect_queue_append (entry : string * payload) :
  room_entry entry → eff (queue_append entry).
Proof.
  intros He s. repeat split; try done.
  - exists []. by rewrite app_nil_r.
  - eexists. split; [done|]. by apply Forall_singleton.
Qed.

Lemma effect_for_each {A} (l : list A) (body : A → M unit) :
  (∀ x, eff (body x)) → eff (for_each l body).
Proof.
  intros Hbody. induction l as [|x l IH]; cbn [for_each].
  - apply effect_ret.
  - apply effect_bind; [apply Hbody|done].
Qed.

Lemma effect_map_m {A B} (f : A → M B) (l : list A) :
  (∀ x, eff (f x)) → eff (map_m f l).
Proof.
  intros Hf. induction l as [|x l IH]; cbn [map_m].
  - apply effect_ret.
  - apply effect_bind; [apply Hf|intros y].
    apply effect_bind; [done|intros ys; apply effect_ret].
Qed.

Lemma effect_instrumented {A} (wrapper original : M A) :
  effect P wrapper → effect P original →
  eff (instrumented wrapper original).
Proof.
  intros Hw Ho s. unfold instrumented.
  destruct (decide (mode (cfg s) = "development")); [apply Hw|apply Ho].
Qed.

Lemma effect_content_length (env : environ) :
  eff (content_length env).
Proof.
  unfold content_length. destruct (env_lookup env "CONTENT_LENGTH") as [v|];
    [destruct (py_int v)|]; apply effect_ret || apply effect_raise.
Qed.

Lemma effect_serialize_socket (sid namespace : string)
  (eio_sid : option string) :
  eff (serialize_socket sid namespace eio_sid).
Proof.
  unfold serialize_socket.
  apply effect_bind; [destruct eio_sid; [apply effect_ret|apply effect_try_query]|].
  intros e. apply effect_bind; [apply effect_try_query|intros sk].
  apply effect_bind; [apply effect_query|intros env].
  apply effect_bind; [apply effect_read|intros tm].
  apply effect_bind; [apply effect_query|intros rooms]. apply effect_ret.
Qed.
End Footprint.

Ltac effect_step :=
  first
    [ apply effect_bind; [|intros ?]
    | apply effect_ret
    | apply effect_raise
    | apply effect_call
    | apply effect_query
    | apply effect_try_query
    | apply effect_push
    | apply effect_del_timestamp
    | apply effect_index
    | apply effect_content_length
    | apply effect_serialize_socket
    | apply effect_for_each; intros ?
    | apply effect_map_m; intros ?
    | apply effect_sio_emit; intros ?;
      unfold notification, config_message; cbn; tauto
    | apply effect_queue_append; unfold room_entry; cbn; tauto
    | apply effect_set_timestamps
    | apply effect_read
    | case_decide
    | case_match ].

Ltac solve_effect := unfold now_iso, time_time; repeat effect_step.

Lemma trigger_event_effect (event namespace sid : string) (rest : list pyval) :
  effect notification (_trigger_event event namespace sid rest).
Proof. unfold _trigger_event. solve_effect. Qed.

Lemma enter_room_effect (sid namespace : string) (room eio_sid : option string) :
  effect notification (_basic_enter_room sid namespace room eio_sid).
Proof. unfold _basic_enter_room. solve_effect. Qed.

Lemma leave_room_effect (sid namespace : string) (room : option string) :
  effect notification (_basic_leave_room sid namespace room).
Proof. unfold _basic_leave_room. solve_effect. Qed.

Lemma emit_effect (event : string) (data : pyval) (namespace : string)
  (room : option string) (skip_sid : skip) (callback : pyval) :
  effect notification (_emit event data namespace room skip_sid callback).
Proof. unfold _emit. solve_effect. Qed.

Lemma eio_disconnect_effect (eio_sid : string) (reason : pyval) :
  effect notification (_handle_eio_disconnect eio_sid reason).
Proof. unfold _handle_eio_disconnect. solve_effect. Qed.

Lemma http_response_effect (packets headers jsonp_index : pyval) :
  effect notification (_eio_http_response packets headers jsonp_index).
Proof. unfold _eio_http_response. solve_effect. Qed.

Lemma post_request_effect (socket : string) (env : environ) :
  effect notification (_eio_handle_post_request socket env).
Proof. unfold _eio_handle_post_request. solve_effect. Qed.

Lemma config_body_effect (sid : string) :
  effect (config_message sid) (config_body sid).
Proof. unfold config_body. solve_effect. Qed.

(** *** Tasks that are over stay over *)

Lemma admin_connect_cases (sid : string) (env : environ) (client_auth : cred)
  (s : state W) :
  (admin_connect sid env client_auth s).2 = s
  ∨ admin_connect sid env client_auth s
    = (Ok (),
       set_stats_task (Some (S (length (tasks s))))
         (set_tasks (tasks s ++ [ConfigSleeping sid; StatsCreated])
            (set_stop_stats_event (Some false) s))).
Proof.
  destruct (auth_truthy (auth (cfg s))) eqn:Htruthy.
  - destruct (authenticate (auth (cfg s)) client_auth) as [[|]|e] eqn:Hauth.
    + right. apply admin_connect_accepts. by right.
    + left. by rewrite admin_connect_rejects.
    + left. unfold admin_connect. unfold bind at 1. cbn [fst snd].
      unfold bind at 1. rewrite Htruthy. unfold bind at 1. by rewrite Hauth.
  - right. apply admin_connect_accepts. by left.
Qed.

Lemma age_over (t : task) : task_over t → age t = t.
Proof. by destruct t. Qed.

Lemma run_task_keeps_finished (i j : nat) (t : task) (s : state W) :
  tasks s !! i = Some t → task_over t → tasks (run_task j s) !! i = Some t.
Proof.
  intros Hi Hover. unfold run_task.
  destruct (tasks s !! j) as [[sid|sid r| |[|k] st ns|r]|] eqn:Hj; try done.
  - pose proof (config_body_effect sid s) as (_ & Ht & _).
    destruct (config_body sid s) as [r s']. cbn in *.
    rewrite Ht. destruct (decide (i = j)) as [->|Hne].
    + rewrite Hj in Hi. injection Hi as <-. done.
    + by rewrite list_lookup_insert_ne.
  - cbn. destruct (decide (i = j)) as [->|Hne].
    + rewrite Hj in Hi. injection Hi as <-. done.
    + by rewrite list_lookup_insert_ne.
  - destruct (stats_iteration_flushes st ns s)
      as (stt & s' & -> & _ & _ & Ht & _).
    cbn. rewrite Ht. destruct (decide (i = j)) as [->|Hne].
    + rewrite Hj in Hi. injection Hi as <-. done.
    + by rewrite list_lookup_insert_ne.
Qed.

Lemma effect_tasks (P : message → Prop) {A} (c : M A) (s : state W) :
  effect P c → tasks (c s).2 = tasks s.
Proof. intros Hc. by destruct (Hc s) as (_ & -> & _). Qed.

Lemma exec_keeps_finished (a : action) (i : nat) (t : task) (s : state W) :
  tasks s !! i = Some t → task_over t → tasks (exec a s) !! i = Some t.
Proof.
  intros Hi Hover. destruct a; cbn [exec].
  - destruct (admin_connect_cases sid env client_auth s) as [->| ->]; [done|].
    cbn. by apply lookup_app_l_Some.
  - rewrite eio_connect_state. cbn. destruct (stop_stats_event s); cbn; [done|].
    by apply lookup_app_l_Some.
  - by rewrite (effect_tasks notification) by apply eio_disconnect_effect.
  - by rewrite (effect_tasks notification)
      by (apply effect_instrumented;
          [apply trigger_event_effect|apply effect_call]).
  - by rewrite (effect_tasks notification)
      by (apply effect_instrumented;
          [apply enter_room_effect|apply effect_call]).
  - by rewrite (effect_tasks notification)
      by (apply effect_instrumented;
          [apply leave_room_effect|apply effect_call]).
  - by rewrite (effect_tasks notification)
      by (apply effect_instrumented; [apply emit_effect|apply effect_call]).
  - by rewrite (effect_tasks notification) by apply http_response_effect.
  - by rewrite (effect_tasks notification) by apply post_request_effect.
  - unfold tick. cbn [tasks set_clock set_tasks].
    rewrite list_lookup_fmap, Hi. cbn. by rewrite (age_over t).
  - by apply run_task_keeps_finished.
Qed.

Lemma exec_all_keeps_finished (trace : list action) (i : nat) (t : task)
  (s : state W) :
  tasks s !! i = Some t → task_over t →
  tasks (exec_all trace s) !! i = Some t.
Proof.
  revert s. induction trace as [|a trace IH]; intros s Hi Hover; [done|].
  cbn. apply IH; [|done]. by apply exec_keeps_finished.
Qed.

(** *** The queue only ever holds room entries *)

Lemma effect_queue (P : message → Prop) {A} (c : M A) (s : state W) :
  effect P c →
  Forall room_entry (admin_queue s) →
  Forall room_entry (admin_queue (c s).2).
Proof.
  intros Hc Hq. destruct (Hc s) as (_ & _ & _ & _ & _ & _ & (q & -> & HQ)).
  apply Forall_app. by split.
Qed.

Lemma exec_keeps_room_entries (a : action) (s : state W) :
  Forall room_entry (admin_queue s) →
  Forall room_entry (admin_queue (exec a s)).
Proof.
  intros Hq. destruct a; cbn [exec].
  - by destruct (admin_connect_cases sid env client_auth s) as [->| ->].
  - rewrite eio_connect_state. cbn. by destruct (stop_stats_event s).
  - apply (effect_queue notification); [apply eio_disconnect_effect|done].
  - apply (effect_queue notification); [|done].
    apply effect_instrumented; [apply trigger_event_effect|apply effect_call].
  - apply (effect_queue notification); [|done].
    apply effect_instrumented; [apply enter_room_effect|apply effect_call].
  - apply (effect_queue notification); [|done].
    apply effect_instrumented; [apply leave_room_effect|apply effect_call].
  - apply (effect_queue notification); [|done].
    apply effect_instrumented; [apply emit_effect|apply effect_call].
  - apply (effect_queue notification); [apply http_response_effect|done].
  - apply (effect_queue notification); [apply post_request_effect|done].
  - done.
  - unfold run_task.
    destruct (tasks s !! i) as [[sid|sid r| |[|k] st ns|r]|] eqn:Hi; try done.
    + pose proof (effect_queue (config_message sid) (config_body sid) s
                    (config_body_effect sid) Hq) as Hq'.
      by destruct (config_body sid s).
    + destruct (stats_iteration_flushes st ns s)
        as (stt & s' & -> & _ & Hq' & _).
      cbn. rewrite Hq'. apply Forall_nil_2.
Qed.

Lemma exec_all_keeps_room_entries (trace : list action) (s : state W) :
  Forall room_entry (admin_queue s) →
  Forall room_entry (admin_queue (exec_all trace s)).
Proof.
  revert s. induction trace as [|a trace IH]; intros s Hq; [done|].
  cbn. by apply IH, exec_keeps_room_entries.
Qed.

Lemma run_task_finished (i : nat) (t : task) (s : state W) :
  tasks s !! i = Some t → task_over t → run_task i s = s.
Proof. intros Hi Hover. unfold run_task. rewrite Hi. by destruct t. Qed.

(** *** Config messages go to authenticated connections only *)

Lemma accepted_by_snoc (d : gmap string string) (trace : list action)
  (a : action) (sid : string) :
  accepted_by d trace sid → accepted_by d (trace ++ [a]) sid.
Proof. intros [env Hin]. exists env. apply elem_of_app. by left. Qed.

Lemma config_invariant_snoc (d : gmap string string) (trace : list action)
  (a : action) (s : state W) :
  config_invariant d trace s → config_invariant d (trace ++ [a]) s.
Proof.
  intros (Hauth & Hout & Htasks & Hq). repeat split; try done.
  - eapply Forall_impl; [exact Hout|]. intros m Hm Hev.
    destruct (Hm Hev) as (sid & Hto & Hacc). exists sid.
    split; [done|]. by apply accepted_by_snoc.
  - eapply Forall_impl; [exact Htasks|]. intros t Ht sid Hsid.
    apply accepted_by_snoc. by apply Ht.
Qed.

(** An operation with a footprint whose messages are harmless keeps the
    invariant. *)
Lemma config_invariant_footprint (P : message → Prop)
  (d : gmap string string) (trace : list action) (s s' : state W) :
  (∀ m, P m → msg_event m = "config" →
        ∃ sid, msg_to m = Some sid ∧ accepted_by d trace sid) →
  footprint P s s' →
  config_invariant d trace s → config_invariant d trace s'.
Proof.
  intros HP (Hc & Ht & _ & _ & _ & (l & Hl & HPl) & (q & Hq & HQ))
         (Hauth & Hout & Htasks & Hqueue).
  repeat split.
  - by rewrite Hc.
  - rewrite Hl. apply Forall_app. split; [done|].
    eapply Forall_impl; [exact HPl|]. intros m Hm. by apply HP.
  - by rewrite Ht.
  - rewrite Hq. apply Forall_app. by split.
Qed.

Lemma notification_not_config (m : message) :
  notification m → msg_event m ≠ "config".
Proof. intros [H|[H|[H|H]]]; by rewrite H. Qed.

Lemma room_entry_not_config (s : state W) (entry : string * payload) :
  room_entry entry → msg_event (queued_message s entry) ≠ "config".
Proof. intros [H|H]; cbn; by rewrite H. Qed.

Lemma config_invariant_interceptor (d : gmap string string)
  (trace : list action) (s s' : state W) :
  footprint notification s s' →
  config_invariant d trace s → config_invariant d trace s'.
Proof.
  apply config_invariant_footprint. intros m Hm Hev.
  by destruct (notification_not_config m Hm).
Qed.

Lemma config_invariant_set_task (d : gmap string string) (trace : list action)
  (i : nat) (t : task) (s : state W) :
  (∀ sid, t ≠ ConfigSleeping sid) →
  config_invariant d trace s → config_invariant d trace (set_task i t s).
Proof.
  intros Ht (Hauth & Hout & Htasks & Hqueue). repeat split; try done.
  cbn. apply Forall_insert; [done|]. intros sid Hsid. by destruct (Ht sid).
Qed.

Lemma loop_head_not_config (start_time : Z) (namespaces : list string)
  (s : state W) (sid : string) :
  loop_head start_time namespaces s ≠ ConfigSleeping sid.
Proof. unfold loop_head. by destruct (stop_stats_event s) as [[|]|]. Qed.

Lemma config_invariant_run_task (d : gmap string string) (trace : list action)
  (i : nat) (s : state W) :
  config_invariant d trace s → config_invariant d trace (run_task i s).
Proof.
  intros Hinv. unfold run_task.
  destruct (tasks s !! i) as [[sid|sid r| |[|k] st ns|r]|] eqn:Hi; try done.
  - assert (accepted_by d trace sid) as Hacc.
    { destruct Hinv as (_ & _ & Htasks & _).
      by eapply (Forall_lookup_1 _ _ _ _ Htasks Hi). }
    pose proof (config_body_effect sid s) as Hfoot.
    destruct (config_body sid s) as [r s']. cbn in Hfoot.
    apply config_invariant_set_task; [done|].
    eapply config_invariant_footprint; [|exact Hfoot|exact Hinv].
    intros m [[_ Hto]|Hall] Hev; [by exists sid|]. by rewrite Hall in Hev.
  - apply config_invariant_set_task; [|done].
    intros sid. apply loop_head_not_config.
  - destruct (stats_iteration_flushes st ns s)
      as (stt & s' & -> & Hout' & Hq' & Ht' & _ & Hc' & _).
    apply config_invariant_set_task; [intros sid; apply loop_head_not_config|].
    destruct Hinv as (Hauth & Hout & Htasks & Hqueue).
    repeat split.
    + by rewrite Hc'.
    + rewrite Hout'. apply Forall_app. split; [done|].
      apply Forall_cons. split; [done|].
      apply Forall_fmap. eapply Forall_impl; [exact Hqueue|].
      intros entry Hentry Hev. by destruct (room_entry_not_config s entry).
    + by rewrite Ht'.
    + by rewrite Hq'.
Qed.

Lemma config_invariant_step (d : gmap string string) (trace : list action)
  (a : action) (s : state W) :
  d ≠ ∅ →
  config_invariant d trace s →
  config_invariant d (trace ++ [a]) (exec a s).
Proof.
  intros Hd Hinv.
  pose proof (config_invariant_snoc d trace a s Hinv) as Hinv'.
  destruct a; cbn [exec].
  - destruct (decide (client_auth = CredDict d)) as [->|Hne].
    + destruct Hinv' as (Hauth & Hout & Htasks & Hqueue).
      rewrite admin_connect_accepts.
      2:{ right. rewrite Hauth. cbn. f_equal. by apply bool_decide_eq_true. }
      repeat split; try done. cbn. apply Forall_app. split; [done|].
      apply Forall_cons. split; [|by apply Forall_singleton].
      intros sid' [= <-]. exists env. apply elem_of_app. right.
      by apply list_elem_of_singleton.
    + destruct Hinv as (Hauth & _).
      rewrite admin_connect_rejects; [done| |].
      * rewrite Hauth. cbn. by apply bool_decide_eq_true.
      * rewrite Hauth. cbn. f_equal. by apply bool_decide_eq_false.
  - rewrite eio_connect_state. cbn.
    destruct Hinv' as (Hauth & Hout & Htasks & Hqueue).
    destruct (stop_stats_event s); repeat split; try done.
    cbn. apply Forall_app. split; [done|]. by apply Forall_singleton.
  - eapply config_invariant_interceptor; [apply eio_disconnect_effect|done].
  - eapply config_invariant_interceptor; [|done].
    apply effect_instrumented; [apply trigger_event_effect|apply effect_call].
  - eapply config_invariant_interceptor; [|done].
    apply effect_instrumented; [apply enter_room_effect|apply effect_call].
  - eapply config_invariant_interceptor; [|done].
    apply effect_instrumented; [apply leave_room_effect|apply effect_call].
  - eapply config_invariant_interceptor; [|done].
    apply effect_instrumented; [apply emit_effect|apply effect_call].
  - eapply config_invariant_interceptor; [apply http_response_effect|done].
  - eapply config_invariant_interceptor; [apply post_request_effect|done].
  - destruct Hinv' as (Hauth & Hout & Htasks & Hqueue).
    repeat split; try done. cbn. apply Forall_fmap.
    eapply Forall_impl; [exact Htasks|]. intros t Ht sid Hage. apply Ht.
    destruct t as [| | |[|k]|]; done.
  - by apply config_invariant_run_task.
Qed.

Lemma exec_all_snoc (trace : list action) (a : action) (s : state W) :
  exec_all (trace ++ [a]) s = exec a (exec_all trace s).
Proof. unfold exec_all. by rewrite foldl_snoc. Qed.

Lemma config_invariant_trace (d : gmap string string) (trace : list action)
  (s : state W) :
  d ≠ ∅ →
  config_invariant d [] s →
  config_invariant d trace (exec_all trace s).
Proof.
  intros Hd Hinit. induction trace as [|a trace IH] using rev_ind; [done|].
  rewrite exec_all_snoc. by apply config_invariant_step.
Qed.

Lemma config_invariant_init (d : gmap string string) (c : config) (w : W)
  (s0 : state W) :
  auth c = AuthDict d → init c w = Ok s0 → config_invariant d [] s0.
Proof.
  intros Hauth Hinit. unfold init in Hinit. rewrite Hauth in Hinit.
  injection Hinit as <-. repeat split; try done; cbn; apply Forall_nil_2.
Qed.

(** C3, as amended. Against a fixed non-empty credentials map an admin
    connection attempt is accepted exactly when the supplied credentials
    equal the map; an accepted attempt schedules the config task for that
    connection; a mismatch is rejected with the authentication-failure
    signal and leaves the whole state as it was, so no admin state is
    created.  Over every run of the instrumented server, each config
    message published is addressed to a connection that made an attempt
    with exactly the configured credentials: a connection that only ever
    supplied other credentials is never sent one. *)
Theorem fixed_map_authentication :
  (∀ (d : gmap string string) (s : state W) (sid : string) (env : environ)
     (client_auth : cred),
     auth (cfg s) = AuthDict d →
     d ≠ ∅ →
     ((admin_connect sid env client_auth s).1 = Ok ()
      ↔ client_auth = CredDict d)
     ∧ (client_auth = CredDict d →
        tasks (admin_connect sid env client_auth s).2
        = tasks s ++ [ConfigSleeping sid; StatsCreated])
     ∧ (client_auth ≠ CredDict d →
        admin_connect sid env client_auth s
        = (Raise (ConnectionRefusedError "authentication failed"), s)))
  ∧ (∀ (d : gmap string string) (c : config) (w : W) (s0 : state W)
       (trace : list action) (m : message),
       auth c = AuthDict d →
       d ≠ ∅ →
       init c w = Ok s0 →
       m ∈ outbox (exec_all trace s0) →
       msg_event m = "config" →
       ∃ sid env,
         msg_to m = Some sid ∧ AdminConnect sid env (CredDict d) ∈ trace).
Proof.
  split.
  - intros d s sid env client_auth Hauth Hd.
    assert (auth_truthy (auth (cfg s)) = true) as Htruthy.
    { rewrite Hauth. cbn. by apply bool_decide_eq_true. }
    destruct (decide (client_auth = CredDict d)) as [Heq|Hne].
    + assert (authenticate (auth (cfg s)) client_auth = Ok true) as Hok.
      { rewrite Hauth. cbn. f_equal. by apply bool_decide_eq_true. }
      rewrite admin_connect_accepts by (by right). cbn. split; [done|].
      split; [done|]. intros Hne. by destruct Hne.
    + assert (authenticate (auth (cfg s)) client_auth = Ok false) as Hrej.
      { rewrite Hauth. cbn. f_equal. by apply bool_decide_eq_false. }
      rewrite admin_connect_rejects by done. cbn. split; [|done].
      split; [done|]. intros Heq. by destruct Hne.
  - intros d c w s0 trace m Hauth Hd Hinit Hin Hev.
    pose proof (config_invariant_trace d trace s0 Hd
                  (config_invariant_init d c w s0 Hauth Hinit))
      as (_ & Hout & _).
    destruct (proj1 (Forall_forall _ _) Hout m Hin Hev) as (sid & Hto & env & Henv).
    by exists sid, env.
Qed.

(** *** The lifecycle interceptor and the timestamp table *)

(** The snapshot builder tolerates a missing timestamp: it fails only
    when the transport socket lookup does, and an identity absent from the
    table gets issue time zero and an empty time string. *)
Lemma serialize_socket_unknown_issue_time (sid namespace eio_sid : string)
  (s : state W) :
  timestamps s !! sid = None →
  match eio_get_socket eio_sid (sio s) with
  | Ok sk =>
      ∃ snap,
        serialize_socket sid namespace (Some eio_sid) s = (Ok snap, s)
        ∧ hs_issued (ss_handshake snap) = 0%Z
        ∧ hs_time (ss_handshake snap) = EmptyString
  | Raise e =>
      serialize_socket sid namespace (Some eio_sid) s = (Raise e, s)
  end.
Proof.
  intros Hts. unfold serialize_socket. munfold. cbn.
  destruct (eio_get_socket eio_sid (sio s)) as [sk|e]; [|done].
  rewrite Hts. cbn. by eexists.
Qed.

(** The disconnect branch deletes the entry without checking for it. *)
Lemma disconnect_without_timestamp_raises (namespace sid : string)
  (rest : list pyval) (s : state W) :
  timestamps s !! sid = None →
  _trigger_event "disconnect" namespace sid rest s = (Raise (KeyError sid), s).
Proof.
  intros Hts. unfold _trigger_event. unfold bind at 1, time_time.
  unfold bind at 1. cbn [decide]. repeat case_decide; try done.
  unfold bind at 1, del_timestamp. by rewrite Hts.
Qed.

(** When the entry is there, the disconnect notification is published
    first and the original dispatch is then run on that state; its result,
    value or exception, is the result of the interceptor. *)
Lemma disconnect_publishes_then_forwards (namespace sid : string)
  (reason : pyval) (rest : list pyval) (t0 : Z) (s : state W) :
  timestamps s !! sid = Some t0 →
  _trigger_event "disconnect" namespace sid (reason :: rest) s
  = call (sio_trigger_event "disconnect" namespace sid (reason :: rest))
      (set_outbox
         (outbox s ++
            [{| msg_event := "socket_disconnected";
                msg_data := PSocketDisconnected namespace sid reason
                              (isoformat (clock s));
                msg_to := None;
                msg_namespace := admin_namespace (cfg s) |}])
         (set_timestamps (delete sid (timestamps s)) s)).
Proof.
  intros Hts. unfold _trigger_event. unfold bind at 1, time_time.
  unfold bind at 1. repeat case_decide; try done.
  unfold bind at 1, del_timestamp. by rewrite Hts.
Qed.

(** Any event other than connect and disconnect: event_received is
    published, then the original dispatch runs and decides the result. *)
Lemma event_publishes_then_forwards (event namespace sid : string)
  (rest : list pyval) (s : state W) :
  event ≠ "connect" → event ≠ "disconnect" →
  _trigger_event event namespace sid rest s
  = call (sio_trigger_event event namespace sid rest)
      (set_outbox
         (outbox s ++
            [{| msg_event := "event_received";
                msg_data := PEvent namespace sid (PStr event :: rest)
                              (isoformat (clock s));
                msg_to := None;
                msg_namespace := admin_namespace (cfg s) |}])
         s).
Proof.
  intros Hc Hd. unfold _trigger_event. unfold bind at 1, time_time.
  unfold bind at 1. by repeat case_decide.
Qed.

(** Connect: the timestamp is recorded, socket_connected is published
    with the snapshot, then the original dispatch runs and decides the
    result; a failing lookup of the collaborators propagates instead. *)
Lemma connect_publishes_then_forwards (namespace sid eio_sid : string)
  (sk : eio_socket) (rest : list pyval) (s : state W) :
  manager_eio_sid_from_sid sid (Some namespace) (sio s) = Ok eio_sid →
  eio_get_socket eio_sid (sio s) = Ok sk →
  ∃ snap,
    hs_issued (ss_handshake snap) = (clock s * 1000)%Z
    ∧ _trigger_event "connect" namespace sid rest s
      = call (sio_trigger_event "connect" namespace sid rest)
          (set_outbox
             (outbox s ++
                [{| msg_event := "socket_connected";
                    msg_data := PSocketConnected snap (isoformat (clock s));
                    msg_to := None;
                    msg_namespace := admin_namespace (cfg s) |}])
             (set_timestamps (<[sid := clock s]> (timestamps s)) s)).
Proof.
  intros Heio Hsk. unfold _trigger_event. unfold bind at 1, time_time.
  unfold bind at 1. repeat case_decide; try done.
  unfold bind at 1, try_query. rewrite Heio.
  unfold bind at 1. unfold bind at 1.
  unfold serialize_socket. munfold. cbn. rewrite Hsk. cbn.
  rewrite lookup_insert_eq. cbn. eexists. split; [|done]. done.
Qed.
End LayerFacts.

(** ** Runs on the small server *)

(** C1. The code at the failing input.  A transport connection starts the
    stats task; the admin connection that follows starts a second one
    while the first is still running, and so does every further admin
    connection: [admin_connect] creates the stop event and the task
    without the test that [_handle_eio_connect] makes.  Only the last task
    is recorded, and after one interval the admin namespace has received
    two server_stats messages. *)
Theorem admin_connect_starts_second_stats_task :
  running_stats_tasks
    (exec_all [EioConnect "e1" []] (toy_state (AuthDict admin_credentials) false))
  = 1
  ∧ running_stats_tasks
      (exec_all [EioConnect "e1" [];
                 AdminConnect "a1" [] (CredDict admin_credentials)]
                (toy_state (AuthDict admin_credentials) false))
    = 2
  ∧ tasks
      (exec_all [EioConnect "e1" [];
                 AdminConnect "a1" [] (CredDict admin_credentials)]
                (toy_state (AuthDict admin_credentials) false))
    = [StatsCreated; ConfigSleeping "a1"; StatsCreated]
  ∧ stats_task
      (exec_all [EioConnect "e1" [];
                 AdminConnect "a1" [] (CredDict admin_credentials)]
                (toy_state (AuthDict admin_credentials) false))
    = Some 2
  ∧ count_event "server_stats"
      (outbox
         (exec_all [EioConnect "e1" [];
                    AdminConnect "a1" [] (CredDict admin_credentials);
                    RunTask 0; RunTask 2; Tick; Tick; RunTask 0; RunTask 2]
                   (toy_state (AuthDict admin_credentials) false)))
    = 2
  ∧ running_stats_tasks
      (exec_all [AdminConnect "a1" [] (CredDict admin_credentials);
                 AdminConnect "a2" [] (CredDict admin_credentials)]
                (toy_state (AuthDict admin_credentials) false))
    = 2.
Proof. by vm_compute. Qed.

(** C2, counterexample.  The task sleeps with two time units left and has
    published nothing; shutdown sets the stop signal and waits: it returns
    only after the two units have passed, and by then one server_stats
    message has been published.  With less fuel than the sleep needs the
    wait is not over.  And once shutdown has returned, an admin connection
    starts a new publisher, which publishes a second server_stats message
    after its first interval. *)
Lemma shutdown_waits_for_the_sleep_and_publishes :
  tasks toy_sleeping !! 0 = Some (StatsSleeping 2 0 ["/"])
  ∧ count_event "server_stats" (outbox toy_sleeping) = 0
  ∧ (λ out, (out.1, clock out.2, count_event "server_stats" (outbox out.2)))
      <$> shutdown 4 toy_sleeping
    = Some (Ok (), (clock toy_sleeping + 2)%Z, 1)
  ∧ shutdown 3 toy_sleeping = None
  ∧ shutdown 4 toy_sleeping = Some (Ok (), toy_stopped)
  ∧ count_event "server_stats"
      (outbox
         (exec_all [AdminConnect "a1" [] CredNone; RunTask 2; Tick; Tick;
                    RunTask 2]
            toy_stopped))
    = 2.
Proof. by vm_compute. Qed.

(** C3, counterexample.  With the empty map as fixed credentials an
    attempt that supplies other credentials is accepted. *)
Lemma empty_map_accepts_other_credentials :
  auth (cfg (toy_state (AuthDict ∅) false)) = AuthDict ∅
  ∧ CredDict admin_credentials ≠ CredDict ∅
  ∧ (admin_connect "a1" [] (CredDict admin_credentials)
       (toy_state (AuthDict ∅) false)).1 = Ok ().
Proof.
  split; [done|]. split; [|by vm_compute].
  intros Heq.
  assert (admin_credentials !! "username" = (∅ : gmap string string) !! "username")
    as Hlookup by congruence.
  by vm_compute in Hlookup.
Qed.

(** C4. The code at the failing input.  The underlying room-leave raises:
    [_basic_leave_room] has already queued the room_left entry, where
    [_basic_enter_room] on the same server, which delegates first, raises
    with nothing queued, as does a leave written the way the join is.
    The exception reaches the caller, and the next flush of the stats
    task still publishes the room_left message for the leave that
    failed. *)
Theorem leave_room_queues_before_delegating :
  (_basic_leave_room "c1" "/chat" (Some "general") (toy_state AuthFalse true)).1
  = Raise (OtherError "underlying operation failed")
  ∧ admin_queue
      (_basic_leave_room "c1" "/chat" (Some "general")
         (toy_state AuthFalse true)).2
    = [("room_left", PRoom "/chat" "general" "c1" "T")]
  ∧ (_basic_enter_room "c1" "/chat" (Some "general") (Some "e1")
       (toy_state AuthFalse true)).1
    = Raise (OtherError "underlying operation failed")
  ∧ admin_queue
      (_basic_enter_room "c1" "/chat" (Some "general") (Some "e1")
         (toy_state AuthFalse true)).2
    = []
  ∧ admin_queue
      (leave_room_delegate_first "c1" "/chat" (Some "general")
         (toy_state AuthFalse true)).2
    = []
  ∧ count_event "room_left"
      (outbox
         (exec_all [LeaveRoom "c1" "/chat" (Some "general"); Tick; Tick;
                    RunTask 0]
            (set_sio (toy_world true) toy_sleeping)))
    = 1.
Proof. by vm_compute. Qed.

(** C5. The code at the failing input.  A disconnect is dispatched for a
    connection whose timestamp entry is gone (it was dispatched once
    already): the interceptor raises its own KeyError, publishes no
    socket_disconnected message and never calls the original dispatch,
    which would have returned a value. *)
Theorem stale_disconnect_is_not_forwarded :
  let out := _trigger_event "disconnect" "/" "c1" [PStr "transport close"]
               toy_disconnected in
  out.1 = Raise (KeyError "c1")
  ∧ outbox out.2 = outbox toy_disconnected
  ∧ toy_dispatched (sio out.2) = ["connect"; "disconnect"]
  ∧ (sio_trigger_event "disconnect" "/" "c1" [PStr "transport close"]
       (sio toy_disconnected)).1
    = Ok (PStr "disconnect").
Proof. by vm_compute. Qed.

(** C6. The code at the failing input.  After the connection has
    disconnected its identity is absent from the timestamp table.  The
    snapshot builder copes (issue time 0, empty time string), but a
    disconnect dispatched for that identity raises KeyError and leaves the
    state as it was. *)
Theorem stale_disconnect_raises_key_error :
  timestamps toy_disconnected !! "c1" = None
  ∧ (λ snap, (hs_issued (ss_handshake snap), hs_time (ss_handshake snap)))
      <$> (match (serialize_socket "c1" "/" (Some "e1") toy_disconnected).1 with
           | Ok snap => Some snap
           | Raise _ => None
           end)
    = Some (0%Z, EmptyString)
  ∧ _trigger_event "disconnect" "/" "c1" [PStr "transport close"]
      toy_disconnected
    = (Raise (KeyError "c1"), toy_disconnected).
Proof.
  split; [by vm_compute|]. split; [by vm_compute|].
  by apply disconnect_without_timestamp_raises.
Qed.

(** ** Instances of the theorems on the small server *)

(** The credentials of the examples are a non-empty map. *)
Lemma admin_credentials_not_empty : admin_credentials ≠ ∅.
Proof.
  intros Heq.
  assert (admin_credentials !! "username" = (∅ : gmap string string) !! "username")
    as Hlookup by congruence.
  by vm_compute in Hlookup.
Defined.

(** C3 on the small server: the configured credentials are accepted, a
    guess is rejected, and the config message of the run went to the
    connection that supplied the configured credentials. *)
Lemma fixed_map_authentication_witness :
  ((admin_connect "a2" [] (CredDict admin_credentials)
      (toy_state (AuthDict admin_credentials) false)).1 = Ok ()
   ↔ CredDict admin_credentials = CredDict admin_credentials)
  ∧ (CredStr "guess" ≠ CredDict admin_credentials →
     admin_connect "a1" [] (CredStr "guess")
       (toy_state (AuthDict admin_credentials) false)
     = (Raise (ConnectionRefusedError "authentication failed"),
        toy_state (AuthDict admin_credentials) false))
  ∧ ∃ sid env,
      msg_to toy_config_message = Some sid
      ∧ AdminConnect sid env (CredDict admin_credentials) ∈ toy_admin_trace.
Proof.
  destruct (fixed_map_authentication (W := toy)) as [Hgate Hnever].
  split; [|split].
  - apply (Hgate admin_credentials (toy_state (AuthDict admin_credentials) false)
             "a2" [] (CredDict admin_credentials) eq_refl
             admin_credentials_not_empty).
  - apply (Hgate admin_credentials (toy_state (AuthDict admin_credentials) false)
             "a1" [] (CredStr "guess") eq_refl admin_credentials_not_empty).
  - apply (Hnever admin_credentials (toy_config (AuthDict admin_credentials))
             (toy_world false) (toy_state (AuthDict admin_credentials) false)
             toy_admin_trace toy_config_message eq_refl
             admin_credentials_not_empty eq_refl);
      [|reflexivity].
    vm_compute. apply list_elem_of_here.
Defined.

(** C7 on the small server: a broadcast of event chat with the single
    argument hello reaches client [c1], and the notification carries
    [chat, hello]; a list payload is one argument. *)
Lemma emit_publishes_event_sent_witness :
  _emit "chat" (PStr "hello") "/" None SkipNone PNone (toy_state AuthFalse false)
  = (Ok PNone,
     set_outbox
       [{| msg_event := "event_sent";
           msg_data := PEvent "/" "c1" [PStr "chat"; PStr "hello"] "T";
           msg_to := None;
           msg_namespace := "/admin" |}]
       (toy_state AuthFalse false))
  ∧ event_data_of "chat" (PList [PInt 1; PInt 2])
    = [PStr "chat"; PList [PInt 1; PInt 2]].
Proof.
  destruct (emit_publishes_event_sent (W := toy))
    as (Hemit & _ & _ & _ & Hsingle).
  split.
  - pose proof (Hemit "chat" (PStr "hello") "/" None SkipNone PNone
                  (toy_state AuthFalse false)) as Hrun.
    vm_compute in Hrun. vm_compute. exact Hrun.
  - apply Hsingle. discriminate.
Defined.

(** C9 on the small server: one response of 100 bytes, one request
    declaring 42 bytes, one request declaring nothing. *)
Lemma transport_counters_witness :
  (let out := _eio_http_response PNone PNone PNone (toy_state AuthFalse false) in
   counter "packetsOut" out.2 = 1%Z ∧ counter "bytesOut" out.2 = 100%Z)
  ∧ (let out := _eio_handle_post_request "e1" [("CONTENT_LENGTH", "42")]
                  (toy_state AuthFalse false) in
     counter "packetsIn" out.2 = 1%Z ∧ counter "bytesIn" out.2 = 42%Z)
  ∧ (let out := _eio_handle_post_request "e1" [] (toy_state AuthFalse false) in
     counter "packetsIn" out.2 = 1%Z ∧ counter "bytesIn" out.2 = 0%Z).
Proof.
  destruct (transport_counters (W := toy)) as [Hout Hin].
  split; [|split].
  - destruct (Hout PNone PNone PNone (toy_state AuthFalse false)
                {| status := "200 OK"; response := repeat Byte.x00 100 |}
                (toy_world false) eq_refl)
      as (_ & _ & _ & Hpackets & Hbytes & _).
    split; [exact Hpackets|exact Hbytes].
  - destruct (Hin "e1" [("CONTENT_LENGTH", "42")] (toy_state AuthFalse false)
                PNone (toy_world false) 42%Z eq_refl)
      as (_ & _ & _ & Hpackets & Hbytes & _).
    + right. exists "42". split; reflexivity.
    + split; [exact Hpackets|exact Hbytes].
  - destruct (Hin "e1" [] (toy_state AuthFalse false)
                PNone (toy_world false) 0%Z eq_refl)
      as (_ & _ & _ & Hpackets & Hbytes & _).
    + left. split; reflexivity.
    + split; [exact Hpackets|exact Hbytes].
Defined.

(** C10 on the small server: the empty map and the empty allow-list pass
    construction and accept any credentials. *)
Lemma falsy_authenticator_disables_authentication_witness :
  (∃ s0, init (toy_config (AuthDict ∅)) (toy_world false) = Ok s0
         ∧ cfg s0 = toy_config (AuthDict ∅))
  ∧ (admin_connect "a1" [] (CredStr "anything")
       (toy_state (AuthDict ∅) false)).1 = Ok ()
  ∧ (admin_connect "a1" [] (CredStr "anything")
       (toy_state (AuthList []) false)).1 = Ok ().
Proof.
  destruct (falsy_authenticator_disables_authentication (W := toy))
    as (_ & Hinit & Hconnect).
  split; [|split].
  - apply (Hinit (toy_config (AuthDict ∅)) (toy_world false));
      [discriminate|reflexivity].
  - apply (Hconnect (toy_state (AuthDict ∅) false)). reflexivity.
  - apply (Hconnect (toy_state (AuthList []) false)). reflexivity.
Defined.

(** * Further properties of the layer *)

Section MoreFacts.
Context {W : Type} `{!Server W} `{!Transport W}.

Ltac mrun :=
  unfold bind, ret, raise, call, query, try_query, push, queue_append,
    sio_emit, now_iso, time_time, start_background_task in *.

Ltac counters :=
  unfold counter; cbn; unfold EventBuffer.push;
  repeat first [rewrite lookup_insert_eq | rewrite lookup_insert_ne by done];
  cbn; try done; try lia.

(** *** The persistent-socket path *)

Lemma counter_other_fields (name : string) (s s' : state W) :
  event_buffer s' = event_buffer s → counter name s' = counter name s.
Proof. unfold counter. by intros ->. Qed.

Lemma send_wrapper_state (data : ws_data) (s : state W) :
  _send data s
  = ((ws_send data (sio s)).1,
     set_sio (ws_send data (sio s)).2
       (set_event_buffer
          (EventBuffer.push "bytesOut" (Z.of_nat (ws_len data))
             (EventBuffer.push "packetsOut" 1 (event_buffer s))) s)).
Proof.
  unfold _send. mrun. cbn. by destruct (ws_send data (sio s)).
Qed.

Lemma wait_wrapper_state (s : state W) :
  _wait s
  = match ws_wait (sio s) with
    | (Ok ret, w') =>
        (Ok ret,
         set_event_buffer
           (EventBuffer.push "bytesIn" (Z.of_nat (ws_len_or_empty ret))
              (EventBuffer.push "packetsIn" 1 (event_buffer s)))
           (set_sio w' s))
    | (Raise e, w') => (Raise e, set_sio w' s)
    end.
Proof.
  unfold _wait. mrun. by destruct (ws_wait (sio s)) as [[ret|e] w'].
Qed.

(** X1. The websocket wrappers.  [_send] counts one outgoing packet and
    the length of the data before it sends, so a send that fails is
    counted too, and returns what the saved send returns.  [_wait] counts
    one incoming packet and the length of what was received only after the
    saved wait has returned; a wait that returns nothing counts a packet
    of zero bytes, and a wait that raises counts nothing. *)
Theorem websocket_wrappers_count :
  (∀ (data : ws_data) (s : state W),
     let out := _send data s in
     out.1 = (ws_send data (sio s)).1
     ∧ sio out.2 = (ws_send data (sio s)).2
     ∧ counter "packetsOut" out.2 = (counter "packetsOut" s + 1)%Z
     ∧ counter "bytesOut" out.2
       = (counter "bytesOut" s + Z.of_nat (ws_len data))%Z
     ∧ (∀ name, name ≠ "packetsOut" → name ≠ "bytesOut" →
                counter name out.2 = counter name s))
  ∧ (∀ (s : state W),
       let out := _wait s in
       out.1 = (ws_wait (sio s)).1
       ∧ sio out.2 = (ws_wait (sio s)).2
       ∧ match (ws_wait (sio s)).1 with
         | Ok ret =>
             counter "packetsIn" out.2 = (counter "packetsIn" s + 1)%Z
             ∧ counter "bytesIn" out.2
               = (counter "bytesIn" s + Z.of_nat (ws_len_or_empty ret))%Z
             ∧ (∀ name, name ≠ "packetsIn" → name ≠ "bytesIn" →
                        counter name out.2 = counter name s)
         | Raise _ => event_buffer out.2 = event_buffer s
         end)
  ∧ ws_len_or_empty None = 0
  ∧ ws_len_or_empty (Some (WsText EmptyString)) = 0.
Proof.
  split; [|split; [|done]].
  - intros data s. cbn zeta. rewrite send_wrapper_state. cbn [fst snd].
    repeat split; [counters..|intros name H1 H2; counters].
  - intros s. cbn zeta. rewrite wait_wrapper_state.
    destruct (ws_wait (sio s)) as [[ret|e] w']; cbn [fst snd]; [|done].
    repeat split; [counters..|intros name H1 H2; counters].
Qed.

Lemma traffic_counter_sent (name : string) (n : nat) (t : traffic) :
  traffic_counter name (add_sent n t)
  = (traffic_counter name t
     + (if decide (name = "packetsOut") then 1
        else if decide (name = "bytesOut") then Z.of_nat n else 0))%Z.
Proof.
  unfold traffic_counter, add_sent. cbn.
  repeat case_decide; subst; try done; lia.
Qed.

Lemma traffic_counter_received (name : string) (n : nat) (t : traffic) :
  traffic_counter name (add_received n t)
  = (traffic_counter name t
     + (if decide (name = "packetsIn") then 1
        else if decide (name = "bytesIn") then Z.of_nat n else 0))%Z.
Proof.
  unfold traffic_counter, add_received. cbn.
  repeat case_decide; subst; try done; lia.
Qed.

Lemma websocket_handler_run (h : ws_handler W) (s : state W) :
  ∃ b,
    _eio_websocket_handler h s
    = ((run_handler h (sio s)).1,
       set_sio (run_handler h (sio s)).2 (set_event_buffer b s))
    ∧ ∀ name,
        default 0%Z (b !! name)
        = (counter name s + traffic_counter name (handler_traffic h (sio s)))%Z.
Proof.
  revert s. induction h as [r|data k IH|k IH|f k IH]; intros s.
  - exists (event_buffer s). cbn. split; [by destruct s|].
    intros name. unfold counter, traffic_counter. cbn.
    repeat case_decide; lia.
  - cbn [_eio_websocket_handler run_handler handler_traffic].
    rewrite send_wrapper_state.
    destruct (ws_send data (sio s)) as [r w'] eqn:Hsend. cbn [fst snd].
    destruct (IH r (set_sio w'
                      (set_event_buffer
                         (EventBuffer.push "bytesOut" (Z.of_nat (ws_len data))
                            (EventBuffer.push "packetsOut" 1 (event_buffer s)))
                         s)))
      as (b & -> & Hb).
    exists b. split; [done|]. intros name. rewrite Hb.
    rewrite traffic_counter_sent. cbn [sio set_sio].
    assert (counter name
              (set_sio w'
                 (set_event_buffer
                    (EventBuffer.push "bytesOut" (Z.of_nat (ws_len data))
                       (EventBuffer.push "packetsOut" 1 (event_buffer s)))
                    s))
            = (counter name s
               + (if decide (name = "packetsOut") then 1
                  else if decide (name = "bytesOut")
                       then Z.of_nat (ws_len data) else 0))%Z) as ->.
    { repeat case_decide; subst; counters. }
    lia.
  - cbn [_eio_websocket_handler run_handler handler_traffic].
    rewrite wait_wrapper_state.
    destruct (ws_wait (sio s)) as [[ret|e] w'] eqn:Hwait; cbn [fst snd].
    + destruct (IH (Ok ret)
                  (set_event_buffer
                     (EventBuffer.push "bytesIn"
                        (Z.of_nat (ws_len_or_empty ret))
                        (EventBuffer.push "packetsIn" 1 (event_buffer s)))
                     (set_sio w' s)))
        as (b & -> & Hb).
      exists b. split; [done|]. intros name. rewrite Hb.
      rewrite traffic_counter_received. cbn [sio set_sio set_event_buffer].
      assert (counter name
                (set_event_buffer
                   (EventBuffer.push "bytesIn"
                      (Z.of_nat (ws_len_or_empty ret))
                      (EventBuffer.push "packetsIn" 1 (event_buffer s)))
                   (set_sio w' s))
              = (counter name s
                 + (if decide (name = "packetsIn") then 1
                    else if decide (name = "bytesIn")
                         then Z.of_nat (ws_len_or_empty ret) else 0))%Z) as ->.
      { repeat case_decide; subst; counters. }
      lia.
    + destruct (IH (Raise e) (set_sio w' s)) as (b & -> & Hb).
      exists b. split; [done|]. intros name. by rewrite Hb.
  - cbn [_eio_websocket_handler run_handler handler_traffic].
    destruct (IH (sio s) (set_sio (f (sio s)) s)) as (b & -> & Hb).
    exists b. split; [done|]. intros name. by rewrite Hb.
Qed.

(** X2. The instrumented websocket handler counts the traffic of the
    handler.  Whatever the original handler does with the websocket,
    running it on the wrapped websocket gives the same result and leaves
    the wrapped server as the original run does, and each counter grows
    by exactly the traffic of that run: one packet and the data length
    per send the handler makes, one packet and the received length per
    wait that returns. *)
Theorem websocket_handler_is_observational (h : ws_handler W) (s : state W) :
  let out := _eio_websocket_handler h s in
  out.1 = (run_handler h (sio s)).1
  ∧ sio out.2 = (run_handler h (sio s)).2
  ∧ (∀ name,
       counter name out.2
       = (counter name s + traffic_counter name (handler_traffic h (sio s)))%Z).
Proof.
  cbn zeta. destruct (websocket_handler_run h s) as (b & -> & Hb).
  cbn. repeat split; done.
Qed.

(** *** The snapshot builder and the ping hook *)

Lemma serialize_socket_result (sid namespace eio_sid : string) (s : state W) :
  serialize_socket sid namespace (Some eio_sid) s
  = match eio_get_socket eio_sid (sio s) with
    | Ok sk =>
        (Ok {| ss_id := sid;
               ss_clientId := eio_sid;
               ss_transport := if upgraded sk then "websocket" else "polling";
               ss_nsp := namespace;
               ss_handshake :=
                 let env := default [] (sio_environ (sio s) !! eio_sid) in
                 let tm := default 0%Z (timestamps s !! sid) in
                 {| hs_address := env_get env "REMOTE_ADDR" EmptyString;
                    hs_headers := handshake_headers env;
                    hs_query :=
                      handshake_query (env_get env "QUERY_STRING" EmptyString);
                    hs_secure :=
                      bool_decide
                        (env_get env "wsgi.url_scheme" EmptyString = "https");
                    hs_url := env_get env "PATH_INFO" EmptyString;
                    hs_issued := tm * 1000;
                    hs_time :=
                      if decide (tm = 0%Z) then EmptyString else isoformat tm |};
               ss_rooms := manager_get_rooms sid namespace (sio s) |}, s)
    | Raise e => (Raise e, s)
    end.
Proof.
  unfold serialize_socket. mrun. cbn.
  by destruct (eio_get_socket eio_sid (sio s)).
Qed.

Lemma ping_step_publishes (eio_sid iso namespace : string) (sk : eio_socket)
  (s : state W) :
  eio_get_socket eio_sid (sio s) = Ok sk →
  ∃ msgs,
    bind (query (manager_sid_from_eio_sid eio_sid namespace)) (λ sid,
      match sid_truthy sid with
      | Some sid =>
          bind (serialize_socket sid namespace (Some eio_sid))
            (λ serialized_socket,
               sio_emit "socket_connected"
                 (PSocketConnected serialized_socket iso) None)
      | None => ret ()
      end) s
    = (Ok (), set_outbox (outbox s ++ msgs) s)
    ∧ Forall2 (ping_message eio_sid iso) msgs
        (option_list
           ((λ sid, (namespace, sid))
              <$> sid_truthy
                    (manager_sid_from_eio_sid eio_sid namespace (sio s)))).
Proof.
  intros Hsk. unfold bind at 1, query.
  destruct (sid_truthy (manager_sid_from_eio_sid eio_sid namespace (sio s)))
    as [sid|]; cbn [fmap option_fmap option_map option_list].
  - unfold bind at 1. rewrite serialize_socket_result, Hsk.
    eexists [_]. split; [done|].
    constructor; [|constructor]. repeat split. by eexists.
  - exists []. split; [|constructor].
    unfold ret. by rewrite app_nil_r, set_outbox_id.
Qed.

Lemma ping_loop_publishes (eio_sid iso : string) (sk : eio_socket)
  (nss : list string) (s : state W) :
  eio_get_socket eio_sid (sio s) = Ok sk →
  ∃ msgs,
    for_each nss
      (λ namespace,
         bind (query (manager_sid_from_eio_sid eio_sid namespace)) (λ sid,
         match sid_truthy sid with
         | Some sid =>
             bind (serialize_socket sid namespace (Some eio_sid))
               (λ serialized_socket,
                  sio_emit "socket_connected"
                    (PSocketConnected serialized_socket iso) None)
         | None => ret ()
         end)) s
    = (Ok (), set_outbox (outbox s ++ msgs) s)
    ∧ Forall2 (ping_message eio_sid iso) msgs
        (omap (λ namespace,
                 (λ sid, (namespace, sid))
                   <$> sid_truthy
                         (manager_sid_from_eio_sid eio_sid namespace (sio s)))
              nss).
Proof.
  intros Hsk. revert s Hsk. induction nss as [|ns nss IH]; intros s Hsk.
  - exists []. cbn. split; [|constructor].
    unfold ret. by rewrite app_nil_r, set_outbox_id.
  - cbn [for_each]. unfold bind at 1. cbv beta.
    destruct (ping_step_publishes eio_sid iso ns sk s Hsk)
      as (l & Hstep & Hl).
    rewrite Hstep.
    destruct (IH (set_outbox (outbox s ++ l) s) Hsk) as (msgs & Hloop & Hmsgs).
    rewrite Hloop. exists (l ++ msgs). split.
    + cbn. by rewrite <- app_assoc.
    + cbn [omap list_omap].
      destruct (sid_truthy (manager_sid_from_eio_sid eio_sid ns (sio s)));
        cbn in *.
      * inversion Hl as [|m t l' ts Hm Hnil]; subst.
        inversion Hnil; subst. cbn. by constructor.
      * inversion Hl; subst. exact Hmsgs.
Qed.

(** X3. The ping hook.  When the transport socket is known to the
    Engine.IO server, the hook publishes exactly one socket_connected
    message for each namespace in which the connection has an identity, in
    the order of the namespaces, each with a snapshot of that identity
    stamped with the time of the ping; it then sends the original ping and
    returns its result.  Timestamps, counters and the queue are left
    alone.  When the socket lookup fails and the connection has an
    identity somewhere, the exception propagates, nothing is published
    and the original ping is not sent. *)
Theorem ping_hook_publishes_snapshots :
  (∀ (eio_sid : string) (sk : eio_socket) (s : state W),
     eio_get_socket eio_sid (sio s) = Ok sk →
     ∃ msgs,
       _eio_send_ping eio_sid s
       = ((socket_send_ping eio_sid (sio s)).1,
          set_sio (socket_send_ping eio_sid (sio s)).2
            (set_outbox (outbox s ++ msgs) s))
       ∧ Forall2 (ping_message eio_sid (isoformat (clock s))) msgs
           (ping_targets eio_sid (sio s)))
  ∧ (∀ (eio_sid : string) (e : exn) (s : state W),
       eio_get_socket eio_sid (sio s) = Raise e →
       ping_targets eio_sid (sio s) ≠ [] →
       _eio_send_ping eio_sid s = (Raise e, s)).
Proof.
  split.
  - intros eio_sid sk s Hsk. unfold _eio_send_ping.
    unfold bind at 1, time_time. cbv beta iota.
    unfold bind at 1. unfold query at 1. cbv beta iota. unfold bind at 1.
    destruct (ping_loop_publishes eio_sid (isoformat (clock s)) sk
                (manager_get_namespaces (sio s)) s Hsk)
      as (msgs & -> & Hmsgs).
    exists msgs. split; [|exact Hmsgs].
    unfold call. cbn [sio set_outbox].
    by destruct (socket_send_ping eio_sid (sio s)).
  - intros eio_sid e s Hfail Htargets. unfold _eio_send_ping.
    unfold bind at 1, time_time. cbv beta iota.
    unfold bind at 1. unfold query at 1. cbv beta iota. unfold bind at 1.
    unfold ping_targets in Htargets.
    assert (for_each (manager_get_namespaces (sio s))
              (λ namespace,
                 bind (query (manager_sid_from_eio_sid eio_sid namespace))
                   (λ sid,
                      match sid_truthy sid with
                      | Some sid =>
                          bind
                            (serialize_socket sid namespace (Some eio_sid))
                            (λ serialized_socket,
                               sio_emit "socket_connected"
                                 (PSocketConnected serialized_socket
                                    (isoformat (clock s))) None)
                      | None => ret ()
                      end)) s = (Raise e, s)) as ->; [|done].
    induction (manager_get_namespaces (sio s)) as [|ns nss IH]; [done|].
    cbn [for_each]. unfold bind at 1. unfold bind at 1, query.
    cbn [omap list_omap] in Htargets.
    destruct (sid_truthy (manager_sid_from_eio_sid eio_sid ns (sio s)))
      as [sid|] eqn:Hsid.
    + unfold bind at 1. by rewrite serialize_socket_result, Hfail.
    + unfold ret at 1. apply IH. exact Htargets.
Qed.

(** X4. The snapshot builder only reads.  Given the transport identity,
    it leaves the whole state as it is; it fails exactly when the
    Engine.IO socket lookup fails, with that exception; otherwise the
    snapshot carries the identities and namespace it was asked for, the
    transport is websocket exactly when the socket is upgraded, the issue
    time is a thousand times the recorded timestamp (zero when there is
    none, and then the time string is empty), and a connection without a
    stored environment gets empty address, url and headers and is not
    secure. *)
Theorem snapshot_builder_only_reads (sid namespace eio_sid : string)
  (s : state W) :
  (serialize_socket sid namespace (Some eio_sid) s).2 = s
  ∧ match eio_get_socket eio_sid (sio s) with
    | Ok sk =>
        ∃ snap,
          (serialize_socket sid namespace (Some eio_sid) s).1 = Ok snap
          ∧ ss_id snap = sid
          ∧ ss_clientId snap = eio_sid
          ∧ ss_nsp snap = namespace
          ∧ ss_rooms snap = manager_get_rooms sid namespace (sio s)
          ∧ ss_transport snap
            = (if upgraded sk then "websocket" else "polling")
          ∧ hs_issued (ss_handshake snap)
            = (default 0 (timestamps s !! sid) * 1000)%Z
          ∧ (default 0%Z (timestamps s !! sid) = 0%Z →
             hs_time (ss_handshake snap) = EmptyString)
          ∧ (default 0%Z (timestamps s !! sid) ≠ 0%Z →
             hs_time (ss_handshake snap)
             = isoformat (default 0%Z (timestamps s !! sid)))
          ∧ (sio_environ (sio s) !! eio_sid = None →
             (hs_address (ss_handshake snap), hs_url (ss_handshake snap),
              hs_headers (ss_handshake snap), hs_secure (ss_handshake snap))
             = (EmptyString, EmptyString, ∅, false))
    | Raise e =>
        (serialize_socket sid namespace (Some eio_sid) s).1 = Raise e
    end.
Proof.
  rewrite serialize_socket_result.
  destruct (eio_get_socket eio_sid (sio s)) as [sk|e]; [|done].
  split; [done|]. eexists. split; [done|]. cbn.
  repeat split; try done.
  - intros H0. by rewrite decide_True.
  - intros H0. by rewrite decide_False.
  - intros Henv. unfold environ in *. by rewrite Henv.
Qed.

(** *** The headers of a handshake *)

Lemma lower_ascii_idempotent (c : ascii) :
  lower_ascii (lower_ascii c) = lower_ascii c.
Proof.
  unfold lower_ascii.
  destruct ((65 <=? nat_of_ascii c)%nat && (nat_of_ascii c <=? 90)%nat)
    eqn:Hupper; [|by rewrite Hupper].
  apply andb_true_iff in Hupper as [Hlo Hhi].
  apply Nat.leb_le in Hlo, Hhi.
  rewrite nat_ascii_embedding by lia.
  assert ((nat_of_ascii c + 32 <=? 90)%nat = false) as ->
    by (apply Nat.leb_gt; lia).
  by rewrite andb_false_r.
Qed.

Lemma lower_idempotent (s : string) : lower (lower s) = lower s.
Proof.
  induction s as [|c s IH]; [done|]. cbn.
  by rewrite lower_ascii_idempotent, IH.
Qed.

Lemma handshake_headers_snoc (env : environ) (k v : string) :
  handshake_headers (env ++ [(k, v)])
  = if startswith "HTTP_" k
    then <[lower (drop_chars 5 k) := v]> (handshake_headers env)
    else handshake_headers env.
Proof. unfold handshake_headers. by rewrite foldl_snoc. Qed.

Lemma handshake_headers_sound (env : environ) (h v : string) :
  handshake_headers env !! h = Some v →
  ∃ k, (k, v) ∈ env ∧ startswith "HTTP_" k = true
       ∧ h = lower (drop_chars 5 k).
Proof.
  induction env as [|[k' v'] env IH] using rev_ind; [done|].
  rewrite handshake_headers_snoc. intros Hh.
  assert ((∃ k, (k, v) ∈ env ∧ startswith "HTTP_" k = true
                ∧ h = lower (drop_chars 5 k)) →
          ∃ k, (k, v) ∈ env ++ [(k', v')] ∧ startswith "HTTP_" k = true
               ∧ h = lower (drop_chars 5 k)) as Hweaken.
  { intros (k & Hin & Hk). exists k. split; [|done].
    apply elem_of_app. by left. }
  destruct (startswith "HTTP_" k') eqn:Hprefix; [|by apply Hweaken, IH].
  destruct (decide (lower (drop_chars 5 k') = h)) as [<-|Hne].
  - rewrite lookup_insert_eq in Hh. injection Hh as ->.
    exists k'. split; [|done]. apply elem_of_app. right.
    by apply list_elem_of_singleton.
  - rewrite lookup_insert_ne in Hh by done. by apply Hweaken, IH.
Qed.

Lemma handshake_headers_last (env1 env2 : environ) (k v : string) :
  startswith "HTTP_" k = true →
  (∀ k' v', (k', v') ∈ env2 → startswith "HTTP_" k' = true →
            lower (drop_chars 5 k') ≠ lower (drop_chars 5 k)) →
  handshake_headers (env1 ++ (k, v) :: env2) !! lower (drop_chars 5 k)
  = Some v.
Proof.
  intros Hk. induction env2 as [|[k' v'] env2 IH] using rev_ind; intros Hlater.
  - rewrite handshake_headers_snoc, Hk. apply lookup_insert_eq.
  - rewrite app_comm_cons, app_assoc, handshake_headers_snoc.
    assert (handshake_headers (env1 ++ (k, v) :: env2)
              !! lower (drop_chars 5 k) = Some v) as Hprev.
    { apply IH. intros k'' v'' Hin. apply (Hlater k'' v'').
      apply elem_of_app. by left. }
    destruct (startswith "HTTP_" k') eqn:Hprefix; [|done].
    rewrite lookup_insert_ne; [done|].
    apply (Hlater k' v'); [|done]. apply elem_of_app. right.
    by apply list_elem_of_singleton.
Qed.

(** X5. The headers of a snapshot.  Every header comes from an
    environment entry whose key starts with HTTP_, under that key without
    the prefix and in lower case, with the entry's value; header names
    are in lower case; an environment without such keys gives no header;
    and when several entries collapse to one header name the last one in
    the environment wins. *)
Theorem handshake_headers_from_http_keys :
  (∀ (env : environ) (h v : string),
     handshake_headers env !! h = Some v →
     lower h = h
     ∧ ∃ k, (k, v) ∈ env ∧ startswith "HTTP_" k = true
            ∧ h = lower (drop_chars 5 k))
  ∧ (∀ env : environ,
       Forall (λ kv, startswith "HTTP_" kv.1 = false) env →
       handshake_headers env = ∅)
  ∧ (∀ (env1 env2 : environ) (k v : string),
       startswith "HTTP_" k = true →
       (∀ k' v', (k', v') ∈ env2 → startswith "HTTP_" k' = true →
                 lower (drop_chars 5 k') ≠ lower (drop_chars 5 k)) →
       handshake_headers (env1 ++ (k, v) :: env2) !! lower (drop_chars 5 k)
       = Some v).
Proof.
  split; [|split].
  - intros env h v Hh.
    destruct (handshake_headers_sound env h v Hh) as (k & Hin & Hk & ->).
    split; [apply lower_idempotent|]. by exists k.
  - intros env Hnone.
    induction env as [|[k v] env IH] using rev_ind; [done|].
    apply Forall_app in Hnone as [Henv Hlast].
    apply (proj1 (Forall_singleton _ _)) in Hlast.
    change (startswith "HTTP_" k = false) in Hlast.
    rewrite handshake_headers_snoc, Hlast. by apply IH.
  - apply handshake_headers_last.
Qed.

(** *** The lifecycle interceptor *)

Lemma call_keeps_layer {A} (f : W → res A * W) (s : state W) :
  timestamps (call f s).2 = timestamps s
  ∧ outbox (call f s).2 = outbox s
  ∧ (call f s).1 = (f (sio s)).1
  ∧ sio (call f s).2 = (f (sio s)).2.
Proof. unfold call. by destruct (f (sio s)). Qed.

(** X6. The timestamp table follows the dispatches.  A connect dispatch
    whose lookups succeed records the current time for the connection,
    whatever the original dispatch then returns or raises; a disconnect
    dispatch for a recorded connection removes exactly its entry; any
    other event leaves the table alone; and a connect followed by a
    disconnect of a connection that had no entry gives the table back as
    it was. *)
Theorem timestamp_table_follows_dispatch :
  (∀ (namespace sid eio_sid : string) (sk : eio_socket) (rest : list pyval)
     (s : state W),
     manager_eio_sid_from_sid sid (Some namespace) (sio s) = Ok eio_sid →
     eio_get_socket eio_sid (sio s) = Ok sk →
     timestamps (_trigger_event "connect" namespace sid rest s).2
     = <[sid := clock s]> (timestamps s))
  ∧ (∀ (namespace sid : string) (reason : pyval) (rest : list pyval) (t0 : Z)
       (s : state W),
       timestamps s !! sid = Some t0 →
       timestamps
         (_trigger_event "disconnect" namespace sid (reason :: rest) s).2
       = delete sid (timestamps s))
  ∧ (∀ (event namespace sid : string) (rest : list pyval) (s : state W),
       event ≠ "connect" → event ≠ "disconnect" →
       timestamps (_trigger_event event namespace sid rest s).2
       = timestamps s)
  ∧ (∀ (namespace sid eio_sid : string) (sk : eio_socket)
       (rest : list pyval) (reason : pyval) (s : state W),
       manager_eio_sid_from_sid sid (Some namespace) (sio s) = Ok eio_sid →
       eio_get_socket eio_sid (sio s) = Ok sk →
       timestamps s !! sid = None →
       timestamps
         (_trigger_event "disconnect" namespace sid [reason]
            (_trigger_event "connect" namespace sid rest s).2).2
       = timestamps s).
Proof.
  assert (∀ (namespace sid eio_sid : string) (sk : eio_socket)
            (rest : list pyval) (s : state W),
            manager_eio_sid_from_sid sid (Some namespace) (sio s) = Ok eio_sid →
            eio_get_socket eio_sid (sio s) = Ok sk →
            timestamps (_trigger_event "connect" namespace sid rest s).2
            = <[sid := clock s]> (timestamps s)) as Hconnect.
  { intros namespace sid eio_sid sk rest s Heio Hsk.
    destruct (connect_publishes_then_forwards namespace sid eio_sid sk rest s
                Heio Hsk) as (snap & _ & ->).
    by destruct (call_keeps_layer
                   (sio_trigger_event "connect" namespace sid rest)
                   (set_outbox
                      (outbox s ++
                         [{| msg_event := "socket_connected";
                             msg_data :=
                               PSocketConnected snap (isoformat (clock s));
                             msg_to := None;
                             msg_namespace := admin_namespace (cfg s) |}])
                      (set_timestamps (<[sid := clock s]> (timestamps s)) s)))
      as (-> & _). }
  assert (∀ (namespace sid : string) (reason : pyval) (rest : list pyval)
            (t0 : Z) (s : state W),
            timestamps s !! sid = Some t0 →
            timestamps
              (_trigger_event "disconnect" namespace sid (reason :: rest) s).2
            = delete sid (timestamps s)) as Hdisconnect.
  { intros namespace sid reason rest t0 s Hts.
    rewrite (disconnect_publishes_then_forwards namespace sid reason rest t0 s
               Hts).
    by destruct (call_keeps_layer
                   (sio_trigger_event "disconnect" namespace sid
                      (reason :: rest))
                   (set_outbox
                      (outbox s ++
                         [{| msg_event := "socket_disconnected";
                             msg_data :=
                               PSocketDisconnected namespace sid reason
                                 (isoformat (clock s));
                             msg_to := None;
                             msg_namespace := admin_namespace (cfg s) |}])
                      (set_timestamps (delete sid (timestamps s)) s)))
      as (-> & _). }
  split; [exact Hconnect|]. split; [exact Hdisconnect|]. split.
  - intros event namespace sid rest s Hc Hd.
    rewrite (event_publishes_then_forwards event namespace sid rest s Hc Hd).
    by destruct (call_keeps_layer
                   (sio_trigger_event event namespace sid rest)
                   (set_outbox
                      (outbox s ++
                         [{| msg_event := "event_received";
                             msg_data :=
                               PEvent namespace sid (PStr event :: rest)
                                 (isoformat (clock s));
                             msg_to := None;
                             msg_namespace := admin_namespace (cfg s) |}])
                      s))
      as (-> & _).
  - intros namespace sid eio_sid sk rest reason s Heio Hsk Hnone.
    pose proof (Hconnect namespace sid eio_sid sk rest s Heio Hsk) as Hc.
    rewrite (Hdisconnect namespace sid reason [] (clock s)).
    + rewrite Hc, delete_insert_eq. by apply delete_id.
    + rewrite Hc. apply lookup_insert_eq.
Qed.

(** X7. A disconnect dispatched without a reason.  The entry of the
    connection has already been deleted when the missing reason is
    noticed: the interceptor raises IndexError, publishes nothing and does
    not call the original dispatch, and the timestamp is gone. *)
Theorem disconnect_without_reason_loses_timestamp (namespace sid : string)
  (t0 : Z) (s : state W) :
  timestamps s !! sid = Some t0 →
  _trigger_event "disconnect" namespace sid [] s
  = (Raise (IndexError "tuple index out of range"),
     set_timestamps (delete sid (timestamps s)) s).
Proof.
  intros Hts. unfold _trigger_event. unfold bind at 1, time_time.
  unfold bind at 1. repeat case_decide; try done.
  unfold bind at 1, del_timestamp. rewrite Hts.
  by unfold bind at 1, index.
Qed.

(** X8. Dispatches whose bookkeeping completes.  For an event other than
    connect and disconnect, on any namespace, for a disconnect of a
    recorded connection that carries a reason, and for a connect whose
    lookups succeed, the interceptor publishes exactly one notification
    (event_received, socket_disconnected, socket_connected) and then runs
    the original dispatch on the server as it was: the result of the
    interceptor is the result of the original dispatch, value or
    exception, and the notification stays published when it raises. *)
Theorem dispatch_publishes_once_then_forwards :
  (∀ (event namespace sid : string) (rest : list pyval) (s : state W),
     event ≠ "connect" → event ≠ "disconnect" →
     let out := _trigger_event event namespace sid rest s in
     out.1 = (sio_trigger_event event namespace sid rest (sio s)).1
     ∧ sio out.2 = (sio_trigger_event event namespace sid rest (sio s)).2
     ∧ outbox out.2
       = outbox s
         ++ [{| msg_event := "event_received";
                msg_data := PEvent namespace sid (PStr event :: rest)
                              (isoformat (clock s));
                msg_to := None;
                msg_namespace := admin_namespace (cfg s) |}])
  ∧ (∀ (namespace sid : string) (reason : pyval) (rest : list pyval) (t0 : Z)
       (s : state W),
       timestamps s !! sid = Some t0 →
       let out :=
         _trigger_event "disconnect" namespace sid (reason :: rest) s in
       out.1
       = (sio_trigger_event "disconnect" namespace sid (reason :: rest)
            (sio s)).1
       ∧ sio out.2
         = (sio_trigger_event "disconnect" namespace sid (reason :: rest)
              (sio s)).2
       ∧ outbox out.2
         = outbox s
           ++ [{| msg_event := "socket_disconnected";
                  msg_data := PSocketDisconnected namespace sid reason
                                (isoformat (clock s));
                  msg_to := None;
                  msg_namespace := admin_namespace (cfg s) |}])
  ∧ (∀ (namespace sid eio_sid : string) (sk : eio_socket)
       (rest : list pyval) (s : state W),
       manager_eio_sid_from_sid sid (Some namespace) (sio s) = Ok eio_sid →
       eio_get_socket eio_sid (sio s) = Ok sk →
       let out := _trigger_event "connect" namespace sid rest s in
       out.1 = (sio_trigger_event "connect" namespace sid rest (sio s)).1
       ∧ sio out.2 = (sio_trigger_event "connect" namespace sid rest (sio s)).2
       ∧ ∃ snap,
           hs_issued (ss_handshake snap) = (clock s * 1000)%Z
           ∧ outbox out.2
             = outbox s
               ++ [{| msg_event := "socket_connected";
                      msg_data := PSocketConnected snap (isoformat (clock s));
                      msg_to := None;
                      msg_namespace := admin_namespace (cfg s) |}]).
Proof.
  split; [|split].
  - intros event namespace sid rest s Hc Hd. cbn zeta.
    rewrite (event_publishes_then_forwards event namespace sid rest s Hc Hd).
    unfold call. cbn [sio set_outbox].
    by destruct (sio_trigger_event event namespace sid rest (sio s)).
  - intros namespace sid reason rest t0 s Hts. cbn zeta.
    rewrite (disconnect_publishes_then_forwards namespace sid reason rest t0 s
               Hts).
    unfold call. cbn [sio set_outbox set_timestamps].
    by destruct (sio_trigger_event "disconnect" namespace sid (reason :: rest)
                   (sio s)).
  - intros namespace sid eio_sid sk rest s Heio Hsk. cbn zeta.
    destruct (connect_publishes_then_forwards namespace sid eio_sid sk rest s
                Heio Hsk) as (snap & Hissued & ->).
    unfold call. cbn [sio set_outbox set_timestamps].
    destruct (sio_trigger_event "connect" namespace sid rest (sio s)).
    cbn. repeat split; try done. by exists snap.
Qed.

(** *** The transport counters at the edges *)

Lemma eio_disconnect_state (eio_sid : string) (reason : pyval) (s : state W) :
  _handle_eio_disconnect eio_sid reason s
  = ((sio_handle_eio_disconnect eio_sid reason (sio s)).1,
     set_sio (sio_handle_eio_disconnect eio_sid reason (sio s)).2
       (set_event_buffer
          (EventBuffer.push "rawDisconnection" 1 (event_buffer s)) s)).
Proof.
  unfold _handle_eio_disconnect. mrun. cbn.
  by destruct (sio_handle_eio_disconnect eio_sid reason (sio s)).
Qed.

(** X9. Raw connections and disconnections are counted before the
    original handler runs: the counter grows by one whether the handler
    returns or raises, no other counter moves, and the handler's result
    and the server it leaves are handed back unchanged. *)
Theorem raw_connections_are_counted_first :
  (∀ (eio_sid : string) (env : environ) (s : state W),
     let out := _handle_eio_connect eio_sid env s in
     out.1 = (sio_handle_eio_connect eio_sid env (sio s)).1
     ∧ sio out.2 = (sio_handle_eio_connect eio_sid env (sio s)).2
     ∧ counter "rawConnection" out.2 = (counter "rawConnection" s + 1)%Z
     ∧ (∀ name, name ≠ "rawConnection" →
                counter name out.2 = counter name s))
  ∧ (∀ (eio_sid : string) (reason : pyval) (s : state W),
       let out := _handle_eio_disconnect eio_sid reason s in
       out.1 = (sio_handle_eio_disconnect eio_sid reason (sio s)).1
       ∧ sio out.2 = (sio_handle_eio_disconnect eio_sid reason (sio s)).2
       ∧ counter "rawDisconnection" out.2
         = (counter "rawDisconnection" s + 1)%Z
       ∧ (∀ name, name ≠ "rawDisconnection" →
                  counter name out.2 = counter name s)).
Proof.
  split.
  - intros eio_sid env s. cbn zeta. rewrite eio_connect_state. cbn [fst snd].
    repeat split; try (intros name Hname);
      destruct (stop_stats_event s); counters.
  - intros eio_sid reason s. cbn zeta. rewrite eio_disconnect_state.
    cbn [fst snd]. repeat split; try (intros name Hname); counters.
Qed.

(** X10. A response that could not be built and a request that could not
    be handled are not counted: when the underlying operation raises, the
    wrapper raises the same exception and the aggregation buffer, the
    outbox and the queue are as before. *)
Theorem failed_transport_calls_are_not_counted :
  (∀ (packets headers jsonp_index : pyval) (e : exn) (w' : W) (s : state W),
     eio_ok packets headers jsonp_index (sio s) = (Raise e, w') →
     _eio_http_response packets headers jsonp_index s
     = (Raise e, set_sio w' s))
  ∧ (∀ (socket : string) (env : environ) (e : exn) (w' : W) (s : state W),
       socket_handle_post_request socket env (sio s) = (Raise e, w') →
       _eio_handle_post_request socket env s = (Raise e, set_sio w' s)).
Proof.
  split.
  - intros packets headers jsonp_index e w' s Hfail.
    unfold _eio_http_response. unfold bind at 1, call. by rewrite Hfail.
  - intros socket env e w' s Hfail.
    unfold _eio_handle_post_request. unfold bind at 1, call. by rewrite Hfail.
Qed.

(** X11. A request with a malformed content length.  When the underlying
    socket has handled the request and the declared content length is
    not a decimal number (the empty string, say), the wrapper raises
    ValueError in place of the result of the handled request; the packet
    has been counted and the bytes have not. *)
Theorem malformed_content_length_raises (socket : string) (env : environ)
  (v : string) (r : pyval) (w' : W) (s : state W) :
  socket_handle_post_request socket env (sio s) = (Ok r, w') →
  env_lookup env "CONTENT_LENGTH" = Some v →
  plain_text v = true →
  py_int v = None →
  let out := _eio_handle_post_request socket env s in
  out.1 = Raise (ValueError "invalid literal for int() with base 10")
  ∧ sio out.2 = w'
  ∧ counter "packetsIn" out.2 = (counter "packetsIn" s + 1)%Z
  ∧ counter "bytesIn" out.2 = counter "bytesIn" s.
Proof.
  intros Hok Hlen _ Hint. cbn zeta.
  unfold _eio_handle_post_request, content_length. mrun.
  rewrite Hok, Hlen, Hint. cbn. repeat split; counters.
Qed.

(** *** The config task *)

Lemma snapshots_of_participants (visited : list (string * (string * string)))
  (s : state W) :
  Forall (λ v, ∃ sk, eio_get_socket v.2.2 (sio s) = Ok sk) visited →
  ∃ snaps,
    map_m (λ v : string * (string * string),
             serialize_socket v.2.1 v.1 (Some v.2.2)) visited s
    = (Ok snaps, s)
    ∧ Forall2 (λ snap v, ss_nsp snap = v.1 ∧ ss_id snap = v.2.1
                         ∧ ss_clientId snap = v.2.2) snaps visited.
Proof.
  induction 1 as [|v visited [sk Hsk] _ (snaps & IH & Hsnaps)].
  - exists []. split; [done|constructor].
  - cbn [map_m]. unfold bind at 1.
    rewrite serialize_socket_result, Hsk. unfold bind at 1. rewrite IH.
    eexists (_ :: snaps). split; [done|]. by constructor.
Qed.

Lemma snapshots_fail (visited : list (string * (string * string)))
  (s : state W) :
  ¬ Forall (λ v, ∃ sk, eio_get_socket v.2.2 (sio s) = Ok sk) visited →
  ∃ e,
    map_m (λ v : string * (string * string),
             serialize_socket v.2.1 v.1 (Some v.2.2)) visited s
    = (Raise e, s).
Proof.
  induction visited as [|v visited IH]; intros Hnot.
  - destruct Hnot. constructor.
  - cbn [map_m]. unfold bind at 1. rewrite serialize_socket_result.
    destruct (eio_get_socket v.2.2 (sio s)) as [sk|e] eqn:Hsk;
      [|by exists e].
    destruct IH as [e He].
    { intros Hall. apply Hnot. constructor; [by exists sk|done]. }
    exists e. unfold bind at 1. by rewrite He.
Qed.

(** X12. The messages of the config task.  It always publishes first the
    config message, addressed to the admin connection.  Outside
    development mode that is all.  In development mode, when every
    snapshot can be built, it then publishes one all_sockets message with
    one snapshot per connection of every namespace, in the order they are
    visited; the loop variable having taken the place of the parameter,
    this message is addressed to the last connection visited, and to the
    admin connection only when there is none.  When a snapshot cannot be
    built the task ends with that exception after the config message and
    publishes no all_sockets message. *)
Theorem config_task_messages :
  (∀ (sid : string) (s : state W),
     mode (cfg s) ≠ "development" →
     config_body sid s
     = (Ok (), set_outbox (outbox s ++ [config_message_for s sid]) s))
  ∧ (∀ (sid : string) (s : state W),
       mode (cfg s) = "development" →
       Forall (λ v, ∃ sk, eio_get_socket v.2.2 (sio s) = Ok sk)
              (all_participants (sio s)) →
       ∃ snaps,
         config_body sid s
         = (Ok (),
            set_outbox
              (outbox s
               ++ [config_message_for s sid;
                   {| msg_event := "all_sockets";
                      msg_data := PAllSockets snaps;
                      msg_to :=
                        Some (default sid
                                (last ((λ v, v.2.1)
                                         <$> all_participants (sio s))));
                      msg_namespace := admin_namespace (cfg s) |}])
              s)
         ∧ Forall2 (λ snap v, ss_nsp snap = v.1 ∧ ss_id snap = v.2.1
                              ∧ ss_clientId snap = v.2.2)
                   snaps (all_participants (sio s)))
  ∧ (∀ (sid : string) (s : state W),
       mode (cfg s) = "development" →
       ¬ Forall (λ v, ∃ sk, eio_get_socket v.2.2 (sio s) = Ok sk)
                (all_participants (sio s)) →
       ∃ e,
         config_body sid s
         = (Raise e, set_outbox (outbox s ++ [config_message_for s sid]) s)).
Proof.
  split; [|split].
  - intros sid s Hmode. unfold config_body. unfold bind at 1. cbn [fst snd].
    unfold bind at 1, sio_emit. by rewrite decide_False.
  - intros sid s Hmode Hall. unfold config_body. unfold bind at 1.
    cbn [fst snd]. unfold bind at 1. unfold sio_emit at 1.
    rewrite decide_True by done.
    unfold bind at 1. unfold query at 1. cbn [sio set_outbox].
    fold (all_participants (sio s)).
    destruct (snapshots_of_participants (all_participants (sio s))
                (set_outbox (outbox s ++ [config_message_for s sid]) s) Hall)
      as (snaps & Hmap & Hsnaps).
    exists snaps. split; [|done].
    unfold bind at 1. unfold config_message_for in Hmap. rewrite Hmap.
    unfold sio_emit. cbn. by rewrite <- app_assoc.
  - intros sid s Hmode Hnot. unfold config_body. unfold bind at 1.
    cbn [fst snd]. unfold bind at 1. unfold sio_emit at 1.
    rewrite decide_True by done.
    unfold bind at 1. unfold query at 1. cbn [sio set_outbox].
    fold (all_participants (sio s)).
    destruct (snapshots_fail (all_participants (sio s))
                (set_outbox (outbox s ++ [config_message_for s sid]) s) Hnot)
      as (e & Hmap).
    exists e. unfold bind at 1. unfold config_message_for in Hmap.
    by rewrite Hmap.
Qed.

(** X13. The commands advertised and the commands accepted.  The config
    message always lists AGGREGATED_EVENTS, lists ALL_EVENTS exactly in
    development mode, and lists EMIT, JOIN, LEAVE and DISCONNECT exactly
    when the layer is not read-only.  The handlers for the commands emit,
    join, leave and _disconnect are registered exactly in development
    mode when the layer is not read-only.  So outside development mode a
    layer that is not read-only advertises commands it has no handler
    for. *)
Theorem advertised_and_registered_commands (c : config) :
  "AGGREGATED_EVENTS" ∈ supported_features c
  ∧ ("ALL_EVENTS" ∈ supported_features c ↔ mode c = "development")
  ∧ (∀ f, f ∈ ["EMIT"; "JOIN"; "LEAVE"; "DISCONNECT"] →
          (f ∈ supported_features c ↔ read_only c = false))
  ∧ "connect" ∈ instrument_handlers c
  ∧ (∀ h, h ∈ ["emit"; "join"; "leave"; "_disconnect"] →
          (h ∈ instrument_handlers c
           ↔ mode c = "development" ∧ read_only c = false))
  ∧ (mode c ≠ "development" → read_only c = false →
     "EMIT" ∈ supported_features c ∧ "emit" ∉ instrument_handlers c).
Proof.
  unfold supported_features, instrument_handlers.
  destruct (read_only c), (decide (mode c = "development")) as [Hm|Hm];
    cbn; repeat split; intros;
    rewrite ?elem_of_cons, ?elem_of_nil in *;
    intuition (subst; first [done | discriminate | congruence]).
Qed.

(** *** What a stats message reports *)

Lemma string_le_total : Total string_le.
Proof. intros a b. unfold string_le. apply String.leb_total. Qed.

Lemma run_task_created (i : nat) (s : state W) :
  tasks s !! i = Some StatsCreated →
  run_task i s
  = set_task i (loop_head (clock s) (sort_strings (sio_handlers (sio s))) s) s.
Proof. intros Hi. unfold run_task. by rewrite Hi. Qed.

(** X14. The first run of a stats task.  It records the time and the
    registered namespaces, sorted, and publishes nothing.  With the stop
    signal clear it starts its first sleep of the configured interval;
    with the stop signal already set it ends at once, so a task stopped
    before it first ran never publishes. *)
Theorem stats_task_first_run (i : nat) (b : bool) (s : state W) :
  tasks s !! i = Some StatsCreated →
  stop_stats_event s = Some b →
  let ns := sort_strings (sio_handlers (sio s)) in
  Sorted string_le ns
  ∧ ns ≡ₚ sio_handlers (sio s)
  ∧ tasks (run_task i s) !! i
    = Some (if b then StatsDone (Ok ())
            else StatsSleeping (server_stats_interval (cfg s)) (clock s) ns)
  ∧ outbox (run_task i s) = outbox s
  ∧ event_buffer (run_task i s) = event_buffer s
  ∧ admin_queue (run_task i s) = admin_queue s.
Proof.
  intros Hi Hstop ns. split; [|split].
  - pose proof string_le_total as Htotal. apply (Sorted_merge_sort string_le).
  - apply merge_sort_Permutation.
  - rewrite run_task_created by done. unfold set_task. cbn.
    rewrite list_lookup_insert_eq by (by eapply lookup_lt_Some).
    unfold loop_head. rewrite Hstop. by destruct b.
Qed.

Lemma stats_iteration_content (start_time : Z) (namespaces : list string)
  (s : state W) :
  ∃ st s',
    stats_iteration start_time namespaces s = (Ok (), s')
    ∧ outbox s'
      = outbox s ++ stats_message s st :: (queued_message s <$> admin_queue s)
    ∧ event_buffer s' = (λ _, 0%Z) <$> event_buffer s
    ∧ admin_queue s' = []
    ∧ st_serverId st = server_id s
    ∧ st_uptime st = (clock s - start_time)%Z
    ∧ st_clientsCount st = size (eio_sockets (sio s))
    ∧ st_pollingClientsCount st
      = size (filter (λ kv, upgraded kv.2 = false) (eio_sockets (sio s)))
    ∧ st_aggregatedEvents st = event_buffer s
    ∧ nc_name <$> st_namespaces st = namespaces.
Proof.
  unfold stats_iteration, server_stats. unfold bind at 1.
  cbn [EventBuffer.get_and_clear]. unfold bind at 1, sio_emit.
  unfold drain_queue. rewrite drain_flushes by done.
  do 2 eexists. split; [done|]. cbn. rewrite <- app_assoc.
  repeat split; try done.
  cbn [st_namespaces]. rewrite <- list_fmap_compose. apply list_fmap_id.
Qed.

(** X15. One round of the stats task.  The server_stats message is
    followed by the queued entries; it carries the time elapsed since the
    task first ran, the number of transport sessions, the number of those
    not upgraded (never more than the former), the counters accumulated
    since the previous round, and one entry per namespace recorded when the
    task first ran, in that order.  After the round every counter reads
    zero and the queue is empty. *)
Theorem stats_round_reports_and_resets (i : nat) (start_time : Z)
  (namespaces : list string) (s : state W) :
  tasks s !! i = Some (StatsSleeping 0 start_time namespaces) →
  ∃ st,
    outbox (run_task i s)
    = outbox s ++ stats_message s st :: (queued_message s <$> admin_queue s)
    ∧ st_serverId st = server_id s
    ∧ st_uptime st = (clock s - start_time)%Z
    ∧ st_clientsCount st = size (eio_sockets (sio s))
    ∧ st_pollingClientsCount st ≤ st_clientsCount st
    ∧ (st_pollingClientsCount st = st_clientsCount st
       ↔ map_Forall (λ _ sk, upgraded sk = false) (eio_sockets (sio s)))
    ∧ st_aggregatedEvents st = event_buffer s
    ∧ nc_name <$> st_namespaces st = namespaces
    ∧ (∀ name, counter name (run_task i s) = 0%Z)
    ∧ admin_queue (run_task i s) = [].
Proof.
  intros Hi. unfold run_task. rewrite Hi.
  destruct (stats_iteration_content start_time namespaces s)
    as (st & s' & -> & Hout & Hbuf & Hq & Hid & Hup & Hcl & Hpoll & Hagg & Hns).
  exists st. unfold set_task. cbn.
  rewrite Hpoll, Hcl. repeat split; try done.
  - apply map_size_filter.
  - intros Hsize k sk Hsk.
    assert (filter (λ kv : string * eio_socket, upgraded kv.2 = false)
                   (eio_sockets (sio s)) = eio_sockets (sio s)) as Hfilter.
    { apply map_subseteq_size_eq; [apply map_filter_subseteq|lia]. }
    rewrite <- Hfilter in Hsk.
    by apply map_lookup_filter_Some in Hsk as [_ Hp].
  - intros Hall. f_equal. apply map_filter_id. intros k sk Hsk.
    by apply (Hall k sk).
  - intros name. unfold counter. cbn. rewrite Hbuf, lookup_fmap.
    by destruct (event_buffer s !! name).
Qed.

(** *** The other authenticators *)

(** X16. Authentication with an allow-list or a predicate.  With a
    non-empty allow-list an attempt is accepted exactly when its
    credentials are a member of the list; with a predicate, exactly when
    the predicate holds of them.  A rejected attempt raises the
    connection-refused error and changes nothing: no task is started, no
    message published and the stop signal is left as it was. *)
Theorem allow_list_and_predicate_authentication :
  (∀ (l : list cred) (sid : string) (env : environ) (client_auth : cred)
     (s : state W),
     auth (cfg s) = AuthList l → l ≠ [] →
     ((admin_connect sid env client_auth s).1 = Ok () ↔ client_auth ∈ l)
     ∧ (client_auth ∉ l →
        admin_connect sid env client_auth s
        = (Raise (ConnectionRefusedError "authentication failed"), s)))
  ∧ (∀ (f : cred → bool) (sid : string) (env : environ) (client_auth : cred)
       (s : state W),
       auth (cfg s) = AuthCallable f →
       ((admin_connect sid env client_auth s).1 = Ok ()
        ↔ f client_auth = true)
       ∧ (f client_auth = false →
          admin_connect sid env client_auth s
          = (Raise (ConnectionRefusedError "authentication failed"), s))).
Proof.
  split.
  - intros l sid env client_auth s Hauth Hne.
    assert (auth_truthy (auth (cfg s)) = true) as Htruthy.
    { rewrite Hauth. cbn. by apply bool_decide_eq_true. }
    destruct (decide (client_auth ∈ l)) as [Hin|Hout].
    + split; [|done]. split; [done|]. intros _.
      rewrite admin_connect_accepts; [done|]. right. rewrite Hauth. cbn.
      by rewrite bool_decide_eq_true_2.
    + assert (admin_connect sid env client_auth s
              = (Raise (ConnectionRefusedError "authentication failed"), s))
        as Hrej.
      { apply admin_connect_rejects; [done|]. rewrite Hauth. cbn.
        by rewrite bool_decide_eq_false_2. }
      split; [|done]. rewrite Hrej. cbn. split; [done|]. by intros.
  - intros f sid env client_auth s Hauth.
    assert (auth_truthy (auth (cfg s)) = true) as Htruthy
      by (by rewrite Hauth).
    destruct (f client_auth) eqn:Hf.
    + split; [|done]. split; [done|]. intros _.
      rewrite admin_connect_accepts; [done|]. right. rewrite Hauth. cbn.
      by rewrite Hf.
    + assert (admin_connect sid env client_auth s
              = (Raise (ConnectionRefusedError "authentication failed"), s))
        as Hrej.
      { apply admin_connect_rejects; [done|]. rewrite Hauth. cbn.
        by rewrite Hf. }
      split; [|done]. rewrite Hrej. cbn. by split.
Qed.

(** *** The footprint of an interceptor *)

Lemma exec_interceptor_footprint (a : action) (s : state W) :
  match a with
  | AdminConnect _ _ _ | EioConnect _ _ | Tick | RunTask _ => True
  | _ => footprint notification s (exec a s)
  end.
Proof.
  destruct a; cbn [exec]; try done.
  - apply eio_disconnect_effect.
  - apply effect_instrumented; [apply trigger_event_effect|apply effect_call].
  - apply effect_instrumented; [apply enter_room_effect|apply effect_call].
  - apply effect_instrumented; [apply leave_room_effect|apply effect_call].
  - apply effect_instrumented; [apply emit_effect|apply effect_call].
  - apply http_response_effect.
  - apply post_request_effect.
Qed.

(** *** The life of a stats task *)

Lemma run_task_keeps_control (j : nat) (s : state W) :
  stats_task (run_task j s) = stats_task s
  ∧ stop_stats_event (run_task j s) = stop_stats_event s
  ∧ cfg (run_task j s) = cfg s.
Proof.
  unfold run_task.
  destruct (tasks s !! j) as [[sid|sid r| |[|k] st ns|r]|] eqn:Hj; try done.
  - pose proof (config_body_effect sid s) as (Hcfg & _ & Hstop & Hst & _).
    by destruct (config_body sid s) as [r s'].
  - destruct (stats_iteration_flushes st ns s)
      as (stt & s' & -> & _ & _ & _ & Hstop & Hcfg & _ & Hst).
    done.
Qed.

Lemma run_task_other (i j : nat) (s : state W) :
  i ≠ j → tasks (run_task j s) !! i = tasks s !! i.
Proof.
  intros Hne. unfold run_task.
  destruct (tasks s !! j) as [[sid|sid r| |[|k] st ns|r]|] eqn:Hj; try done.
  - pose proof (config_body_effect sid s) as (_ & Ht & _).
    destruct (config_body sid s) as [r s']. cbn in *.
    by rewrite list_lookup_insert_ne, Ht.
  - cbn. by rewrite list_lookup_insert_ne.
  - destruct (stats_iteration_flushes st ns s)
      as (stt & s' & -> & _ & _ & Ht & _).
    cbn. by rewrite list_lookup_insert_ne, Ht.
Qed.

Lemma run_task_running (i : nat) (t : task) (s : state W) :
  tasks s !! i = Some t → stats_running t = true →
  ∃ t', tasks (run_task i s) !! i = Some t'
        ∧ match stop_stats_event s with
          | Some false => stats_running t' = true
          | Some true =>
              match t with
              | StatsSleeping (S _) _ _ => t' = t
              | _ => t' = StatsDone (Ok ())
              end
          | None =>
              match t with
              | StatsSleeping (S _) _ _ => t' = t
              | _ => t' = StatsDone (Raise (AttributeError "is_set"))
              end
          end.
Proof.
  intros Hi Hrun. pose proof (lookup_lt_Some _ _ _ Hi) as Hlt.
  destruct t as [sid|sid r| |[|k] st ns|r]; try done.
  - rewrite run_task_created by done. unfold set_task. cbn.
    rewrite list_lookup_insert_eq by done. eexists. split; [done|].
    unfold loop_head. by destruct (stop_stats_event s) as [[|]|].
  - destruct (run_task_wakes i st ns s Hi)
      as (stt & _ & _ & -> & _).
    rewrite list_lookup_insert_eq by done. eexists. split; [done|].
    unfold loop_head. by destruct (stop_stats_event s) as [[|]|].
  - unfold run_task. rewrite Hi. exists (StatsSleeping (S k) st ns).
    split; [done|]. by destruct (stop_stats_event s) as [[|]|].
Qed.

Lemma exec_keeps_running (a : action) (i : nat) (t : task) (s : state W) :
  stop_stats_event s = Some false →
  tasks s !! i = Some t → stats_running t = true →
  stop_stats_event (exec a s) = Some false
  ∧ ∃ t', tasks (exec a s) !! i = Some t' ∧ stats_running t' = true.
Proof.
  intros Hstop Hi Hrun.
  pose proof (exec_interceptor_footprint a s) as Hfoot.
  destruct a; cbn [exec] in *;
    try (destruct Hfoot as (_ & Ht & Hs & _); rewrite Ht, Hs;
         split; [done|by exists t]).
  - destruct (admin_connect_cases sid env client_auth s) as [->| ->];
      [split; [done|by exists t]|].
    cbn. split; [done|]. exists t. split; [|done]. by apply lookup_app_l_Some.
  - rewrite eio_connect_state. cbn. rewrite Hstop. cbn.
    split; [done|by exists t].
  - unfold tick. cbn. split; [done|]. rewrite list_lookup_fmap, Hi. cbn.
    eexists. split; [done|]. by destruct t as [| | |[|k]|].
  - destruct (run_task_keeps_control i0 s) as (_ & -> & _).
    split; [done|]. destruct (decide (i = i0)) as [<-|Hne].
    + destruct (run_task_running i t s Hi Hrun) as (t' & Ht' & Hcase).
      rewrite Hstop in Hcase. by exists t'.
    + rewrite run_task_other by done. by exists t.
Qed.

Lemma exec_all_keeps_running (trace : list action) (i : nat) (t : task)
  (s : state W) :
  stop_stats_event s = Some false →
  tasks s !! i = Some t → stats_running t = true →
  stop_stats_event (exec_all trace s) = Some false
  ∧ ∃ t', tasks (exec_all trace s) !! i = Some t' ∧ stats_running t' = true.
Proof.
  revert t s. induction trace as [|a trace IH]; intros t s Hstop Hi Hrun.
  - split; [done|by exists t].
  - cbn. destruct (exec_keeps_running a i t s Hstop Hi Hrun)
      as (Hstop' & t' & Hi' & Hrun').
    by apply (IH t').
Qed.

Lemma admin_connect_ok (sid : string) (env : environ) (client_auth : cred)
  (s : state W) :
  (admin_connect sid env client_auth s).1 = Ok () →
  admin_connect sid env client_auth s
  = (Ok (),
     set_stats_task (Some (S (length (tasks s))))
       (set_tasks (tasks s ++ [ConfigSleeping sid; StatsCreated])
          (set_stop_stats_event (Some false) s))).
Proof.
  intros Hok. destruct (auth_truthy (auth (cfg s))) eqn:Htruthy.
  - destruct (authenticate (auth (cfg s)) client_auth) as [[|]|e] eqn:Hauth.
    + apply admin_connect_accepts. by right.
    + by rewrite admin_connect_rejects in Hok.
    + exfalso. revert Hok. unfold admin_connect. unfold bind at 1.
      cbn [fst snd]. unfold bind at 1. rewrite Htruthy. unfold bind at 1.
      by rewrite Hauth.
  - apply admin_connect_accepts. by left.
Qed.

(** X18. A stats task only ends through the stop signal, and an admin
    connection clears the signal.  While the stop signal is clear, no
    activity of the server (connections, events, room changes, broadcasts,
    transport traffic, the passing of time, the running of any task) ends
    a stats task that is under way, and the signal stays clear.  An
    accepted admin connection installs a fresh, clear signal: a stats task
    that was under way, stop requested or not, is then still under way
    after any later activity. *)
Theorem stats_task_ends_only_when_stopped :
  (∀ (trace : list action) (i : nat) (t : task) (s : state W),
     stop_stats_event s = Some false →
     tasks s !! i = Some t → stats_running t = true →
     stop_stats_event (exec_all trace s) = Some false
     ∧ ∃ t', tasks (exec_all trace s) !! i = Some t'
             ∧ stats_running t' = true)
  ∧ (∀ (sid : string) (env : environ) (client_auth : cred)
       (trace : list action) (i : nat) (t : task) (s : state W),
       (admin_connect sid env client_auth s).1 = Ok () →
       tasks s !! i = Some t → stats_running t = true →
       ∃ t', tasks (exec_all (AdminConnect sid env client_auth :: trace) s)
               !! i = Some t'
             ∧ stats_running t' = true).
Proof.
  split.
  - intros trace i t s. apply exec_all_keeps_running.
  - intros sid env client_auth trace i t s Hok Hi Hrun.
    change (exec_all (AdminConnect sid env client_auth :: trace) s)
      with (exec_all trace (admin_connect sid env client_auth s).2).
    rewrite admin_connect_ok by done. cbn [snd].
    apply (exec_all_keeps_running trace i t); [done| |done].
    cbn. by apply lookup_app_l_Some.
Qed.

(** *** Shutting down *)

Lemma stoppable_init (c : config) (w : W) (s0 : state W) :
  init c w = Ok s0 → stoppable s0.
Proof.
  unfold init. intros Hinit.
  destruct (auth c); try done; injection Hinit as <-; done.
Qed.

Lemma exec_keeps_stoppable (a : action) (s : state W) :
  stoppable s → stoppable (exec a s).
Proof.
  intros Hs. pose proof (exec_interceptor_footprint a s) as Hfoot.
  destruct a; cbn [exec] in *;
    try (destruct Hfoot as (_ & Ht & Hstop & Hst & _);
         unfold stoppable; by rewrite Ht, Hstop, Hst).
  - destruct (admin_connect_cases sid env client_auth s) as [->| ->];
      [done|].
    unfold stoppable. cbn. split; [done|]. exists StatsCreated.
    split; [|by left].
    rewrite lookup_app_r by lia.
    by replace (S (length (tasks s)) - length (tasks s)) with 1 by lia.
  - rewrite eio_connect_state. unfold stoppable in *. cbn.
    destruct (stop_stats_event s) as [b|] eqn:Hstop; cbn.
    + by rewrite Hstop.
    + split; [done|]. exists StatsCreated. split; [|by left].
      rewrite lookup_app_r by lia. by rewrite Nat.sub_diag.
  - unfold stoppable in *. unfold tick. cbn.
    destruct (stats_task s) as [i|]; [|done].
    destruct Hs as (Hstop & t & Hi & Ht). split; [done|].
    rewrite list_lookup_fmap, Hi. cbn. eexists. split; [done|].
    destruct Ht as [Ht| ->]; [left|by right]. by destruct t as [| | |[|k]|].
  - unfold stoppable in *.
    destruct (run_task_keeps_control i s) as (-> & -> & _).
    destruct (stats_task s) as [j|]; [|done].
    destruct Hs as (Hstop & t & Hj & Ht). split; [done|].
    destruct (decide (j = i)) as [->|Hne];
      [|rewrite run_task_other by done; by exists t].
    destruct Ht as [Ht| ->].
    + destruct (run_task_running i t s Hj Ht) as (t' & Ht' & Hcase).
      exists t'. split; [done|].
      destruct (stop_stats_event s) as [[|]|]; [| |done].
      * destruct t as [| | |[|k]|]; try done; subst; first [by right|by left].
      * by left.
    + exists (StatsDone (Ok ())). split; [|by right].
      by apply run_task_keeps_finished.
Qed.

Lemma exec_all_keeps_stoppable (trace : list action) (s : state W) :
  stoppable s → stoppable (exec_all trace s).
Proof.
  revert s. induction trace as [|a trace IH]; intros s Hs; [done|].
  cbn. by apply IH, exec_keeps_stoppable.
Qed.

Lemma set_stop_stats_event_id (s : state W) :
  set_stop_stats_event (stop_stats_event s) s = s.
Proof. by destruct s. Qed.

Lemma tick_keeps_control (s : state W) :
  stats_task (tick s) = stats_task s
  ∧ stop_stats_event (tick s) = stop_stats_event s.
Proof. done. Qed.

Lemma join_result (fuel fuel' i : nat) (r : res unit) (s s' : state W) :
  join fuel i s = Some (r, s') →
  stats_task s' = stats_task s
  ∧ stop_stats_event s' = stop_stats_event s
  ∧ outbox (run_task i s') = outbox s'
  ∧ join (S fuel') i s' = Some (r, s').
Proof.
  revert s. induction fuel as [|fuel IH]; intros s; [done|].
  cbn [join].
  destruct (tasks s !! i) as [[sid|sid r0| |[|k] st ns|r0]|] eqn:Hi.
  - intros Hjoin. destruct (IH _ Hjoin) as (-> & -> & Hrest).
    by destruct (run_task_keeps_control i s) as (-> & -> & _).
  - intros [= <- <-]. rewrite Hi. repeat split; try done.
    by rewrite (run_task_finished i (ConfigDone sid r0)).
  - intros Hjoin. destruct (IH _ Hjoin) as (-> & -> & Hrest).
    by destruct (run_task_keeps_control i s) as (-> & -> & _).
  - intros Hjoin. destruct (IH _ Hjoin) as (-> & -> & Hrest).
    by destruct (run_task_keeps_control i s) as (-> & -> & _).
  - intros Hjoin. by destruct (IH _ Hjoin) as (-> & -> & Hrest).
  - intros [= <- <-]. rewrite Hi. repeat split; try done.
    by rewrite (run_task_finished i (StatsDone r0)).
  - intros [= <- <-]. rewrite Hi. repeat split; try done.
    unfold run_task. by rewrite Hi.
Qed.

(** X20. Shutdown twice.  When shutdown has returned, with a result or
    with an exception, calling it again returns the same outcome at once:
    the state is left exactly as the first call left it, so nothing more
    is published and no time passes. *)
Theorem shutdown_is_idempotent (fuel fuel' : nat) (r : res unit)
  (s s' : state W) :
  shutdown fuel s = Some (r, s') →
  shutdown (S fuel') s' = Some (r, s').
Proof.
  unfold shutdown.
  destruct (stats_task s) as [i|] eqn:Hst.
  - destruct (stop_stats_event s) as [b|] eqn:Hstop.
    + intros Hjoin.
      destruct (join_result _ fuel' _ _ _ _ Hjoin) as (Hst' & Hstop' & _ & Hj).
      cbn in Hst', Hstop'. rewrite Hst', Hst, Hstop'.
      by rewrite <- Hstop', set_stop_stats_event_id.
    + intros [= <- <-]. by rewrite Hst, Hstop.
  - intros [= <- <-]. by rewrite Hst.
Qed.

(** *** Stopping the publisher while the server goes on *)

Lemma count_event_none (event : string) (P : message → Prop)
  (l : list message) :
  (∀ m, P m → msg_event m ≠ event) → Forall P l → count_event event l = 0.
Proof.
  intros HP Hl. unfold count_event.
  induction Hl as [|m l Hm _ IH]; [done|].
  rewrite filter_cons. case_decide as Hev; [|done]. by destruct (HP m Hm).
Qed.

Lemma footprint_keeps_stopping (P : message → Prop) (i k : nat)
  (start_time : Z) (namespaces : list string) (published : nat) (since : Z)
  (s s' : state W) :
  (∀ m, P m → msg_event m ≠ "server_stats") →
  footprint P s s' →
  stopping i k start_time namespaces published since s →
  stopping i k start_time namespaces published since s'.
Proof.
  intros HP (Hcfg & Ht & Hstop & Hst & Hclock & (l & Hl & HPl) & (q & Hq & HQ))
    (Hset & Hrec & Hqueue & Hlone & Hcase).
  assert (count_event "server_stats" (outbox s')
          = count_event "server_stats" (outbox s)) as Hcount.
  { rewrite Hl, count_event_app.
    rewrite (count_event_none "server_stats" P l HP HPl). lia. }
  unfold stopping, lone_stats_task.
  rewrite Hstop, Hst, Ht, Hclock, Hcount, Hq.
  repeat split; try done. apply Forall_app. by split.
Qed.

Lemma tick_keeps_stopping (i k : nat) (start_time : Z)
  (namespaces : list string) (published : nat) (since : Z) (s : state W) :
  stopping i k start_time namespaces published since s →
  stopping i k start_time namespaces published since (tick s).
Proof.
  intros (Hset & Hrec & Hqueue & Hlone & Hcase).
  unfold stopping, lone_stats_task, tick. cbn.
  repeat split; try done.
  - intros j t. rewrite list_lookup_fmap.
    destruct (tasks s !! j) as [t0|] eqn:Hj; [|done]. cbn.
    intros [= <-] Hrun. apply (Hlone j t0 Hj).
    by destruct t0 as [| | |[|n]|].
  - rewrite list_lookup_fmap.
    destruct Hcase as [(k' & Hi & Hclock & Hcount)|(Hi & Hclock & Hcount)];
      rewrite Hi; cbn.
    + left. destruct k' as [|k'].
      * exists 0. repeat split; try done. lia.
      * exists k'. repeat split; try done. lia.
    + right. repeat split; try done. lia.
Qed.

Lemma run_task_keeps_stopping (j i k : nat) (start_time : Z)
  (namespaces : list string) (published : nat) (since : Z) (s : state W) :
  stopping i k start_time namespaces published since s →
  stopping i k start_time namespaces published since (run_task j s).
Proof.
  intros (Hset & Hrec & Hqueue & Hlone & Hcase).
  assert (∃ t, tasks s !! i = Some t
               ∧ ((∃ k', t = StatsSleeping k' start_time namespaces)
                  ∨ t = StatsDone (Ok ()))) as (ti & Hi & Hti).
  { destruct Hcase as [(k' & Hi & _)|(Hi & _)]; eexists; split; try done.
    - left. by exists k'.
    - by right. }
  unfold run_task.
  destruct (tasks s !! j) as [[sid|sid r| |[|n] st ns|r]|] eqn:Hj;
    try (by repeat split).
  - (* a config task runs *)
    assert (j ≠ i) as Hne.
    { intros ->. rewrite Hi in Hj. injection Hj as ->.
      by destruct Hti as [[k' ?]|?]. }
    pose proof (config_body_effect sid s) as Hfoot.
    destruct (config_body sid s) as [r s'] eqn:Hbody. cbn [snd] in Hfoot.
    assert (stopping i k start_time namespaces published since s') as Hs'.
    { apply (footprint_keeps_stopping (config_message sid) _ _ _ _ _ _ s);
        [|done|by repeat split].
      intros m [[Hm _]|Hm]; by rewrite Hm. }
    destruct Hs' as (Hset' & Hrec' & Hqueue' & Hlone' & Hcase').
    unfold stopping, lone_stats_task, set_task. cbn.
    repeat split; try done.
    + intros j' t. destruct (decide (j' = j)) as [->|Hne'].
      * rewrite list_lookup_insert_eq; [by intros [= <-]|].
        destruct Hfoot as (_ & -> & _). by eapply lookup_lt_Some.
      * rewrite list_lookup_insert_ne by done. apply Hlone'.
    + by rewrite list_lookup_insert_ne.
  - (* a stats task that has not run: there is none *)
    assert (j = i) as -> by (by apply (Hlone j StatsCreated)).
    rewrite Hi in Hj. injection Hj as ->. by destruct Hti as [[k' ?]|?].
  - (* the stats task wakes up *)
    assert (j = i) as -> by (by apply (Hlone j (StatsSleeping 0 st ns))).
    destruct Hcase as [(k' & Hi' & Hclock & Hcount)|(Hi' & _)];
      [|by rewrite Hi' in Hj].
    rewrite Hi' in Hj. injection Hj as -> <- <-.
    destruct (stats_iteration_flushes start_time namespaces s)
      as (stt & s' & -> & Hout & Hq & Ht & Hstop & Hcfg & Hclock' & Hst).
    assert (count_event "server_stats" (outbox s') = S published) as Hcount'.
    { rewrite Hout, count_event_app. unfold count_event at 2.
      rewrite filter_cons_True by done. cbn [length].
      fold (count_event "server_stats" (queued_message s <$> admin_queue s)).
      rewrite room_entries_are_not_stats by done. lia. }
    pose proof (lookup_lt_Some _ _ _ Hi') as Hlt.
    unfold stopping, lone_stats_task, set_task. cbn.
    rewrite Hstop, Hst, Hq, Ht, Hclock'.
    repeat split; try done.
    + intros j' t. destruct (decide (j' = i)) as [->|Hne'].
      * rewrite list_lookup_insert_eq by done. unfold loop_head.
        rewrite Hstop, Hset. by intros [= <-].
      * rewrite list_lookup_insert_ne by done. apply Hlone.
    + right. rewrite list_lookup_insert_eq by done.
      unfold loop_head. rewrite Hstop, Hset.
      repeat split; try done. lia.
Qed.

Lemma exec_keeps_stopping (a : action) (i k : nat) (start_time : Z)
  (namespaces : list string) (published : nat) (since : Z) (s : state W) :
  not_admin_connect a →
  stopping i k start_time namespaces published since s →
  stopping i k start_time namespaces published since (exec a s).
Proof.
  intros Ha Hs. pose proof (exec_interceptor_footprint a s) as Hfoot.
  assert (∀ m, notification m → msg_event m ≠ "server_stats") as Hnot.
  { intros m [Hm|[Hm|[Hm|Hm]]]; by rewrite Hm. }
  destruct a; try done;
    try (by apply (footprint_keeps_stopping notification _ _ _ _ _ _ s)).
  - cbn [exec]. rewrite eio_connect_state.
    destruct Hs as (Hset & Hrec & Hqueue & Hlone & Hcase).
    rewrite Hset. by repeat split.
  - by apply tick_keeps_stopping.
  - by apply run_task_keeps_stopping.
Qed.

Lemma exec_all_keeps_stopping (trace : list action) (i k : nat)
  (start_time : Z) (namespaces : list string) (published : nat) (since : Z)
  (s : state W) :
  Forall not_admin_connect trace →
  stopping i k start_time namespaces published since s →
  stopping i k start_time namespaces published since (exec_all trace s).
Proof.
  intros Htrace. revert s.
  induction Htrace as [|a trace Ha _ IH]; intros s Hs; [done|].
  cbn. by apply IH, exec_keeps_stopping.
Qed.

Lemma ticks_keep_stop (n : nat) (s : state W) :
  stop_stats_event (ticks n s) = stop_stats_event s.
Proof. induction n as [|n IH]; [done|]. cbn. exact IH. Qed.

(** A task that waits for the stop signal ends at its first run after its
    sleep. *)
Lemma stopped_task_ends (i : nat) (t : task) (s : state W) :
  stop_stats_event s = Some true →
  tasks s !! i = Some t →
  stats_running t = true ∨ t = StatsDone (Ok ()) →
  ∃ n, gathered i (run_task i (ticks n s)) = Some (Ok ()).
Proof.
  intros Hset Hi [Hrun| ->].
  - destruct t as [| | |k st ns|]; try done.
    + exists 0. change (ticks 0 s) with s.
      destruct (run_task_running i StatsCreated s Hi Hrun) as (t' & Ht' & Hcase).
      rewrite Hset in Hcase. unfold gathered. by rewrite Ht', Hcase.
    + exists k.
      destruct (ticks_sleeping k i st ns s Hi) as (Hi' & _).
      destruct (run_task_running i _ (ticks k s) Hi' Hrun)
        as (t' & Ht' & Hcase).
      rewrite ticks_keep_stop, Hset in Hcase.
      unfold gathered. by rewrite Ht', Hcase.
  - exists 0. change (ticks 0 s) with s.
    rewrite (run_task_finished i (StatsDone (Ok ()))) by done.
    unfold gathered. by rewrite Hi.
Qed.

(** C2, as amended.  While the stats publisher runs with the stop signal
    clear, a sleep of the configured interval is followed by exactly one
    server_stats message (and the queued entries), and the task sleeps
    again: left alone for n intervals it publishes n server_stats
    messages.  The stop signal is read only at the top of the loop.  When
    shutdown sets it while the only stats task under way is in a sleep
    with k time units left, then, whatever the server does meanwhile and
    afterwards short of an admin connection (events, transport
    connections and traffic, room changes, broadcasts, time passing,
    tasks being run): as long as the caller of shutdown is still waiting
    no server_stats message has been published since the signal; when
    the wait is over the task has ended normally, not before the k time
    units have passed, and exactly one server_stats message has been
    published since the signal, and none is added later; and the wait
    does end, at the first run of the task after its sleep. *)
Theorem stats_publisher_period_and_shutdown :
  (∀ (i : nat) (start_time : Z) (namespaces : list string) (s : state W),
     tasks s !! i
     = Some (StatsSleeping (server_stats_interval (cfg s)) start_time namespaces) →
     stop_stats_event s = Some false →
     ∃ st,
       outbox (period i s)
       = outbox s ++ stats_message s st :: (queued_message s <$> admin_queue s)
       ∧ tasks (period i s) !! i
         = Some (StatsSleeping (server_stats_interval (cfg s))
                               start_time namespaces)
       ∧ clock (period i s)
         = (clock s + Z.of_nat (server_stats_interval (cfg s)))%Z)
  ∧ (∀ (n i : nat) (start_time : Z) (namespaces : list string) (s : state W),
       tasks s !! i
       = Some (StatsSleeping (server_stats_interval (cfg s))
                             start_time namespaces) →
       stop_stats_event s = Some false →
       Forall room_entry (admin_queue s) →
       count_event "server_stats" (outbox (Nat.iter n (period i) s))
       = count_event "server_stats" (outbox s) + n
       ∧ clock (Nat.iter n (period i) s)
         = (clock s + Z.of_nat n * Z.of_nat (server_stats_interval (cfg s)))%Z)
  ∧ (∀ (i k : nat) (start_time : Z) (namespaces : list string)
       (trace : list action) (s : state W),
       stats_task s = Some i →
       stop_stats_event s ≠ None →
       tasks s !! i = Some (StatsSleeping k start_time namespaces) →
       lone_stats_task i s →
       Forall room_entry (admin_queue s) →
       Forall not_admin_connect trace →
       (shutdown_signal s).1 = Ok (Some i)
       ∧ (let s' := exec_all trace (shutdown_signal s).2 in
          match gathered i s' with
          | None =>
              count_event "server_stats" (outbox s')
              = count_event "server_stats" (outbox s)
          | Some r =>
              r = Ok ()
              ∧ (clock s + Z.of_nat k ≤ clock s')%Z
              ∧ count_event "server_stats" (outbox s')
                = count_event "server_stats" (outbox s) + 1
          end
          ∧ ∃ n, gathered i (run_task i (ticks n s')) = Some (Ok ()))).
Proof.
  split; [|split].
  - intros i start_time namespaces s Hi Hstop.
    destruct (period_publishes_once i start_time namespaces s Hi Hstop)
      as (st & Hout & _ & Ht & _ & _ & Hclock).
    by exists st.
  - intros n i start_time namespaces s Hi Hstop Hq.
    destruct (periods_publish n i start_time namespaces s Hi Hstop Hq)
      as (Hcount & Hclock & _).
    by split.
  - intros i k start_time namespaces trace s Hrec Hev Hi Hlone Hq Htrace.
    unfold shutdown_signal. rewrite Hrec.
    destruct (stop_stats_event s) as [b|] eqn:Hstop; [|done].
    cbn [fst snd]. split; [done|].
    assert (stopping i k start_time namespaces
              (count_event "server_stats" (outbox s)) (clock s)
              (exec_all trace (set_stop_stats_event (Some true) s)))
      as (Hset & _ & _ & _ & Hcase).
    { apply exec_all_keeps_stopping; [done|].
      repeat split; try done. left. exists k. repeat split; try done. }
    cbn zeta. split.
    + unfold gathered.
      destruct Hcase as [(k' & -> & _ & Hcount)|(-> & Hclock & Hcount)];
        [done|].
      repeat split; [done|]. rewrite Hcount. lia.
    + destruct Hcase as [(k' & Hi' & _)|(Hi' & _)].
      * by apply (stopped_task_ends i _ _ Hset Hi'); left.
      * by apply (stopped_task_ends i _ _ Hset Hi'); right.
Qed.

(** The wait of [shutdown] modelled by [join] is one of the runs of the
    server: the one in which only time and the awaited task move. *)
Lemma join_is_a_schedule (fuel i : nat) (r : res unit) (s s' : state W) :
  join fuel i s = Some (r, s') →
  ∃ trace, Forall (λ a, a = Tick ∨ a = RunTask i) trace
           ∧ s' = exec_all trace s.
Proof.
  revert s. induction fuel as [|fuel IH]; intros s; [done|].
  cbn [join].
  destruct (tasks s !! i) as [[sid|sid r0| |[|k] st ns|r0]|] eqn:Hi;
    try (intros [= <- <-]; by exists []);
    intros Hjoin; destruct (IH _ Hjoin) as (trace & Htrace & ->).
  - exists (RunTask i :: trace). split; [|done]. constructor; [by right|done].
  - exists (RunTask i :: trace). split; [|done]. constructor; [by right|done].
  - exists (RunTask i :: trace). split; [|done]. constructor; [by right|done].
  - exists (Tick :: trace). split; [|done]. constructor; [by left|done].
Qed.

Lemma exec_keeps_signal (a : action) (i : nat) (s : state W) :
  not_admin_connect a →
  stop_stats_event s = Some true → stats_task s = Some i →
  stop_stats_event (exec a s) = Some true ∧ stats_task (exec a s) = Some i.
Proof.
  intros Ha Hset Hrec. pose proof (exec_interceptor_footprint a s) as Hfoot.
  destruct a; try done;
    try (destruct Hfoot as (_ & _ & -> & -> & _); done).
  - cbn [exec]. rewrite eio_connect_state. by rewrite Hset.
  - cbn [exec]. by destruct (run_task_keeps_control i0 s) as (-> & -> & _).
Qed.

Lemma exec_all_keeps_signal (trace : list action) (i : nat) (s : state W) :
  Forall not_admin_connect trace →
  stop_stats_event s = Some true → stats_task s = Some i → stoppable s →
  stop_stats_event (exec_all trace s) = Some true
  ∧ stats_task (exec_all trace s) = Some i
  ∧ stoppable (exec_all trace s).
Proof.
  intros Htrace. revert s.
  induction Htrace as [|a trace Ha _ IH]; intros s Hset Hrec Hs; [done|].
  cbn. destruct (exec_keeps_signal a i s Ha Hset Hrec) as (Hset' & Hrec').
  apply IH; [done|done|]. by apply exec_keeps_stoppable.
Qed.

(** X19. Shutdown returns unless an admin connects.  In every state the
    layer reaches from its construction, through any sequence of admin
    and transport connections, events, room changes, broadcasts,
    transport traffic, time passing and task runs, the first half of
    shutdown does not fail: either no stats task is recorded and it does
    nothing, or the stop event exists and is set.  Whatever the server
    then does while the caller waits, short of an admin connection, the
    recorded stats task ends normally at its first run after its sleep,
    so the wait ends.  Before any connection there is no stats task and
    shutdown returns at once, changing nothing. *)
Theorem shutdown_returns_unless_an_admin_connects :
  (∀ (c : config) (w : W) (s0 : state W) (trace later : list action),
     init c w = Ok s0 →
     Forall not_admin_connect later →
     match stats_task (exec_all trace s0) with
     | None =>
         shutdown_signal (exec_all trace s0) = (Ok None, exec_all trace s0)
     | Some i =>
         (shutdown_signal (exec_all trace s0)).1 = Ok (Some i)
         ∧ ∃ n, gathered i
                  (run_task i
                     (ticks n
                        (exec_all later
                           (shutdown_signal (exec_all trace s0)).2)))
                = Some (Ok ())
     end)
  ∧ (∀ (c : config) (w : W) (s0 : state W) (fuel : nat),
       init c w = Ok s0 → shutdown fuel s0 = Some (Ok (), s0)).
Proof.
  split.
  - intros c w s0 trace later Hinit Hlater.
    pose proof (exec_all_keeps_stoppable trace s0 (stoppable_init c w s0 Hinit))
      as Hs.
    unfold shutdown_signal.
    destruct (stats_task (exec_all trace s0)) as [i|] eqn:Hrec; [|done].
    unfold stoppable in Hs. rewrite Hrec in Hs.
    destruct Hs as (Hev & t & Hi & Ht).
    destruct (stop_stats_event (exec_all trace s0)) as [b|] eqn:Hstop; [|done].
    cbn [fst snd]. split; [done|].
    destruct (exec_all_keeps_signal later i
                (set_stop_stats_event (Some true) (exec_all trace s0)) Hlater
                eq_refl Hrec) as (Hset & Hrec' & Hs').
    { unfold stoppable. cbn. rewrite Hrec. split; [done|]. by exists t. }
    unfold stoppable in Hs'. rewrite Hrec' in Hs'.
    destruct Hs' as (_ & t' & Hi' & Ht').
    by apply (stopped_task_ends i t').
  - intros c w s0 fuel. unfold init.
    destruct (auth c); try done; by intros [= <-].
Qed.
End MoreFacts.

(** ** Instances of these properties on the small server *)

(** C2 on the small server: interval 2, one period, three periods; then
    shutdown sets the signal while the task has two time units of sleep
    left: after one time unit the caller still waits and nothing has been
    published, and after the run [toy_busy] the wait is over, at least two
    time units later, with exactly one more server_stats message. *)
Lemma stats_publisher_period_and_shutdown_witness :
  (∃ st,
     outbox (period 0 toy_sleeping)
     = outbox toy_sleeping
       ++ stats_message toy_sleeping st
          :: (queued_message toy_sleeping <$> admin_queue toy_sleeping)
     ∧ tasks (period 0 toy_sleeping) !! 0 = Some (StatsSleeping 2 0 ["/"])
     ∧ clock (period 0 toy_sleeping) = (clock toy_sleeping + 2)%Z)
  ∧ (count_event "server_stats" (outbox (Nat.iter 3 (period 0) toy_sleeping))
     = count_event "server_stats" (outbox toy_sleeping) + 3
     ∧ clock (Nat.iter 3 (period 0) toy_sleeping)
       = (clock toy_sleeping + 3 * 2)%Z)
  ∧ ((shutdown_signal toy_sleeping).1 = Ok (Some 0)
     ∧ (let s' := exec_all [Tick] (shutdown_signal toy_sleeping).2 in
        match gathered 0 s' with
        | None =>
            count_event "server_stats" (outbox s')
            = count_event "server_stats" (outbox toy_sleeping)
        | Some r =>
            r = Ok ()
            ∧ (clock toy_sleeping + Z.of_nat 2 ≤ clock s')%Z
            ∧ count_event "server_stats" (outbox s')
              = count_event "server_stats" (outbox toy_sleeping) + 1
        end
        ∧ ∃ n, gathered 0 (run_task 0 (ticks n s')) = Some (Ok ())))
  ∧ ((shutdown_signal toy_sleeping).1 = Ok (Some 0)
     ∧ (let s' := exec_all toy_busy (shutdown_signal toy_sleeping).2 in
        match gathered 0 s' with
        | None =>
            count_event "server_stats" (outbox s')
            = count_event "server_stats" (outbox toy_sleeping)
        | Some r =>
            r = Ok ()
            ∧ (clock toy_sleeping + Z.of_nat 2 ≤ clock s')%Z
            ∧ count_event "server_stats" (outbox s')
              = count_event "server_stats" (outbox toy_sleeping) + 1
        end
        ∧ ∃ n, gathered 0 (run_task 0 (ticks n s')) = Some (Ok ())))
  ∧ gathered 0 (exec_all [Tick] (shutdown_signal toy_sleeping).2) = None
  ∧ gathered 0 (exec_all toy_busy (shutdown_signal toy_sleeping).2)
    = Some (Ok ()).
Proof.
  destruct (stats_publisher_period_and_shutdown (W := toy))
    as (Hperiod & Hperiods & Hstop).
  assert (lone_stats_task 0 toy_sleeping) as Hlone.
  { intros j t Hj _. destruct j as [|j]; [reflexivity|].
    vm_compute in Hj. discriminate Hj. }
  assert (stop_stats_event toy_sleeping ≠ None) as Hev.
  { intros Hnone. vm_compute in Hnone. discriminate Hnone. }
  split; [|split; [|split; [|split; [|split]]]].
  - apply (Hperiod 0 0%Z ["/"] toy_sleeping); reflexivity.
  - apply (Hperiods 3 0 0%Z ["/"] toy_sleeping);
      [reflexivity | reflexivity | apply Forall_nil_2].
  - apply (Hstop 0 2 0%Z ["/"] [Tick] toy_sleeping);
      [reflexivity | exact Hev | reflexivity | exact Hlone
      | apply Forall_nil_2 | repeat constructor].
  - apply (Hstop 0 2 0%Z ["/"] toy_busy toy_sleeping);
      [reflexivity | exact Hev | reflexivity | exact Hlone
      | apply Forall_nil_2 | repeat constructor].
  - vm_compute. reflexivity.
  - vm_compute. reflexivity.
Defined.

(** X3 on the small server: a ping of transport socket [e1] publishes one
    message, for client [c1]; with the socket gone it raises and publishes
    nothing. *)
Lemma ping_hook_publishes_snapshots_witness :
  (∃ msgs,
     _eio_send_ping "e1" (toy_state AuthFalse false)
     = (Ok PNone,
        set_sio (toy_world false)
          (set_outbox (outbox (toy_state AuthFalse false) ++ msgs)
             (toy_state AuthFalse false)))
     ∧ Forall2 (ping_message "e1" "T") msgs [("/", "c1")])
  ∧ _eio_send_ping "e1" toy_orphan
    = (Raise (KeyError "Session not found"), toy_orphan).
Proof.
  destruct (ping_hook_publishes_snapshots (W := toy)) as [Hping Hfail].
  split.
  - apply (Hping "e1" {| upgraded := false |} (toy_state AuthFalse false)).
    reflexivity.
  - apply (Hfail "e1" (KeyError "Session not found") toy_orphan);
      [reflexivity|discriminate].
Defined.

(** X5 on the small server: one header, an environment without headers,
    and two spellings of the same header name. *)
Lemma handshake_headers_from_http_keys_witness :
  (lower "host" = "host"
   ∧ ∃ k, (k, "example.org") ∈ [("HTTP_HOST", "example.org")]
          ∧ startswith "HTTP_" k = true
          ∧ "host" = lower (drop_chars 5 k))
  ∧ handshake_headers [("REMOTE_ADDR", "10.0.0.1")] = ∅
  ∧ handshake_headers ([("HTTP_X_TOKEN", "old")] ++ [("HTTP_x_token", "new")])
      !! "x_token" = Some "new".
Proof.
  destruct handshake_headers_from_http_keys as (Hsound & Hnone & Hlast).
  split; [|split].
  - apply (Hsound [("HTTP_HOST", "example.org")] "host" "example.org").
    reflexivity.
  - apply (Hnone [("REMOTE_ADDR", "10.0.0.1")]).
    apply Forall_singleton. reflexivity.
  - apply (Hlast [("HTTP_X_TOKEN", "old")] [] "HTTP_x_token" "new");
      [reflexivity|].
    intros k' v' Hin. by apply elem_of_nil in Hin.
Defined.

(** X6 on the small server: client [c1] connects at time 3 and
    disconnects; an ordinary event in between. *)
Lemma timestamp_table_follows_dispatch_witness :
  timestamps
    (_trigger_event "connect" "/" "c1" []
       (exec_all [Tick; Tick; Tick] (toy_state AuthFalse false))).2
  = <["c1" := clock (exec_all [Tick; Tick; Tick] (toy_state AuthFalse false))]>
      (timestamps (exec_all [Tick; Tick; Tick] (toy_state AuthFalse false)))
  ∧ timestamps
      (_trigger_event "disconnect" "/" "c1" [PStr "transport close"]
         toy_connected).2
    = delete "c1" (timestamps toy_connected)
  ∧ timestamps (_trigger_event "chat" "/" "c1" [] toy_connected).2
    = timestamps toy_connected
  ∧ timestamps
      (_trigger_event "disconnect" "/" "c1" [PStr "transport close"]
         (_trigger_event "connect" "/" "c1" [] (toy_state AuthFalse false)).2).2
    = timestamps (toy_state AuthFalse false).
Proof.
  destruct (timestamp_table_follows_dispatch (W := toy))
    as (Hconnect & Hdisconnect & Hother & Hboth).
  split; [|split; [|split]].
  - apply (Hconnect "/" "c1" "e1" {| upgraded := false |} []
             (exec_all [Tick; Tick; Tick] (toy_state AuthFalse false)));
      vm_compute; reflexivity.
  - apply (Hdisconnect "/" "c1" (PStr "transport close") [] 3%Z toy_connected).
    vm_compute. reflexivity.
  - apply (Hother "chat" "/" "c1" [] toy_connected); discriminate.
  - apply (Hboth "/" "c1" "e1" {| upgraded := false |} []
             (PStr "transport close") (toy_state AuthFalse false));
      vm_compute; reflexivity.
Defined.

(** X7 on the small server: client [c1] is disconnected without a
    reason. *)
Lemma disconnect_without_reason_loses_timestamp_witness :
  _trigger_event "disconnect" "/" "c1" [] toy_connected
  = (Raise (IndexError "tuple index out of range"),
     set_timestamps (delete "c1" (timestamps toy_connected)) toy_connected).
Proof.
  apply (disconnect_without_reason_loses_timestamp "/" "c1" 3%Z toy_connected).
  reflexivity.
Defined.

(** X8 on the small server: an ordinary event, a disconnect and a connect
    of client [c1]; the original dispatch returns the event name. *)
Lemma dispatch_publishes_once_then_forwards_witness :
  (_trigger_event "chat" "/" "c1" [] toy_connected).1 = Ok (PStr "chat")
  ∧ (_trigger_event "disconnect" "/" "c1" [PStr "transport close"]
       toy_connected).1 = Ok (PStr "disconnect")
  ∧ (_trigger_event "connect" "/" "c1" [] (toy_state AuthFalse false)).1
    = Ok (PStr "connect")
  ∧ (_trigger_event "chat" "/" "c1" [] (toy_state AuthFalse true)).1
    = Raise (OtherError "handler failed")
  ∧ length (outbox (_trigger_event "chat" "/" "c1" []
                      (toy_state AuthFalse true)).2) = 1.
Proof.
  destruct (dispatch_publishes_once_then_forwards (W := toy))
    as (Hevent & Hdisconnect & Hconnect).
  split; [|split; [|split; [|split]]].
  - destruct (Hevent "chat" "/" "c1" [] toy_connected) as (-> & _);
      [discriminate|discriminate|reflexivity].
  - destruct (Hdisconnect "/" "c1" (PStr "transport close") [] 3%Z
                toy_connected) as (-> & _); reflexivity.
  - destruct (Hconnect "/" "c1" "e1" {| upgraded := false |} []
                (toy_state AuthFalse false)) as (-> & _); reflexivity.
  - destruct (Hevent "chat" "/" "c1" [] (toy_state AuthFalse true))
      as (-> & _); [discriminate|discriminate|reflexivity].
  - destruct (Hevent "chat" "/" "c1" [] (toy_state AuthFalse true))
      as (_ & _ & ->); [discriminate|discriminate|reflexivity].
Defined.

(** X10 on the small server: the original operations fail. *)
Lemma failed_transport_calls_are_not_counted_witness :
  _eio_http_response PNone PNone PNone (toy_state AuthFalse true)
  = (Raise (OtherError "underlying operation failed"),
     set_sio (toy_world true) (toy_state AuthFalse true))
  ∧ _eio_handle_post_request "e1" [("CONTENT_LENGTH", "42")]
      (toy_state AuthFalse true)
    = (Raise (OtherError "underlying operation failed"),
       set_sio (toy_world true) (toy_state AuthFalse true)).
Proof.
  destruct (failed_transport_calls_are_not_counted (W := toy))
    as (Hout & Hin).
  split.
  - apply (Hout PNone PNone PNone). reflexivity.
  - apply (Hin "e1" [("CONTENT_LENGTH", "42")]). reflexivity.
Defined.

(** X11 on the small server: a request that declares the length abc. *)
Lemma malformed_content_length_raises_witness :
  let out := _eio_handle_post_request "e1" [("CONTENT_LENGTH", "abc")]
               (toy_state AuthFalse false) in
  out.1 = Raise (ValueError "invalid literal for int() with base 10")
  ∧ sio out.2 = toy_world false
  ∧ counter "packetsIn" out.2
    = (counter "packetsIn" (toy_state AuthFalse false) + 1)%Z
  ∧ counter "bytesIn" out.2 = counter "bytesIn" (toy_state AuthFalse false).
Proof.
  apply (malformed_content_length_raises "e1" [("CONTENT_LENGTH", "abc")]
           "abc" PNone (toy_world false) (toy_state AuthFalse false));
    reflexivity.
Defined.

(** X12 on the small server: the config task in production mode, in
    development mode with client [c1] connected, and with the transport
    socket of [c1] gone. *)
Lemma config_task_messages_witness :
  config_body "a1" toy_production
  = (Ok (),
     set_outbox (outbox toy_production
                 ++ [config_message_for toy_production "a1"])
       toy_production)
  ∧ (∃ snaps,
       outbox (config_body "a1" (toy_state AuthFalse false)).2
       = [config_message_for (toy_state AuthFalse false) "a1";
          {| msg_event := "all_sockets"; msg_data := PAllSockets snaps;
             msg_to := Some "c1"; msg_namespace := "/admin" |}]
       ∧ length snaps = 1)
  ∧ ∃ e,
      config_body "a1" toy_orphan
      = (Raise e,
         set_outbox (outbox toy_orphan ++ [config_message_for toy_orphan "a1"])
           toy_orphan).
Proof.
  destruct (config_task_messages (W := toy)) as (Hprod & Hdev & Hfail).
  split; [|split].
  - apply (Hprod "a1" toy_production). discriminate.
  - destruct (Hdev "a1" (toy_state AuthFalse false) eq_refl)
      as (snaps & -> & Hsnaps).
    + apply Forall_singleton. by exists {| upgraded := false |}.
    + exists snaps. split; [reflexivity|].
      by apply Forall2_length in Hsnaps.
  - apply (Hfail "a1" toy_orphan eq_refl).
    intros Hall. apply (proj1 (Forall_singleton _ _)) in Hall as [sk Hsk].
    discriminate Hsk.
Defined.

(** X13 on the small server: in production mode the layer advertises EMIT
    and registers no handler for it. *)
Lemma advertised_and_registered_commands_witness :
  "EMIT" ∈ supported_features toy_production_config
  ∧ "emit" ∉ instrument_handlers toy_production_config.
Proof.
  destruct (advertised_and_registered_commands toy_production_config)
    as (_ & _ & _ & _ & _ & Hgap).
  apply Hgap; [discriminate|reflexivity].
Defined.

(** X14 on the small server: the first run of the stats task that a
    transport connection started. *)
Lemma stats_task_first_run_witness :
  let ns := sort_strings (sio_handlers (sio toy_created)) in
  Sorted string_le ns
  ∧ ns ≡ₚ sio_handlers (sio toy_created)
  ∧ tasks (run_task 0 toy_created) !! 0
    = Some (StatsSleeping (server_stats_interval (cfg toy_created))
              (clock toy_created) ns)
  ∧ outbox (run_task 0 toy_created) = outbox toy_created
  ∧ event_buffer (run_task 0 toy_created) = event_buffer toy_created
  ∧ admin_queue (run_task 0 toy_created) = admin_queue toy_created.
Proof.
  apply (stats_task_first_run 0 false toy_created); reflexivity.
Defined.

(** X15 on the small server: the round that follows a join and a leave:
    one client, which is polling, and the raw connection counted. *)
Lemma stats_round_reports_and_resets_witness :
  ∃ st,
    outbox (run_task 0 toy_queued)
    = outbox toy_queued
      ++ stats_message toy_queued st
         :: (queued_message toy_queued <$> admin_queue toy_queued)
    ∧ st_uptime st = 2%Z
    ∧ st_clientsCount st = 1
    ∧ st_aggregatedEvents st !! "rawConnection" = Some 1%Z
    ∧ nc_name <$> st_namespaces st = ["/"]
    ∧ counter "rawConnection" (run_task 0 toy_queued) = 0%Z.
Proof.
  destruct (stats_round_reports_and_resets 0 0%Z ["/"] toy_queued eq_refl)
    as (st & Hout & _ & Hup & Hclients & _ & _ & Hagg & Hns & Hzero & _).
  exists st. rewrite Hout, Hup, Hclients, Hagg, Hns, Hzero.
  repeat split; reflexivity.
Defined.

(** X16 on the small server: an allow-list of one token and a predicate
    that accepts the same token. *)
Lemma allow_list_and_predicate_authentication_witness :
  (admin_connect "a1" [] (CredStr "token")
     (toy_state (AuthList [CredStr "token"]) false)).1 = Ok ()
  ∧ admin_connect "a1" [] (CredStr "guess")
      (toy_state (AuthList [CredStr "token"]) false)
    = (Raise (ConnectionRefusedError "authentication failed"),
       toy_state (AuthList [CredStr "token"]) false)
  ∧ (admin_connect "a1" [] (CredStr "token")
       (toy_state (AuthCallable token_only) false)).1 = Ok ()
  ∧ admin_connect "a1" [] (CredStr "guess")
      (toy_state (AuthCallable token_only) false)
    = (Raise (ConnectionRefusedError "authentication failed"),
       toy_state (AuthCallable token_only) false).
Proof.
  destruct (allow_list_and_predicate_authentication (W := toy))
    as (Hlist & Hpred).
  split; [|split; [|split]].
  - apply (Hlist [CredStr "token"] "a1" [] (CredStr "token")
             (toy_state (AuthList [CredStr "token"]) false) eq_refl);
      [discriminate|apply list_elem_of_here].
  - apply (Hlist [CredStr "token"] "a1" [] (CredStr "guess")
             (toy_state (AuthList [CredStr "token"]) false) eq_refl);
      [discriminate|].
    intros Hin. apply list_elem_of_singleton in Hin. discriminate Hin.
  - apply (Hpred token_only "a1" [] (CredStr "token")
             (toy_state (AuthCallable token_only) false) eq_refl).
    reflexivity.
  - apply (Hpred token_only "a1" [] (CredStr "guess")
             (toy_state (AuthCallable token_only) false) eq_refl).
    reflexivity.
Defined.

(** X18 on the small server: the sleeping stats task is still under way
    after a period and a second transport connection; and after a stop
    request followed by an admin connection it is still under way when
    its sleep is over. *)
Lemma stats_task_ends_only_when_stopped_witness :
  (stop_stats_event
     (exec_all [Tick; Tick; RunTask 0; EioConnect "e2" []] toy_sleeping)
   = Some false
   ∧ ∃ t', tasks (exec_all [Tick; Tick; RunTask 0; EioConnect "e2" []]
                    toy_sleeping) !! 0 = Some t'
           ∧ stats_running t' = true)
  ∧ ∃ t', tasks (exec_all [AdminConnect "a1" [] (CredStr "any");
                           Tick; Tick; RunTask 0]
                   (set_stop_stats_event (Some true) toy_sleeping)) !! 0
          = Some t'
          ∧ stats_running t' = true.
Proof.
  destruct (stats_task_ends_only_when_stopped (W := toy))
    as (Hruns & Hcancel).
  split.
  - apply (Hruns [Tick; Tick; RunTask 0; EioConnect "e2" []] 0
             (StatsSleeping 2 0 ["/"]) toy_sleeping); reflexivity.
  - apply (Hcancel "a1" [] (CredStr "any") [Tick; Tick; RunTask 0] 0
             (StatsSleeping 2 0 ["/"])
             (set_stop_stats_event (Some true) toy_sleeping)); reflexivity.
Defined.

(** X19 on the small server: shutdown after a transport connection and
    the first run of the stats task, while the server goes through
    [toy_busy]; and shutdown of the layer just built. *)
Lemma shutdown_returns_unless_an_admin_connects_witness :
  ((shutdown_signal toy_sleeping).1 = Ok (Some 0)
   ∧ ∃ n, gathered 0
            (run_task 0
               (ticks n (exec_all toy_busy (shutdown_signal toy_sleeping).2)))
          = Some (Ok ()))
  ∧ shutdown 0 (toy_state AuthFalse false)
    = Some (Ok (), toy_state AuthFalse false).
Proof.
  destruct (shutdown_returns_unless_an_admin_connects (W := toy))
    as (Hreach & Hfresh).
  split.
  - pose proof (Hreach (toy_config AuthFalse) (toy_world false)
                  (toy_state AuthFalse false)
                  [EioConnect "e1" []; RunTask 0] toy_busy eq_refl) as Hrun.
    assert (stats_task
              (exec_all [EioConnect "e1" []; RunTask 0]
                 (toy_state AuthFalse false)) = Some 0) as Hrec
      by (vm_compute; reflexivity).
    rewrite Hrec in Hrun. apply Hrun. repeat constructor.
  - apply (Hfresh (toy_config AuthFalse) (toy_world false)
             (toy_state AuthFalse false) 0).
    reflexivity.
Defined.

(** X20 on the small server: shutdown of the sleeping stats task, twice. *)
Lemma shutdown_is_idempotent_witness :
  shutdown 4 toy_sleeping = Some (Ok (), toy_stopped)
  ∧ shutdown 1 toy_stopped = Some (Ok (), toy_stopped).
Proof.
  assert (shutdown 4 toy_sleeping = Some (Ok (), toy_stopped)) as Hfirst
    by (vm_compute; reflexivity).
  split; [exact Hfirst|].
  apply (shutdown_is_idempotent 4 0 (Ok ()) toy_sleeping toy_stopped Hfirst).
Defined.
